(* ===== verification/_CoqProject ===== *)
-Q . S2P
Prelude.v
Numeric.v
Order.v
JsMath.v
SVGMatrix.v
Affine.v
Basis.v
Throttle.v
Chart.v
SegmentTree.v
Viewport.v
Zoom.v
ZoomHandler.v
D3Zoom.v
D3Line.v
DrawChart.v
Demo.v
Page.v
Bench.v
