(* ===== verification/Prelude.v ===== *)
(** * svg-time-series: a verification development

    The repository draws zoomable time-series charts in SVG.  Its algebraic
    core is [src/viewZoomTransform.ts]: one-dimensional affine maps
    ([AR1]), bases of the affine line ([AR1Basis]) and the solver
    [betweenBasesAR1] that returns the map carrying one basis onto another.
    Around it, [src/draw.ts] keeps the state of a chart (the date of the
    first sample, the step between samples, the sample buffer, the count of
    samples received since the last redraw), throttles redraws with
    [drawProc], draws the picture ([drawChart]: scales, axes, one path per
    series, the rectangle that takes the gestures) and derives the
    vertical transform of a zoom from the minimum and maximum of the
    visible samples; [src/demos/common.ts] makes a chart for every [svg]
    of a page, feeds them from a timer and builds the leaves of the
    range-aggregation tree; [src/benchmarks/d3-pan-zoom-vwt/index.ts] pans
    a view through the viewport mapper ([ViewWindowTransform]), whose
    source is not in the repository snapshot and is modelled from the
    specification.  What the charts depend on of D3 (the zoom behaviour
    with its extents, the line generator, scales) is modelled from the
    library's source.

    ** Files, in dependency order

    - [Prelude] (this file): the development's tactics ([inv],
      [break_match], [break_pairs], [simp_opt]), the hint database [svg],
      the option monad and its notation, counted loops ([for_upto], the
      model of [for (let i = 0; i < n; i++)]) with their invariant rule,
      the same loops as while loops with fuel ([while_loop]) and the fuel
      that suffices, invariants of folds, [eventually] over a trace, and
      the list and modulo facts the components share.
    - [Numeric]: what the code needs of a JavaScript [number].  The class
      [NumOps] holds the operations the sources use ([+], [-], [*], [/],
      unary minus, 0 and 1); every definition that models arithmetic code
      is written once, against [NumOps].  The class [NumField] adds an
      equivalence and the field laws: the algebraic theorems are proved
      once against it, with [ring] and [field].  Instances: the rationals
      [Q] (exact, executable), the reals [R] (the specification's "real
      number"), and binary64 floats ([PrimFloat], operations only: the
      same definitions then compute what a JavaScript engine computes,
      rounding and infinities included).  [DateOps] is the passage between
      a [Date] and a number, with the instance for [Q]; [NaNOps] is
      [isNaN] on a number.
    - [Order]: the comparisons of numbers.  The class [NumOrder] is a
      total order that the operations respect, with its boolean test;
      [nmin], [nmax] and [nltb] are derived.  [between a b x] says that
      [x] lies between [a] and [b] in whichever order they come: it is
      the form every bound of the development takes, because the code
      maps increasing dates to increasing pixels and increasing values to
      decreasing ones.  The lemma the bounds rest on is [between_affine]:
      an affine map, increasing or decreasing, keeps betweenness.
      Instances: [Q] and [R]; [DateOrder] says that the passage between
      dates and numbers is monotone, [DateShift] that a date that is not
      negative moves with its number.
    - [JsMath]: [isNaN], [Math.min] and [Math.max] on floats, with the
      order facts their callers need.
    - [SVGMatrix]: the 2D affine matrix of the rendering layer
      ([translate], [scaleNonUniform], post-multiplication), modelled from
      the DOM interface that the adapters call.
    - [Affine]: class [AR1]: [composeWith], [inverse], [applyToPoint],
      [applyToMatrixX], [applyToMatrixY]; the equivalence [AR1_eq] (equal
      coefficients) with its [Proper] instances.  Theorems: the
      composition-order law, associativity, the identity and inverse laws,
      the invariant "the scale is not zero" and its preservation, the
      meaning of the matrix adapters (translate first, then scale), that
      [applyToPoint] keeps betweenness, and what the code returns on
      floats when the scale is zero.
    - [Basis]: [betweenBasesAR1], [AR1Basis] ([toArr], [transformWith]),
      [bUnit], [bPlaceholder], [betweenTBasesAR1].  Theorems: correctness
      and uniqueness of the solved transform, symmetry under consistent
      relabelling, solve then solve is solve, the inverse of a solve is
      the solve of the swapped bases, the round trip between a transform
      and the image of a basis, that the solved transform sends the
      points between the source points to points between the target
      points, the calibration scenario on [Q] and on floats, and the
      non-finite coefficients of a degenerate source basis.
    - [Throttle]: [drawProc] of [src/draw.ts].  The closure's state is the
      flag [requested] and the timer callbacks it has scheduled, each with
      the arguments it captured; calls and timer ticks are the events of a
      step function.  Theorems: the flag is up exactly when one callback is
      scheduled; over any trace the wrapped procedure runs on the
      arguments the reference [coalesce] gives, those of the first call of
      every burst; it runs at most once per tick.
    - [Chart]: class [TimeSeriesChart] of [src/draw.ts] without its DOM.
      The record holds the fields that the methods read and write;
      [newChart] is the constructor with the assignments of [drawChart],
      [updateChartWithNewData] and [drawNewDataBody] are the methods,
      [tickDrawNewData] the timer callback of the throttled [drawNewData],
      [getZoomIntervalY] the scan of the zoom.  Theorems: the invariant of
      the chart over every trace of updates and ticks, the sliding
      window, the lag of [minX] behind the buffer, that coalesced redraws
      cannot be observed once a redraw has run, what the scan returns on
      a hit and on a miss, that its loop terminates within [intervalSize]
      iterations, that the buffer keeps its length, and that the chart is
      at rest once the redraw timer has ticked.
    - [SegmentTree]: the range-aggregation service of the specification
      (section 6), whose source is not in the snapshot: the answers
      [IMinMax], the interface [RangeQuery] with its contract
      [RangeQueryLaws], and a reference implementation that folds the leaf
      tuples of the rows of a range.  Theorems: the reference satisfies
      the contract, decomposes over a range cut in two, and its answer
      brackets the tuple of every row of the range ([RangeQueryBounds],
      the promise the bounds of a zoom are proved against).
    - [Viewport]: the per-axis mapper of the specification (section 4.3)
      as a state machine (Uninitialized, Ready) on top of
      [betweenTBasesAR1] and [inverse], the two-axis [ViewWindowTransform]
      with its matrix, and the benchmark's [vecToModel] and [draw] as
      their client.  Conversions return [None] before both bases are set.
      Theorems: no stale transform is ever stored, Ready is reached
      exactly when both bases were set, the round trip between model and
      screen, the invariance of [modelDelta], that the window is mapped
      into the viewport, what a pan does to the window, and the scenarios
      of the specification.
    - [Zoom]: the vertical arithmetic of [TimeSeriesChart.zoom]
      ([scaleY], [translateY], the axis scale [ry]) over D3's linear
      scale.  Theorems: the transform is the solve between the pixel rows
      of the visible extremes and the ends of the chart, so paths and axis
      agree after a zoom, and a value between the visible extremes is
      drawn between the bottom and the top of the chart; on floats a flat
      window gives an infinite scale.
    - [ZoomHandler]: the whole procedure wrapped by
      [TimeSeriesChart.zoom], on the chart of [Chart] extended with the
      fields of [IChartParameters] it reads and writes ([ChartView]), with
      its throttle; D3's zoom transform, [rescaleX] and time scale,
      modelled from their documentation; the tree behind the interface of
      [SegmentTree].  Events are zoom calls, zoom ticks, samples and
      redraw ticks, in any order.  Theorems: the invariant of the view
      over every trace; on a hit the query is a valid range and the
      procedure returns with the view transformed, and every sample whose
      date is in the new domain is drawn inside the chart; on a miss the
      query is no range; the identity zoom on a fresh chart is the
      identity; of a burst of zoom events the first is shown; a call
      without a transform fails; where [drawChart] puts the paths against
      the axis.
    - [D3Zoom]: the zoom behaviour of d3-zoom as far as the charts depend
      on it: the transform kept on an element, [scaleTo] with the clamp to
      [scaleExtent], [translateTo], [constrain] with [translateExtent],
      and the transforms that a turn of the wheel and a drag deliver
      ([gesture_step]); [chartBehavior] and [benchBehavior] are the
      behaviours that [drawChart] and the benchmark configure.  Theorems:
      over every sequence of gestures the transform of a chart has a
      scale between 1 and 40 and shows pixels of the chart only; the
      domain [zoom] gives [rx] for such a transform lies within the
      domain of [x]; the benchmark's transform never changes its scale;
      a transform the extents allow whose domain holds no sample; a zoom
      and the redraw of a sample commute on dates that are not negative.
    - [D3Line]: the line generator of d3-shape with the linear curve: the
      loop over the samples with the flag [defined0], a path as the list
      of its commands.  Theorems: the points of the path are the defined
      samples in order, and the path is well formed for a reader that
      refuses to draw without a current point.
    - [DrawChart]: [drawChart] of [src/draw.ts] as the scene it leaves on
      the page ([Scene]): the size, the settings of the two axes
      ([MyAxis]), the scales, the generator and the paths of the series,
      the rectangle with its behaviour and the transform kept on it, the
      handler, the mapper that [pathTransform] writes, and the chart of
      [ZoomHandler].  Events are gestures, samples and the ticks of the
      two timers ([scene_step]).  Theorems: the paths hold exactly the
      cells that are there and are not NaN; the picture lies inside the
      [svg]; over every trace the domain of [rx] stays within the
      domain of [x]; a gesture before a sample and its redraw leaves the
      chart as the same gesture after them; with a handler that calls [zoom] without an argument
      the first gesture is the last; the attribute that [zoom] sets
      replaces the matrix of [pathTransform].
    - [Demo]: [buildSegmentTreeTuple], the timer of [drawCharts] and
      [onZoom] of [src/demos/common.ts], and the tree of the demo as an
      instance of [RangeQuery].  Theorems: the tuple never holds NaN, is
      the neutral element when both columns are missing and is ordered
      when they are numbers; the tree never answers NaN; the timer leaves
      every buffer a rotation of the data; [onZoom] fails in every chart.
    - [Page]: the page of the demo as the list of the scenes of its
      charts, all under the one handler [onZoom], with the selection of
      [zoom] that covers the rectangles of every chart.  Theorems: no
      chart of the page ever zooms; after the first gesture and the tick
      that follows it no rectangle of the page has a transform again.
    - [Bench]: the globals, the handler [zoomed] and the animation-frame
      throttle of the benchmark.  Theorems: the frame draws the latest
      pan; a repeated transform requests no frame; on the mapper of the
      specification no window is ever set; on a mapper that starts from
      placeholder bases every frame draws and every pan is shown.

    ** Numbers

    A JavaScript [number] is a binary64 float.  The algebraic theorems are
    stated over an arbitrary field ([NumField]) and therefore describe the
    exact arithmetic that the specification calls "real numbers"; they
    hold of the floats only up to rounding, which is not modelled.  What
    floats do differently and observably (a division by zero gives an
    infinity or NaN instead of failing, NaN is unordered) is shown on the
    float instance, by evaluation and, in [JsMath], from the specification
    of the primitive comparisons.  The bounds are stated over an ordered
    field ([NumOrder]) and so hold for numbers that are not NaN, in exact
    arithmetic; the floats are no instance, since NaN compares with
    nothing.  Dates are integer milliseconds and are modelled in [Z]: the
    model is exact while the values stay below 2^53, which covers every
    date a [Date] can hold.

    ** Loops, timers and fuel

    The only loop of the modelled code is the counted loop of
    [getZoomIntervalY].  It is modelled twice: as a [fold_left] over
    [seq 0 n] ([for_upto]), which needs no fuel, and as the while loop the
    code writes, with fuel; [intervalSize + 1] units of fuel are enough and
    [intervalSize] are not ([getZoomIntervalY_terminates],
    [getZoomIntervalY_loop_out_of_fuel]).  Timers ([setTimeout] behind
    [drawProc], [setInterval] in the demo, animation frames in the
    benchmark) and gestures are events of step functions folded over
    finite traces, so every definition is total and evaluates with
    [vm_compute].  The loop of the line generator is a structural
    recursion on the buffer.

    ** Exceptions

    Code that throws returns the state it had reached with the reason
    ([zoomBody]), [None] ([buildSegmentTreeTuple], the conversions of the
    mapper) or [false] ([frame]).

    ** Not modelled

    The DOM is reduced to what the code reads back or a viewer sees: the
    size of the container is an input of [drawChart]; the elements it
    creates are the fields of the scene; the rendering of the axis groups
    (ticks and labels), the strings of the attributes and [measure] are
    output only and are left out.  Of d3-zoom, touch gestures,
    transitions, filters and the start and end events are left out: the
    charts listen to [zoom] events alone.  The segment tree, the viewport
    mapper and the axis class are not in the repository snapshot: the
    first is an interface with a reference implementation (the tree
    structure is not modelled), the second is modelled from the
    specification, and what [setViewPort] takes as pixel bases
    ([(0, width)] and [(0, height)]) is an assumption on which the
    ordinates of the drawn points depend; whether its bases start unset
    (the specification) or as [bPlaceholder] is not known, and the
    benchmark is proved on both; of the third the settings are
    kept.  Rounding of floats is not modelled: the theorems about
    [rescaleX], the vertical transform and the bounds hold in exact
    arithmetic.  [onMouseMove] of the demo calls a method the chart does
    not have.  The picture of the benchmark (the phyllotaxis points and
    the circles) is trigonometry that no other code reads.  *)

From Stdlib Require Import List ZArith Lia Bool.
Import ListNotations.

(** ** Tactics *)

(** [inv H]: inversion that cleans up after itself. *)
Ltac inv H := inversion H; subst; clear H.

(** [break_match]: case analysis on the scrutinee of a [match] or [if] of
    the goal (first) or of a hypothesis, keeping the equation. *)
Ltac break_match :=
  match goal with
  | |- context [match ?e with _ => _ end] =>
      let E := fresh "E" in destruct e eqn:E
  | H : context [match ?e with _ => _ end] |- _ =>
      let E := fresh "E" in destruct e eqn:E
  end.

(** [break_pairs]: split every pair-typed variable and pair of the context. *)
Ltac break_pairs :=
  repeat match goal with
    | p : (_ * _)%type |- _ => destruct p
    | H : (_, _) = (_, _) |- _ => inv H
    | H : _ /\ _ |- _ => destruct H
    end.

(** [simp_opt]: simplify equations between options. *)
Ltac simp_opt :=
  repeat match goal with
    | H : Some _ = Some _ |- _ => inv H
    | H : Some _ = None |- _ => discriminate H
    | H : None = Some _ |- _ => discriminate H
    end.

(** The hint database of the development. *)
Create HintDb svg discriminated.
Create Rewrite HintDb svg_rw.

(** ** The option monad: fallible operations return [option] *)

Declare Scope opt_scope.
Delimit Scope opt_scope with opt.

Definition obind {A B} (o : option A) (k : A -> option B) : option B :=
  match o with
  | Some a => k a
  | None => None
  end.

Definition is_some {A} (o : option A) : bool :=
  match o with
  | Some _ => true
  | None => false
  end.

Notation "x <- e ;; k" := (obind e (fun x => k))
  (at level 61, e at next level, right associativity) : opt_scope.

(** ** Counted loops

    [for (let i = 0; i < n; i++) s = body(s, i)] starting from [init]. *)

Definition for_upto {S} (n : nat) (body : S -> nat -> S) (init : S) : S :=
  fold_left body (seq 0 n) init.

(** ** Facts *)

(** [while (cond) body] with fuel: [None] when the fuel runs out before the
    condition fails. *)
Fixpoint while_loop {S} (fuel : nat) (cond : S -> bool) (body : S -> S) (s : S)
  : option S :=
  match fuel with
  | 0 => None
  | Datatypes.S fuel' =>
      if cond s then while_loop fuel' cond body (body s) else Some s
  end.

(** The counted loop [for (let i = 0; i < n; i++) body] as a while loop on
    the pair of the counter and the loop's variables. *)
Definition counted_cond {S} (n : nat) (s : nat * S) : bool := fst s <? n.

Definition counted_body {S} (body : S -> nat -> S) (s : nat * S) : nat * S :=
  (Datatypes.S (fst s), body (snd s) (fst s)).

(** [eventually step P trace s]: running [trace] from [s], a state that
    satisfies [P] is reached, at the latest when the trace ends. *)
Inductive eventually {S E} (step : S -> E -> S) (P : S -> Prop)
  : list E -> S -> Prop :=
| eventually_now trace s : P s -> eventually step P trace s
| eventually_later e trace s :
    eventually step P trace (step s e) -> eventually step P (e :: trace) s.

Lemma obind_Some {A B} (o : option A) (k : A -> option B) b :
  obind o k = Some b <-> exists a, o = Some a /\ k a = Some b.
Proof.
  destruct o; simpl; split.
  - eauto.
  - intros (? & E & ?). now inv E.
  - discriminate.
  - intros (? & ? & _). discriminate.
Qed.

Lemma obind_None {A B} (o : option A) (k : A -> option B) :
  obind o k = None <-> o = None \/ exists a, o = Some a /\ k a = None.
Proof.
  destruct o; simpl; split; eauto.
  - intros [? | (? & E & ?)]; [discriminate | now inv E].
Qed.

Lemma for_upto_0 {S} (body : S -> nat -> S) init : for_upto 0 body init = init.
Proof. reflexivity. Qed.

Lemma for_upto_S {S} n (body : S -> nat -> S) init :
  for_upto (Datatypes.S n) body init = body (for_upto n body init) n.
Proof.
  unfold for_upto. rewrite seq_S, fold_left_app. reflexivity.
Qed.

(** The invariant rule of the counted loop. *)
Lemma for_upto_ind {S} (P : nat -> S -> Prop) n (body : S -> nat -> S) init :
  P 0 init ->
  (forall i s, i < n -> P i s -> P (Datatypes.S i) (body s i)) ->
  P n (for_upto n body init).
Proof.
  intros H0 Hstep.
  assert (forall k, k <= n -> P k (for_upto k body init)) as H.
  { induction k; intros Hk; [exact H0 |].
    rewrite for_upto_S. apply Hstep; [lia | apply IHk; lia]. }
  apply H. lia.
Qed.

#[export] Hint Rewrite @for_upto_0 @for_upto_S : svg_rw.

(** An invariant of every step is an invariant of a run. *)
Lemma fold_left_invariant {S E} (P : S -> Prop) (f : S -> E -> S) l s :
  (forall s e, P s -> P (f s e)) -> P s -> P (fold_left f l s).
Proof.
  intros Hstep. revert s. induction l as [| e l IH]; simpl; auto.
Qed.

Lemma fold_left_snoc {S E} (f : S -> E -> S) l e s :
  fold_left f (l ++ [e]) s = f (fold_left f l s) e.
Proof. now rewrite fold_left_app. Qed.

Lemma is_some_true {A} (o : option A) : is_some o = true <-> o <> None.
Proof. destruct o; simpl; split; congruence. Qed.

(** ** Reading a list around an index *)

Lemma skipn_nth_cons {A} (l : list A) (r : nat) (d : A) :
  r < length l -> skipn r l = nth r l d :: skipn (S r) l.
Proof.
  revert r. induction l as [| a l IH]; intros [| r] H; simpl in *; try lia;
    [reflexivity | apply IH; lia].
Qed.

Lemma firstn_snoc_nth {A} (l : list A) (r : nat) (d : A) :
  r < length l -> firstn r l ++ [nth r l d] = firstn (S r) l.
Proof.
  revert r. induction l as [| a l IH]; intros [| r] H; simpl in *; try lia;
    [reflexivity | f_equal; apply IH; lia].
Qed.

Lemma firstn_add {A} (n m : nat) (l : list A) :
  firstn (n + m) l = firstn n l ++ firstn m (skipn n l).
Proof.
  revert l. induction n as [| n IH]; intros [| a l]; simpl;
    [reflexivity | reflexivity | now rewrite firstn_nil | now rewrite IH].
Qed.

(** The successor modulo [n]. *)
Lemma mod_S (k n : nat) :
  0 < n ->
  S k mod n = if S (k mod n) =? n then 0 else S (k mod n).
Proof.
  intros Hn. pose proof (Nat.div_mod_eq k n) as E.
  pose proof (Nat.mod_upper_bound k n ltac:(lia)) as Hr.
  destruct (Nat.eqb_spec (S (k mod n)) n) as [Heq | Hne]; symmetry.
  - apply Nat.mod_unique with (q := S (k / n)); nia.
  - apply Nat.mod_unique with (q := k / n); lia.
Qed.

(** ** While loops with fuel *)

(** A counted loop started at [i <= n] exits after [n - i] iterations: any
    fuel above that gives the result of the fold. *)
Lemma while_loop_counted {S} (body : S -> nat -> S) (n fuel i : nat) (acc : S) :
  i <= n -> n - i < fuel ->
  while_loop fuel (counted_cond n) (counted_body body) (i, acc)
  = Some (n, fold_left body (seq i (n - i)) acc).
Proof.
  revert i acc. induction fuel as [| fuel IH]; intros i acc Hi Hf; [lia |].
  simpl. unfold counted_cond at 1. simpl.
  destruct (Nat.ltb_spec i n) as [Hlt | Hge].
  - unfold counted_body at 2. simpl. rewrite IH by lia.
    replace (n - i) with (Datatypes.S (n - Datatypes.S i)) by lia. reflexivity.
  - replace (n - i) with 0 by lia. simpl. f_equal. f_equal. lia.
Qed.

(** With less fuel it is cut short. *)
Lemma while_loop_out_of_fuel {S} (body : S -> nat -> S) (n fuel i : nat) (acc : S) :
  fuel <= n - i ->
  while_loop fuel (counted_cond n) (counted_body body) (i, acc) = None.
Proof.
  revert i acc. induction fuel as [| fuel IH]; intros i acc Hf; [reflexivity |].
  simpl. unfold counted_cond at 1. simpl.
  destruct (Nat.ltb_spec i n) as [Hlt | Hge]; [| lia].
  unfold counted_body at 2. simpl. apply IH. lia.
Qed.

Lemma while_loop_for_upto {S} (body : S -> nat -> S) (n fuel : nat) (init : S) :
  n < fuel ->
  while_loop fuel (counted_cond n) (counted_body body) (0, init)
  = Some (n, for_upto n body init).
Proof.
  intros Hf. rewrite while_loop_counted by lia. now rewrite Nat.sub_0_r.
Qed.

(** ** Eventually *)

Lemma eventually_mono {S E} (step : S -> E -> S) (P Q : S -> Prop) trace s :
  (forall s', P s' -> Q s') ->
  eventually step P trace s -> eventually step Q trace s.
Proof. intros HPQ. induction 1; [left | right]; auto. Qed.

(** What holds after a prefix of the trace holds eventually. *)
Lemma eventually_prefix {S E} (step : S -> E -> S) (P : S -> Prop) pre post s :
  P (fold_left step pre s) -> eventually step P (pre ++ post) s.
Proof.
  revert s. induction pre as [| e pre IH]; intros s H; simpl in *;
    [now left | right; now apply IH].
Qed.

(** It holds eventually exactly when it holds after some prefix. *)
Lemma eventually_iff {S E} (step : S -> E -> S) (P : S -> Prop) trace s :
  eventually step P trace s <->
  exists k, P (fold_left step (firstn k trace) s).
Proof.
  split.
  - induction 1 as [trace s H | e trace s _ [k Hk]];
      [exists 0; now rewrite firstn_O | now exists (Datatypes.S k)].
  - intros [k Hk]. rewrite <- (firstn_skipn k trace).
    now apply eventually_prefix.
Qed.
