(* ===== verification/Numeric.v ===== *)
(** * Numeric: the arithmetic interface of the modelled code

    The sources compute on JavaScript [number]s with [+], [-], [*], [/] and
    unary minus.  [NumOps] is that signature; the components are written
    against it, so one definition serves every carrier.  [NumField] states
    what exact arithmetic promises (a field up to an equivalence [neq]); the
    components' algebraic theorems are proved against it, and the instances
    for [Q] and [R] discharge it.  The float instance has the operations
    only: floats are not a field, and the definitions are evaluated on it to
    observe rounding and the non-finite results of a division by zero.
    [NaNOps] is the test [isNaN]; [DateOps] the passage between a [Date]
    and a number. *)

From Stdlib Require Export Ring Field Setoid Morphisms.
From Stdlib Require Import ZArith Lia QArith Qround Qfield Lqa Reals RealField Floats.
From S2P Require Import Prelude.

Declare Scope num_scope.
Delimit Scope num_scope with num.

(** ** Operations *)

Class NumOps (T : Type) := {
  nzero : T;
  none : T;
  nadd : T -> T -> T;
  nsub : T -> T -> T;
  nmul : T -> T -> T;
  ndiv : T -> T -> T;
  nopp : T -> T
}.

Notation "0" := nzero : num_scope.
Notation "1" := none : num_scope.
Infix "+" := nadd : num_scope.
Infix "-" := nsub : num_scope.
Infix "*" := nmul : num_scope.
Infix "/" := ndiv : num_scope.
Notation "- x" := (nopp x) : num_scope.

(** The reciprocal, as the code writes it: [1 / x]. *)
Definition ninv {T} {ops : NumOps T} (x : T) : T := (1 / x)%num.

(** Integer literals of the code ([500], [40]), built from [1] in binary. *)
Fixpoint nofpos {T} {ops : NumOps T} (p : positive) : T :=
  match p with
  | xH => 1
  | xO p' => (1 + 1) * nofpos p'
  | xI p' => 1 + (1 + 1) * nofpos p'
  end%num.

Definition nofZ {T} {ops : NumOps T} (z : Z) : T :=
  match z with
  | Z0 => 0
  | Zpos p => nofpos p
  | Zneg p => - nofpos p
  end%num.

(** ** Exact arithmetic: a field up to an equivalence *)

Class NumField (T : Type) {ops : NumOps T} := {
  neq : T -> T -> Prop;
  neq_equiv :: Equivalence neq;
  nadd_proper :: Proper (neq ==> neq ==> neq) nadd;
  nmul_proper :: Proper (neq ==> neq ==> neq) nmul;
  nopp_proper :: Proper (neq ==> neq) nopp;
  ndiv_proper :: Proper (neq ==> neq ==> neq) ndiv;
  nfield_th : field_theory 0%num 1%num nadd nmul nsub nopp ndiv ninv neq
}.

Infix "==" := neq (at level 70, no associativity) : num_scope.

(** Pairs of numbers (a tuple [[number, number]]) are compared
    componentwise. *)
Definition neq2 {T} {ops : NumOps T} {fld : NumField T} (p q : T * T) : Prop :=
  (fst p == fst q /\ snd p == snd q)%num.

(** ** Instances *)

(** ** Dates

    A [Date] holds an integer count of milliseconds.  [ofDate] is the
    number a date stands for in arithmetic ([getTime], [valueOf]);
    [toDate] is [new Date(v).getTime()], which drops the fraction of [v]
    (rounds toward zero). *)

Class DateOps (T : Type) := {
  ofDate : Z -> T;
  toDate : T -> Z
}.

Class DateLaws (T : Type) {ops : NumOps T} {fld : NumField T}
  {dates : DateOps T} : Prop := {
  toDate_proper : Proper (neq ==> eq) toDate;
  toDate_ofDate : forall z, toDate (ofDate z) = z
}.

(** [isNaN(v)] on a number.  Rationals and reals have no NaN. *)
Class NaNOps (T : Type) := {
  nisNaN : T -> bool
}.

(** Rounding a rational toward zero. *)
Definition Qtrunc (q : Q) : Z :=
  if Qle_bool 0 q then Qfloor q else Qceiling q.

(** Rationals: exact and executable. *)
#[export] Instance Qops : NumOps Q :=
  {| nzero := 0%Q; none := 1%Q; nadd := Qplus; nsub := Qminus;
     nmul := Qmult; ndiv := Qdiv; nopp := Qopp |}.

(** Reals: the numbers of the specification. *)
#[export] Instance Rops : NumOps R :=
  {| nzero := 0%R; none := 1%R; nadd := Rplus; nsub := Rminus;
     nmul := Rmult; ndiv := Rdiv; nopp := Ropp |}.

(** Binary64 floats: the numbers of the JavaScript engine. *)
#[export] Instance Fops : NumOps float :=
  {| nzero := 0%float; none := 1%float; nadd := PrimFloat.add;
     nsub := PrimFloat.sub; nmul := PrimFloat.mul; ndiv := PrimFloat.div;
     nopp := PrimFloat.opp |}.

#[export] Instance Qnan : NaNOps Q := {| nisNaN := fun _ => false |}.

#[export] Instance Rnan : NaNOps R := {| nisNaN := fun _ => false |}.

#[export] Instance Fnan : NaNOps float := {| nisNaN := PrimFloat.is_nan |}.

(** A float is finite when it is neither an infinity nor NaN. *)
Definition is_finite (x : float) : bool :=
  negb (PrimFloat.is_nan x || PrimFloat.is_infinity x).

(** [near eps x y]: [|x - y| <= eps], decided on floats. *)
Definition near (eps x y : float) : bool :=
  PrimFloat.leb (PrimFloat.abs (PrimFloat.sub x y)) eps.

(** ** Facts every field instance has *)

Section FieldFacts.
Context {T : Type} {ops : NumOps T} {fld : NumField T}.
Local Open Scope num_scope.

#[export] Instance ninv_proper : Proper (neq ==> neq) ninv.
Proof. intros a b H. unfold ninv. now rewrite H. Qed.

Lemma num_ring_ext : ring_eq_ext nadd nmul nopp neq.
Proof. constructor; exact _. Qed.

#[export] Instance nsub_proper : Proper (neq ==> neq ==> neq) nsub.
Proof.
  intros a b H c d H'. rewrite !(Rsub_def (F_R nfield_th)). now rewrite H, H'.
Qed.

Add Field num_field : nfield_th (setoid neq_equiv num_ring_ext).

#[export] Instance neq2_equiv : Equivalence neq2.
Proof.
  split.
  - intros [x y]; split; reflexivity.
  - intros p q [H1 H2]; split; symmetry; assumption.
  - intros p q r [H1 H2] [H3 H4]; split; etransitivity; eassumption.
Qed.

#[export] Instance pair_proper : Proper (neq ==> neq ==> neq2) (@pair T T).
Proof. intros a a' Ha b b' Hb. split; assumption. Qed.

#[export] Instance fst_proper : Proper (neq2 ==> neq) (@fst T T).
Proof. intros p q [H _]. exact H. Qed.

#[export] Instance snd_proper : Proper (neq2 ==> neq) (@snd T T).
Proof. intros p q [_ H]. exact H. Qed.

Lemma nsub_eq0 (a b : T) : a - b == 0 <-> a == b.
Proof.
  split; intros H.
  - transitivity (a - b + b); [ring | rewrite H; ring].
  - rewrite H. ring.
Qed.

Lemma nsub_neq0 (a b : T) : ~ a == b -> ~ a - b == 0.
Proof. intros H E. now apply H, nsub_eq0. Qed.

Lemma nsub_neq0_sym (a b : T) : ~ a == b -> ~ b - a == 0.
Proof. intros H E. apply H. symmetry. now apply nsub_eq0. Qed.

Lemma none_neq0 : ~ (1 : T) == 0.
Proof. exact (F_1_neq_0 nfield_th). Qed.

Lemma nmul_neq0 (a b : T) : ~ a == 0 -> ~ b == 0 -> ~ a * b == 0.
Proof.
  intros Ha Hb E. apply Hb.
  transitivity (1 / a * (a * b)); [field; exact Ha | rewrite E; ring].
Qed.

Lemma ndiv_neq0 (a b : T) : ~ a == 0 -> ~ b == 0 -> ~ a / b == 0.
Proof.
  intros Ha Hb E. apply Ha.
  transitivity (a / b * b); [field; exact Hb | rewrite E; ring].
Qed.

Lemma ninv_neq0 (a : T) : ~ a == 0 -> ~ 1 / a == 0.
Proof. intros Ha. apply ndiv_neq0; [exact none_neq0 | exact Ha]. Qed.

Lemma nopp_neq0 (a : T) : ~ a == 0 -> ~ - a == 0.
Proof.
  intros Ha E. apply Ha. transitivity (- - a); [ring | rewrite E; ring].
Qed.

(** A product of non-zero factors, however it is written, is not zero. *)
Lemma neq0_of_factors (x k y : T) :
  x == k * y -> ~ k == 0 -> ~ y == 0 -> ~ x == 0.
Proof. intros E Hk Hy. rewrite E. now apply nmul_neq0. Qed.

Lemma nmul_cancel_l (a x y : T) : ~ a == 0 -> a * x == a * y -> x == y.
Proof.
  intros Ha E. transitivity (1 / a * (a * x)); [field; exact Ha |].
  rewrite E. field. exact Ha.
Qed.

Lemma nadd_cancel_r (b x y : T) : x + b == y + b -> x == y.
Proof.
  intros E. transitivity (x + b - b); [ring | rewrite E; ring].
Qed.

End FieldFacts.

#[export] Hint Resolve nsub_neq0 nsub_neq0_sym none_neq0 nmul_neq0 ndiv_neq0
  ninv_neq0 nopp_neq0 : svg.

(** [nfield]: [field], its side conditions closed from the context and the
    non-zero lemmas. *)
Ltac nfield := field; repeat split; auto with svg.

(** ** The instances satisfy the interface *)

Lemma Qfield_th : field_theory 0%Q 1%Q Qplus Qmult Qminus Qopp Qdiv (@ninv Q Qops) Qeq.
Proof.
  destruct Qsft as [HR H10 Hdiv Hinv]. constructor; auto.
  - intros p q. unfold ninv; simpl. rewrite Hdiv. unfold Qdiv.
    now rewrite Qmult_1_l.
  - intros p Hp. unfold ninv; simpl. unfold Qdiv. rewrite Qmult_1_l. auto.
Qed.

#[export] Instance Qfld : NumField Q := {| neq := Qeq; nfield_th := Qfield_th |}.

Lemma Rfield_th : field_theory 0%R 1%R Rplus Rmult Rminus Ropp Rdiv (@ninv R Rops) eq.
Proof.
  destruct Rfield as [HR H10 Hdiv Hinv]. constructor; auto.
  - intros p q. unfold ninv; simpl. unfold Rdiv. now rewrite Rmult_1_l.
  - intros p Hp. unfold ninv; simpl. unfold Rdiv. rewrite Rmult_1_l. auto.
Qed.

#[export] Instance Rfld : NumField R := {| neq := @eq R; nfield_th := Rfield_th |}.

(** On the rationals the literals are the integers. *)
Lemma nofpos_Q (p : positive) : (nofpos p == inject_Z (Zpos p))%Q.
Proof.
  induction p as [p IH | p IH |]; simpl; [| | reflexivity].
  - rewrite IH. unfold Qeq; simpl. lia.
  - rewrite IH. unfold Qeq; simpl. lia.
Qed.

Lemma nofZ_Q (z : Z) : (nofZ z == inject_Z z)%Q.
Proof.
  destruct z as [| p | p]; simpl; [reflexivity | apply nofpos_Q |].
  rewrite nofpos_Q. reflexivity.
Qed.

#[export] Instance Qdates : DateOps Q :=
  {| ofDate := inject_Z; toDate := Qtrunc |}.

#[export] Instance Qtrunc_proper : Proper (Qeq ==> eq) Qtrunc.
Proof.
  intros x y E. unfold Qtrunc. rewrite E.
  destruct (Qle_bool 0 y); [now apply Qfloor_comp | now apply Qceiling_comp].
Qed.

Lemma Qtrunc_Z (z : Z) : Qtrunc (inject_Z z) = z.
Proof.
  unfold Qtrunc. destruct (Qle_bool 0 (inject_Z z));
    [apply Qfloor_Z | apply Qceiling_Z].
Qed.

#[export] Instance Qdates_laws : DateLaws Q.
Proof. split; [exact Qtrunc_proper | exact Qtrunc_Z]. Qed.

(** Inequality of concrete rationals, by evaluation. *)
Lemma Qneq_by_eval (x y : Q) : Qeq_bool x y = false -> ~ (x == y)%num.
Proof. exact (Qeq_bool_neq x y). Qed.
