(* ===== verification/Order.v ===== *)
(** * Order: comparisons of numbers and dates

    The sources compare numbers with [<=], [<], [>] and take [Math.min]
    and [Math.max]; the libraries they call clamp a value between two
    bounds.  [NumOrder] adds to the field of [Numeric] a total order that
    the operations respect, with a boolean test for the comparisons the
    code evaluates.  The theorems on bounds (a point of the window is
    drawn inside the viewport, a zoom keeps the visible samples inside the
    chart, a constrained zoom stays within the dates of the data) are
    proved once against it; the instances for [Q] and [R] discharge it.

    [between a b x] says that [x] lies between the ends [a] and [b], in
    whichever order they come: bases and ranges are not sorted ([y] has
    the range [[height, 0]]).  An affine map carries what lies between
    two points to what lies between their images; everything else follows
    from that.

    [DateOrder] says that the passage between dates and numbers keeps the
    order: rounding toward zero is monotone.  [DateShift] says what a
    shift by whole milliseconds does: the number of a sum of dates is the
    sum of their numbers, and a number that is not negative, moved by a
    count that is not negative, rounds to its date moved by the count
    (toward zero the fraction of a negative number is dropped upward, so
    the law fails below zero). *)

From Stdlib Require Import ZArith Lia QArith Qround Qminmax Lqa Reals Lra Bool.
From S2P Require Import Prelude Numeric.

Local Open Scope num_scope.

(** ** The interface *)

Class NumOrder (T : Type) {ops : NumOps T} {fld : NumField T} := {
  nle : T -> T -> Prop;
  nleb : T -> T -> bool;
  nle_proper :: Proper (neq ==> neq ==> iff) nle;
  nleb_spec : forall a b, nleb a b = true <-> nle a b;
  nle_refl : forall a, nle a a;
  nle_trans : forall a b c, nle a b -> nle b c -> nle a c;
  nle_antisym : forall a b, nle a b -> nle b a -> a == b;
  nle_total : forall a b, nle a b \/ nle b a;
  nadd_le_mono_r : forall a b c, nle a b -> nle (a + c) (b + c);
  nmul_nonneg : forall a b, nle 0 a -> nle 0 b -> nle 0 (a * b)
}.

Infix "<=" := nle : num_scope.
Notation "a <= b <= c" := (nle a b /\ nle b c) : num_scope.

Section Definitions.
Context {T : Type} {ops : NumOps T} {fld : NumField T} {ord : NumOrder T}.

(** [a < b] as the code evaluates it on numbers. *)
Definition nltb (a b : T) : bool := negb (nleb b a).

(** [Math.min] and [Math.max] on numbers that are not NaN. *)
Definition nmin (a b : T) : T := if nleb a b then a else b.

Definition nmax (a b : T) : T := if nleb a b then b else a.

(** [x] lies between [a] and [b], whichever is the smaller. *)
Definition between (a b x : T) : Prop := (a <= x <= b) \/ (b <= x <= a).

End Definitions.

Class DateOrder (T : Type) {ops : NumOps T} {fld : NumField T}
  {ord : NumOrder T} {dates : DateOps T} : Prop := {
  ofDate_mono : forall z1 z2, (z1 <= z2)%Z -> ofDate z1 <= ofDate z2;
  toDate_mono : forall a b, a <= b -> (toDate a <= toDate b)%Z
}.

(** What a shift by whole milliseconds does to a date: [new Date(v)]
    drops the fraction of [v], toward zero, so a shift of a number that is
    not negative by a count that is not negative shifts its date. *)
Class DateShift (T : Type) {ops : NumOps T} {fld : NumField T}
  {ord : NumOrder T} {dates : DateOps T} : Prop := {
  ofDate_add : forall z1 z2, ofDate (z1 + z2) == ofDate z1 + ofDate z2;
  toDate_shift : forall v c, 0 <= v -> (0 <= c)%Z ->
                 toDate (v + ofDate c) = (toDate v + c)%Z
}.

(** [a <= b] on reals, as a boolean. *)
Definition Rleb (a b : R) : bool := if Rle_dec a b then true else false.

(** [z] lies between the dates [a] and [b]. *)
Definition betweenZ (a b z : Z) : Prop :=
  (a <= z <= b)%Z \/ (b <= z <= a)%Z.

(** ** Consequences of the laws *)

Section OrderFacts.
Context {T : Type} {ops : NumOps T} {fld : NumField T} {ord : NumOrder T}.
Add Field order_field : nfield_th (setoid neq_equiv num_ring_ext).
Implicit Types (a b c d x y k : T).

#[export] Instance nle_preorder : PreOrder nle.
Proof. split; [exact nle_refl | exact nle_trans]. Qed.

Lemma nle_of_eq a b : a == b -> a <= b.
Proof. intros E. rewrite E. reflexivity. Qed.

Lemma nadd_le_mono_l a b c : a <= b -> c + a <= c + b.
Proof.
  intros H. apply (nadd_le_mono_r _ _ c) in H.
  assert (c + a == a + c) as E1 by ring. assert (c + b == b + c) as E2 by ring.
  now rewrite E1, E2.
Qed.

Lemma nadd_le_mono a b c d : a <= b -> c <= d -> a + c <= b + d.
Proof.
  intros H1 H2. transitivity (b + c);
    [now apply nadd_le_mono_r | now apply nadd_le_mono_l].
Qed.

(** An inequality is the sign of a difference. *)
Lemma nle_sub a b : a <= b <-> 0 <= b - a.
Proof.
  split; intros H.
  - apply (nadd_le_mono_r _ _ (- a)) in H.
    assert (a + - a == 0) as E1 by ring. assert (b + - a == b - a) as E2 by ring.
    now rewrite E1, E2 in H.
  - apply (nadd_le_mono_r _ _ a) in H.
    assert (0 + a == a) as E1 by ring. assert (b - a + a == b) as E2 by ring.
    now rewrite E1, E2 in H.
Qed.

Lemma nle_sub_nonpos a b : a <= b <-> a - b <= 0.
Proof.
  split; intros H.
  - apply (nadd_le_mono_r _ _ (- b)) in H.
    assert (a + - b == a - b) as E1 by ring. assert (b + - b == 0) as E2 by ring.
    now rewrite E1, E2 in H.
  - apply (nadd_le_mono_r _ _ b) in H.
    assert (a - b + b == a) as E1 by ring. assert (0 + b == b) as E2 by ring.
    now rewrite E1, E2 in H.
Qed.

Lemma nadd_0_r a : a + 0 == a.
Proof. ring. Qed.

Lemma nsub_sub_swap a b c : a - b - c == a - c - b.
Proof. ring. Qed.

Lemma nadd_le_mono_r_sub a b c : a <= b -> a - c <= b - c.
Proof.
  intros H. apply (nadd_le_mono_r _ _ (- c)) in H.
  assert (a + - c == a - c) as E1 by ring. assert (b + - c == b - c) as E2 by ring.
  now rewrite E1, E2 in H.
Qed.

Lemma nopp_le a b : a <= b -> - b <= - a.
Proof.
  intros H. apply nle_sub. apply nle_sub in H.
  assert (- a - - b == b - a) as E by ring. now rewrite E.
Qed.

Lemma nopp_nonneg a : a <= 0 -> 0 <= - a.
Proof.
  intros H. apply nopp_le in H. assert (- (0 : T) == 0) as E by ring.
  now rewrite E in H.
Qed.

Lemma nmul_le_mono_nonneg_l a b c : 0 <= c -> a <= b -> c * a <= c * b.
Proof.
  intros Hc H. apply nle_sub. apply nle_sub in H.
  assert (c * b - c * a == c * (b - a)) as E by ring. rewrite E.
  now apply nmul_nonneg.
Qed.

Lemma nmul_le_mono_nonpos_l a b c : c <= 0 -> a <= b -> c * b <= c * a.
Proof.
  intros Hc H. apply nle_sub. apply nle_sub in H.
  assert (c * a - c * b == (- c) * (b - a)) as E by ring. rewrite E.
  apply nmul_nonneg; [now apply nopp_nonneg | exact H].
Qed.

Lemma nsquare_nonneg a : 0 <= a * a.
Proof.
  destruct (nle_total 0 a) as [H | H]; [now apply nmul_nonneg |].
  assert (a * a == (- a) * (- a)) as E by ring. rewrite E.
  apply nmul_nonneg; now apply nopp_nonneg.
Qed.

Lemma nle_0_1 : (0 : T) <= 1.
Proof.
  assert ((1 : T) == 1 * 1) as E by ring. rewrite E. apply nsquare_nonneg.
Qed.

(** The reciprocal of a positive number is not negative. *)
Lemma ninv_nonneg c : 0 <= c -> ~ c == 0 -> 0 <= 1 / c.
Proof.
  intros Hc Hn. assert (1 / c == c * ((1 / c) * (1 / c))) as E by nfield.
  rewrite E. apply nmul_nonneg; [exact Hc | apply nsquare_nonneg].
Qed.

Lemma ndiv_le_mono_nonneg a b c : 0 <= c -> ~ c == 0 -> a <= b -> a / c <= b / c.
Proof.
  intros Hc Hn H.
  assert (a / c == (1 / c) * a) as E1 by nfield.
  assert (b / c == (1 / c) * b) as E2 by nfield.
  rewrite E1, E2. apply nmul_le_mono_nonneg_l; [now apply ninv_nonneg | exact H].
Qed.

(** ** Literals and counts *)

Lemma nofpos_ge_1 (q : positive) : (1 : T) <= nofpos q.
Proof.
  assert (forall a : T, 1 <= a -> 1 <= (1 + 1) * a) as D.
  { intros a Ha. transitivity ((1 + 1) * 1).
    - assert ((1 + 1) * 1 == 1 + (1 : T)) as -> by ring.
      rewrite <- (nadd_0_r 1) at 1. apply nadd_le_mono_l. exact nle_0_1.
    - apply nmul_le_mono_nonneg_l; [| exact Ha].
      rewrite <- (nadd_0_r 0). apply nadd_le_mono; exact nle_0_1. }
  induction q as [q IH | q IH |]; simpl; [| now apply D | reflexivity].
  rewrite <- (nadd_0_r 1) at 1. apply nadd_le_mono_l.
  transitivity (1 : T); [exact nle_0_1 | now apply D].
Qed.

Lemma nge_1_neq0 k : 1 <= k -> ~ k == 0.
Proof.
  intros H E. rewrite E in H. apply none_neq0.
  apply nle_antisym; [exact H | exact nle_0_1].
Qed.

Lemma nge_1_nonneg k : 1 <= k -> 0 <= k.
Proof. intros H. transitivity (1 : T); [exact nle_0_1 | exact H]. Qed.

Lemma nofpos_succ (q : positive) : nofpos (Pos.succ q) == 1 + nofpos q.
Proof.
  induction q as [q IH | q IH |]; simpl; [rewrite IH; ring | ring | ring].
Qed.

(** The number of a count, one more at a time. *)
Lemma nofZ_of_nat_S (n : nat) :
  nofZ (Z.of_nat (S n)) == 1 + nofZ (Z.of_nat n).
Proof.
  destruct n as [| n]; [simpl; ring |].
  change (nofpos (Pos.succ (Pos.of_succ_nat n)) == 1 + nofpos (Pos.of_succ_nat n)).
  apply nofpos_succ.
Qed.

Lemma nofZ_of_nat_nonneg (n : nat) : 0 <= nofZ (Z.of_nat n).
Proof.
  destruct n as [| n]; [reflexivity |].
  apply nge_1_nonneg. apply (nofpos_ge_1 (Pos.of_succ_nat n)).
Qed.

Lemma nofZ_of_nat_mono (i n : nat) :
  (i <= n)%nat -> nofZ (Z.of_nat i) <= nofZ (Z.of_nat n).
Proof.
  induction 1 as [| n Hle IH]; [reflexivity |].
  rewrite nofZ_of_nat_S. transitivity (nofZ (Z.of_nat n)); [exact IH |].
  rewrite <- (nadd_0_r (nofZ (Z.of_nat n))) at 1.
  assert (1 + nofZ (Z.of_nat n) == nofZ (Z.of_nat n) + 1) as -> by ring.
  apply nadd_le_mono_l. exact nle_0_1.
Qed.

Lemma nofZ_of_nat_neq0 (n : nat) : n <> 0%nat -> ~ nofZ (Z.of_nat n) == 0.
Proof.
  destruct n as [| n]; [congruence |]. intros _.
  apply nge_1_neq0. apply (nofpos_ge_1 (Pos.of_succ_nat n)).
Qed.

(** ** The boolean tests *)

Lemma nleb_false a b : nleb a b = false -> b <= a.
Proof.
  intros H. destruct (nle_total a b) as [L | L]; [| exact L].
  apply nleb_spec in L. congruence.
Qed.

Lemma nltb_spec a b : nltb a b = true <-> ~ b <= a.
Proof.
  unfold nltb. rewrite negb_true_iff, <- not_true_iff_false, nleb_spec.
  reflexivity.
Qed.

Lemma nltb_le a b : nltb a b = true -> a <= b.
Proof.
  unfold nltb. rewrite negb_true_iff. apply nleb_false.
Qed.

Lemma nltb_false a b : nltb a b = false -> b <= a.
Proof.
  unfold nltb. rewrite negb_false_iff. apply nleb_spec.
Qed.

Lemma nmin_le_l a b : nmin a b <= a.
Proof.
  unfold nmin. destruct (nleb a b) eqn:E; [reflexivity | now apply nleb_false].
Qed.

Lemma nmin_le_r a b : nmin a b <= b.
Proof.
  unfold nmin. destruct (nleb a b) eqn:E; [now apply nleb_spec | reflexivity].
Qed.

Lemma nmax_le_l a b : a <= nmax a b.
Proof.
  unfold nmax. destruct (nleb a b) eqn:E; [now apply nleb_spec | reflexivity].
Qed.

Lemma nmax_le_r a b : b <= nmax a b.
Proof.
  unfold nmax. destruct (nleb a b) eqn:E; [reflexivity | now apply nleb_false].
Qed.

Lemma nmin_glb a b c : c <= a -> c <= b -> c <= nmin a b.
Proof. intros Ha Hb. unfold nmin. now destruct (nleb a b). Qed.

Lemma nmax_lub a b c : a <= c -> b <= c -> nmax a b <= c.
Proof. intros Ha Hb. unfold nmax. now destruct (nleb a b). Qed.

(** ** Betweenness *)

#[export] Instance between_proper :
  Proper (neq ==> neq ==> neq ==> iff) between.
Proof.
  intros a a' Ha b b' Hb x x' Hx. unfold between. now rewrite Ha, Hb, Hx.
Qed.

Lemma between_sym a b x : between a b x -> between b a x.
Proof. unfold between. tauto. Qed.

Lemma between_l a b : between a b a.
Proof.
  unfold between. destruct (nle_total a b); [left | right];
    split; auto using nle_refl.
Qed.

Lemma between_r a b : between a b b.
Proof. apply between_sym, between_l. Qed.

Lemma between_sorted a b x : a <= x -> x <= b -> between a b x.
Proof. left. now split. Qed.

(** What lies between two points that lie between [a] and [b] lies
    between [a] and [b]. *)
Lemma between_trans a b p q x :
  between a b p -> between a b q -> between p q x -> between a b x.
Proof.
  unfold between.
  intros [[? ?] | [? ?]] [[? ?] | [? ?]] [[? ?] | [? ?]];
    solve [left; split; eauto 5 using nle_trans
          | right; split; eauto 5 using nle_trans].
Qed.

(** An affine map keeps betweenness, whatever the sign of its scale. *)
Lemma between_affine k c a b x :
  between a b x -> between (k * a + c) (k * b + c) (k * x + c).
Proof.
  unfold between. intros H.
  destruct (nle_total 0 k) as [Hk | Hk]; destruct H as [[H1 H2] | [H1 H2]].
  - left. split; apply nadd_le_mono_r; now apply nmul_le_mono_nonneg_l.
  - right. split; apply nadd_le_mono_r; now apply nmul_le_mono_nonneg_l.
  - right. split; apply nadd_le_mono_r; now apply nmul_le_mono_nonpos_l.
  - left. split; apply nadd_le_mono_r; now apply nmul_le_mono_nonpos_l.
Qed.

(** What lies between two numbers that are not negative is not negative. *)
Lemma between_nonneg a b x : 0 <= a -> 0 <= b -> between a b x -> 0 <= x.
Proof. intros Ha Hb [[H _] | [H _]]; eauto using nle_trans. Qed.

End OrderFacts.

#[export] Hint Resolve nle_refl nle_0_1 between_l between_r nmin_le_l
  nmin_le_r nmax_le_l nmax_le_r : svg.

(** ** Dates *)

Section DateFacts.
Context {T : Type} {ops : NumOps T} {fld : NumField T} {ord : NumOrder T}.
Context {dates : DateOps T} {dlaws : DateLaws T} {dord : DateOrder T}.

(** A number between two dates rounds to a date between them. *)
Lemma toDate_between (d0 d1 : Z) (v : T) :
  between (ofDate d0) (ofDate d1) v -> betweenZ d0 d1 (toDate v).
Proof.
  intros [[H1 H2] | [H1 H2]]; [left | right];
    apply toDate_mono in H1, H2; rewrite toDate_ofDate in H1, H2; lia.
Qed.

Context {dshift : DateShift T}.
Add Field order_date_field : nfield_th (setoid neq_equiv num_ring_ext).

Lemma ofDate_0 : ofDate 0 == 0.
Proof.
  pose proof (ofDate_add 0 0) as H. simpl in H.
  assert (ofDate 0 == ofDate 0 + ofDate 0 - ofDate 0) as E by ring.
  rewrite <- H in E. rewrite E. ring.
Qed.

(** The number of a date that is not negative is not negative. *)
Lemma ofDate_nonneg (z : Z) : (0 <= z)%Z -> 0 <= ofDate z.
Proof. intros H. rewrite <- ofDate_0. now apply ofDate_mono. Qed.

End DateFacts.

(** ** The instances satisfy the interface *)

Lemma Qle_total_or (a b : Q) : (a <= b)%Q \/ (b <= a)%Q.
Proof.
  destruct (Qlt_le_dec a b) as [H | H];
    [left; now apply Qlt_le_weak | now right].
Qed.

Lemma Qplus_le_mono_r (a b c : Q) : (a <= b)%Q -> (a + c <= b + c)%Q.
Proof. apply Qplus_le_l. Qed.

#[export] Instance Qord : NumOrder Q :=
  {| nle := Qle; nleb := Qle_bool; nle_proper := Qle_comp;
     nleb_spec := Qle_bool_iff; nle_refl := Qle_refl; nle_trans := Qle_trans;
     nle_antisym := Qle_antisym; nle_total := Qle_total_or;
     nadd_le_mono_r := Qplus_le_mono_r; nmul_nonneg := Qmult_le_0_compat |}.

Lemma Rleb_spec (a b : R) : Rleb a b = true <-> (a <= b)%R.
Proof. unfold Rleb. destruct (Rle_dec a b); split; auto; discriminate. Qed.

Lemma Rle_total_or (a b : R) : (a <= b)%R \/ (b <= a)%R.
Proof. lra. Qed.

Lemma Rplus_le_mono_r (a b c : R) : (a <= b)%R -> (a + c <= b + c)%R.
Proof. lra. Qed.

#[export] Instance Rle_proper : Proper (@eq R ==> @eq R ==> iff) Rle.
Proof. intros a a' Ha b b' Hb. now subst. Qed.

#[export] Instance Rord : NumOrder R :=
  {| nle := Rle; nleb := Rleb; nle_proper := Rle_proper;
     nleb_spec := Rleb_spec; nle_refl := Rle_refl; nle_trans := Rle_trans;
     nle_antisym := Rle_antisym; nle_total := Rle_total_or;
     nadd_le_mono_r := Rplus_le_mono_r; nmul_nonneg := Rmult_le_pos |}.

#[export] Instance Qle_preorder : PreOrder Qle.
Proof. split; [exact Qle_refl | exact Qle_trans]. Qed.

(** Rounding toward zero is monotone. *)
Lemma Qtrunc_mono (a b : Q) : (a <= b)%Q -> (Qtrunc a <= Qtrunc b)%Z.
Proof.
  intros H. unfold Qtrunc.
  destruct (Qle_bool 0 a) eqn:Ea, (Qle_bool 0 b) eqn:Eb.
  - now apply Qfloor_resp_le.
  - apply Qle_bool_iff in Ea. apply not_true_iff_false in Eb.
    exfalso. apply Eb, Qle_bool_iff. now apply Qle_trans with a.
  - apply Qle_bool_iff in Eb. apply not_true_iff_false in Ea.
    rewrite Qle_bool_iff in Ea. apply Qnot_le_lt in Ea.
    transitivity 0%Z.
    + replace 0%Z with (Qceiling 0) by reflexivity.
      apply Qceiling_resp_le. now apply Qlt_le_weak.
    + replace 0%Z with (Qfloor 0) by reflexivity. now apply Qfloor_resp_le.
  - now apply Qceiling_resp_le.
Qed.

Lemma Qfloor_shift (v : Q) (c : Z) : Qfloor (v + inject_Z c) = (Qfloor v + c)%Z.
Proof.
  destruct v as [a b]. unfold Qfloor, Qplus, inject_Z. simpl.
  rewrite Z.mul_1_r, Pos.mul_1_r. now rewrite Z.div_add by lia.
Qed.

Lemma Qtrunc_shift (v : Q) (c : Z) :
  (0 <= v)%Q -> (0 <= c)%Z -> Qtrunc (v + inject_Z c) = (Qtrunc v + c)%Z.
Proof.
  intros Hv Hc. unfold Qtrunc.
  assert (0 <= v + inject_Z c)%Q as Hs.
  { rewrite <- (Qplus_0_r 0). apply Qplus_le_compat; [exact Hv |].
    change 0%Q with (inject_Z 0). now rewrite <- Zle_Qle. }
  apply Qle_bool_iff in Hv, Hs. rewrite Hv, Hs. apply Qfloor_shift.
Qed.

#[export] Instance Qdates_order : DateOrder Q.
Proof.
  split.
  - intros z1 z2 H. simpl. now rewrite <- Zle_Qle.
  - exact Qtrunc_mono.
Qed.

#[export] Instance Qdates_shift : DateShift Q.
Proof.
  split; [| exact Qtrunc_shift].
  intros z1 z2. simpl. now rewrite inject_Z_plus.
Qed.
