(* ===== verification/JsMath.v ===== *)
(** * JsMath: the built-ins of JavaScript the sources call on numbers

    [isNaN], [Math.min] and [Math.max] on binary64 floats ([PrimFloat]), as
    ECMAScript defines them: [Math.min] and [Math.max] return NaN when an
    argument is NaN, and order the zeros ([-0] below [+0]).  They are
    library functions, modelled from their specification.

    The lemmas are the order facts their callers need, proved from the
    specification of the primitive comparisons ([FloatAxioms]): on floats
    that are numbers the comparison is reflexive, antisymmetric and total,
    nothing is above [infinity] or below [neg_infinity], and the minimum
    of two numbers is one of them and is not above their maximum. *)

From Stdlib Require Import ZArith Floats Bool.
From S2P Require Import Prelude.

Local Open Scope float_scope.

(** [isNaN(x)] on a number. *)
Definition isNaN (x : float) : bool := is_nan x.

(** [Math.min(x, y)]. *)
Definition Math_min (x y : float) : float :=
  if is_nan x || is_nan y then nan
  else if x <? y then x
  else if y <? x then y
  else match classify x with NZero => x | _ => y end.

(** [Math.max(x, y)]. *)
Definition Math_max (x y : float) : float :=
  if is_nan x || is_nan y then nan
  else if x <? y then y
  else if y <? x then x
  else match classify x with PZero => x | _ => y end.

(** NaN on the specification side. *)
Definition sf_is_nan (f : spec_float) : bool :=
  match f with S754_nan => true | _ => false end.

(** ** The comparison of the specification *)

Lemma SFcompare_refl f : sf_is_nan f = false -> SFcompare f f = Some Eq.
Proof.
  destruct f as [s | [|] | | [|] m e]; simpl; try discriminate; try reflexivity;
    intros _; rewrite Z.compare_refl, Pos.compare_cont_refl; reflexivity.
Qed.

Lemma compare_cont_antisym_Eq m m' :
  Pos.compare_cont Eq m' m = CompOpp (Pos.compare_cont Eq m m').
Proof. now rewrite Pos.compare_cont_antisym. Qed.

Lemma SFcompare_antisym f g :
  SFcompare g f = option_map CompOpp (SFcompare f g).
Proof.
  destruct f as [s | [|] | | [|] m e], g as [s' | [|] | | [|] m' e']; simpl;
    try reflexivity; try (destruct s; reflexivity); try (destruct s'; reflexivity);
    rewrite (Z.compare_antisym e e'), (compare_cont_antisym_Eq m m');
    destruct (e ?= e')%Z; simpl; try reflexivity;
    now rewrite ?CompOpp_involutive.
Qed.

Lemma SFcompare_some f g :
  sf_is_nan f = false -> sf_is_nan g = false -> exists c, SFcompare f g = Some c.
Proof.
  destruct f as [s | [|] | | [|] m e], g as [s' | [|] | | [|] m' e']; simpl;
    try discriminate; eauto.
Qed.

(** ** The primitive comparisons *)

Lemma is_nan_spec x : is_nan x = sf_is_nan (Prim2SF x).
Proof.
  unfold is_nan. rewrite FloatAxioms.eqb_spec. unfold SFeqb.
  destruct (sf_is_nan (Prim2SF x)) eqn:E.
  - destruct (Prim2SF x); try discriminate. reflexivity.
  - now rewrite SFcompare_refl.
Qed.

Lemma ltb_leb x y : (x <? y) = true -> (x <=? y) = true.
Proof.
  rewrite ltb_spec, leb_spec. unfold SFltb, SFleb.
  destruct (SFcompare _ _) as [[| |] |]; congruence.
Qed.

Lemma not_ltb_leb x y :
  is_nan x = false -> is_nan y = false ->
  (x <? y) = false -> (y <? x) = false ->
  (x <=? y) = true /\ (y <=? x) = true.
Proof.
  rewrite !is_nan_spec, !ltb_spec, !leb_spec. unfold SFltb, SFleb.
  intros Hx Hy. rewrite (SFcompare_antisym (Prim2SF x) (Prim2SF y)).
  destruct (SFcompare_some _ _ Hx Hy) as [[| |] ->]; simpl; auto; discriminate.
Qed.

Lemma leb_refl x : is_nan x = false -> (x <=? x) = true.
Proof.
  rewrite is_nan_spec, leb_spec. unfold SFleb. intros H.
  now rewrite SFcompare_refl.
Qed.

Lemma ltb_infinity_l y : (infinity <? y) = false.
Proof.
  rewrite ltb_spec. change (Prim2SF infinity) with (S754_infinity false).
  destruct (Prim2SF y) as [s | [|] | | s m e]; reflexivity.
Qed.

Lemma ltb_neg_infinity_r y : (y <? neg_infinity) = false.
Proof.
  rewrite ltb_spec. change (Prim2SF neg_infinity) with (S754_infinity true).
  destruct (Prim2SF y) as [s | [|] | | [|] m e]; reflexivity.
Qed.

Lemma ltb_neg_infinity_l y :
  is_nan y = false -> (neg_infinity <? y) = false -> y = neg_infinity.
Proof.
  rewrite is_nan_spec, ltb_spec. intros Hn H.
  rewrite <- (SF2Prim_Prim2SF y). revert Hn H.
  change (Prim2SF neg_infinity) with (S754_infinity true).
  destruct (Prim2SF y) as [s | [|] | | s m e]; simpl; try discriminate;
    reflexivity.
Qed.

Lemma ltb_infinity_r y :
  is_nan y = false -> (y <? infinity) = false -> y = infinity.
Proof.
  rewrite is_nan_spec, ltb_spec. intros Hn H.
  rewrite <- (SF2Prim_Prim2SF y). revert Hn H.
  change (Prim2SF infinity) with (S754_infinity false).
  destruct (Prim2SF y) as [s | [|] | | [|] m e]; simpl; try discriminate;
    reflexivity.
Qed.

(** ** Minimum and maximum *)

(** A NaN argument gives NaN. *)
Lemma Math_min_nan x y :
  is_nan x || is_nan y = true -> Math_min x y = nan.
Proof. intros H. unfold Math_min. now rewrite H. Qed.

Lemma Math_max_nan x y :
  is_nan x || is_nan y = true -> Math_max x y = nan.
Proof. intros H. unfold Math_max. now rewrite H. Qed.

(** On numbers the result is one of the arguments. *)
Lemma Math_min_choice x y :
  is_nan x = false -> is_nan y = false ->
  Math_min x y = x \/ Math_min x y = y.
Proof.
  intros Hx Hy. unfold Math_min. rewrite Hx, Hy. simpl.
  destruct (x <? y), (y <? x), (classify x); auto.
Qed.

Lemma Math_max_choice x y :
  is_nan x = false -> is_nan y = false ->
  Math_max x y = x \/ Math_max x y = y.
Proof.
  intros Hx Hy. unfold Math_max. rewrite Hx, Hy. simpl.
  destruct (x <? y), (y <? x), (classify x); auto.
Qed.

Lemma Math_min_not_nan x y :
  is_nan x = false -> is_nan y = false -> is_nan (Math_min x y) = false.
Proof.
  intros Hx Hy. destruct (Math_min_choice x y Hx Hy) as [-> | ->]; assumption.
Qed.

Lemma Math_max_not_nan x y :
  is_nan x = false -> is_nan y = false -> is_nan (Math_max x y) = false.
Proof.
  intros Hx Hy. destruct (Math_max_choice x y Hx Hy) as [-> | ->]; assumption.
Qed.

(** The minimum of two numbers is not above their maximum. *)
Lemma Math_min_le_max x y :
  is_nan x = false -> is_nan y = false ->
  (Math_min x y <=? Math_max x y) = true.
Proof.
  intros Hx Hy. unfold Math_min, Math_max. rewrite Hx, Hy. simpl.
  destruct (x <? y) eqn:Exy; [now apply ltb_leb |].
  destruct (y <? x) eqn:Eyx; [now apply ltb_leb |].
  destruct (not_ltb_leb x y Hx Hy Exy Eyx) as [H1 H2].
  destruct (classify x); auto using leb_refl.
Qed.

(** [infinity] is neutral for the minimum and [neg_infinity] for the
    maximum, on numbers. *)
Lemma Math_min_infinity_l y : is_nan y = false -> Math_min infinity y = y.
Proof.
  intros Hy. unfold Math_min. rewrite Hy, ltb_infinity_l. simpl.
  destruct (y <? infinity); reflexivity.
Qed.

Lemma Math_min_infinity_r x : is_nan x = false -> Math_min x infinity = x.
Proof.
  intros Hx. unfold Math_min. rewrite Hx, ltb_infinity_l. simpl.
  destruct (x <? infinity) eqn:E; [reflexivity |].
  rewrite (ltb_infinity_r x Hx E). reflexivity.
Qed.

Lemma Math_max_neg_infinity_l y :
  is_nan y = false -> Math_max neg_infinity y = y.
Proof.
  intros Hy. unfold Math_max. rewrite Hy, ltb_neg_infinity_r. simpl.
  destruct (neg_infinity <? y); reflexivity.
Qed.

Lemma Math_max_neg_infinity_r x :
  is_nan x = false -> Math_max x neg_infinity = x.
Proof.
  intros Hx. unfold Math_max. rewrite Hx, ltb_neg_infinity_r. simpl.
  destruct (neg_infinity <? x) eqn:E; [reflexivity |].
  rewrite (ltb_neg_infinity_l x Hx E). reflexivity.
Qed.

#[export] Hint Resolve Math_min_not_nan Math_max_not_nan leb_refl : svg.
