(* ===== verification/SVGMatrix.v ===== *)
(** * SVGMatrix: the rendering layer's 2D affine matrix

    [AR1.applyToMatrixX] and [AR1.applyToMatrixY] append a translation and a
    scale to an [SVGMatrix] owned by the DOM.  The matrix is not code of the
    repository; it is modelled from the interface the adapter calls: the six
    coefficients

    <<
      [ a c e ]
      [ b d f ]
      [ 0 0 1 ]
    >>

    with [translate] and [scaleNonUniform] post-multiplying, as the SVG
    specification defines them and as section 4.1 of the spec requires. *)

From S2P Require Import Prelude Numeric.

Local Open Scope num_scope.

Section Matrix.
Context {T : Type} {ops : NumOps T}.

Record SVGMatrix := mkMatrix {
  ma : T; mb : T; mc : T; md : T; me : T; mf : T
}.

(** [this.multiply(n)]: the product [this * n]. *)
Definition multiply (this n : SVGMatrix) : SVGMatrix :=
  mkMatrix (ma this * ma n + mc this * mb n)
           (mb this * ma n + md this * mb n)
           (ma this * mc n + mc this * md n)
           (mb this * mc n + md this * md n)
           (ma this * me n + mc this * mf n + me this)
           (mb this * me n + md this * mf n + mf this).

Definition identityMatrix : SVGMatrix := mkMatrix 1 0 0 1 0 0.

(** [this.translate(x, y)]: post-multiplication by a translation. *)
Definition translate (this : SVGMatrix) (x y : T) : SVGMatrix :=
  multiply this (mkMatrix 1 0 0 1 x y).

(** [this.scaleNonUniform(sx, sy)]: post-multiplication by a scale. *)
Definition scaleNonUniform (this : SVGMatrix) (sx sy : T) : SVGMatrix :=
  multiply this (mkMatrix sx 0 0 sy 0 0).

(** [point.matrixTransform(this)]: the image of a point. *)
Definition matrixTransform (this : SVGMatrix) (p : T * T) : T * T :=
  (ma this * fst p + mc this * snd p + me this,
   mb this * fst p + md this * snd p + mf this).

Context {fld : NumField T}.

Definition matrix_eq (m n : SVGMatrix) : Prop :=
  ma m == ma n /\ mb m == mb n /\ mc m == mc n /\
  md m == md n /\ me m == me n /\ mf m == mf n.

End Matrix.

Arguments SVGMatrix T : clear implicits.

(** [matrix_crush]: open matrices and points, then prove each coefficient
    equation by [ring]. *)
Ltac matrix_crush :=
  repeat match goal with
    | m : SVGMatrix _ |- _ => destruct m
    | p : (_ * _)%type |- _ => destruct p
    end;
  unfold matrix_eq, neq2, translate, scaleNonUniform, multiply,
    matrixTransform, identityMatrix in *;
  simpl in *.

Section MatrixFacts.
Context {T : Type} {ops : NumOps T} {fld : NumField T}.
Add Field matrix_field : nfield_th (setoid neq_equiv num_ring_ext).
Implicit Types (m n k : SVGMatrix T) (p q : T * T).

#[export] Instance matrix_eq_equiv : Equivalence (@matrix_eq T ops fld).
Proof.
  split.
  - intros m. matrix_crush. repeat split; reflexivity.
  - intros m n H. matrix_crush. intuition (symmetry; assumption).
  - intros m n k H H'. matrix_crush. intuition (etransitivity; eassumption).
Qed.

#[export] Instance matrixTransform_proper :
  Proper (matrix_eq ==> neq2 ==> neq2) (@matrixTransform T ops).
Proof.
  intros m n H p q [Hp Hq]. matrix_crush.
  destruct H as (Ha & Hb & Hc & Hd & He & Hf).
  split; rewrite ?Ha, ?Hb, ?Hc, ?Hd, ?He, ?Hf, Hp, Hq; reflexivity.
Qed.

#[export] Instance multiply_proper :
  Proper (matrix_eq ==> matrix_eq ==> matrix_eq) (@multiply T ops).
Proof.
  intros m m' H n n' H'. matrix_crush.
  destruct H as (Ha & Hb & Hc & Hd & He & Hf).
  destruct H' as (Ha' & Hb' & Hc' & Hd' & He' & Hf').
  rewrite Ha, Hb, Hc, Hd, He, Hf, Ha', Hb', Hc', Hd', He', Hf'.
  repeat split; reflexivity.
Qed.

(** The product acts as the composition: the right factor first. *)
Lemma matrixTransform_multiply m n p :
  neq2 (matrixTransform (multiply m n) p)
       (matrixTransform m (matrixTransform n p)).
Proof. matrix_crush. split; ring. Qed.

Lemma matrixTransform_identity p : neq2 (matrixTransform identityMatrix p) p.
Proof. matrix_crush. split; ring. Qed.

Lemma multiply_assoc m n k :
  matrix_eq (multiply (multiply m n) k) (multiply m (multiply n k)).
Proof. matrix_crush. repeat split; ring. Qed.

Lemma multiply_identity_l m : matrix_eq (multiply identityMatrix m) m.
Proof. matrix_crush. repeat split; ring. Qed.

Lemma multiply_identity_r m : matrix_eq (multiply m identityMatrix) m.
Proof. matrix_crush. repeat split; ring. Qed.

(** A translation appended to [m] moves the point before [m] acts. *)
Lemma matrixTransform_translate m x y p :
  neq2 (matrixTransform (translate m x y) p)
       (matrixTransform m (fst p + x, snd p + y)).
Proof. matrix_crush. split; ring. Qed.

(** A scale appended to [m] scales the point before [m] acts. *)
Lemma matrixTransform_scaleNonUniform m sx sy p :
  neq2 (matrixTransform (scaleNonUniform m sx sy) p)
       (matrixTransform m (sx * fst p, sy * snd p)).
Proof. matrix_crush. split; ring. Qed.

End MatrixFacts.
