(* ===== verification/Affine.v ===== *)
(** * Affine: the automorphisms of the number line

    Class [AR1] of [src/viewZoomTransform.ts]: the map [x' = x * m[0] + m[1]]
    kept as the tuple [m], with [composeWith], [inverse], [applyToPoint] and
    the two adapters that append the map to an [SVGMatrix] along one axis.

    The definitions are written against [NumOps], in the order the code
    evaluates.  The theorems are proved over any [NumField]: the order law of
    composition (this first, then the argument), the monoid and inverse laws
    up to [AR1_eq], preservation of the invariant "the scale is not zero",
    and what the adapters do to the points a matrix is applied to.  Over an
    ordered field ([NumOrder]): [applyToPoint] keeps betweenness, and is
    monotone when the scale is not negative. *)

From Stdlib Require Import QArith Floats.
From S2P Require Import Prelude Numeric Order SVGMatrix.

Local Open Scope num_scope.

Section AR1.
Context {T : Type} {ops : NumOps T}.

(** The coefficients [m = [a, b]] of [x' = a * x + b]. *)
Record AR1 := mkAR1 { m : T * T }.

Definition composeWith (this a2 : AR1) : AR1 :=
  let '(a0, b0) := m this in
  let '(a1, b1) := m a2 in
  mkAR1 (a0 * a1, b0 * a1 + b1).

Definition inverse (this : AR1) : AR1 :=
  let '(a, b) := m this in
  mkAR1 (1 / a, - b / a).

Definition applyToPoint (this : AR1) (p : T) : T :=
  let '(a, b) := m this in
  a * p + b.

Definition applyToMatrixX (this : AR1) (sm : SVGMatrix T) : SVGMatrix T :=
  let '(a, b) := m this in
  scaleNonUniform (translate sm b 0) a 1.

Definition applyToMatrixY (this : AR1) (sm : SVGMatrix T) : SVGMatrix T :=
  let '(a, b) := m this in
  scaleNonUniform (translate sm 0 b) 1 a.

(** The identity transform [(1, 0)] of the specification. *)
Definition identityAR1 : AR1 := mkAR1 (1, 0).

(** The matrix that acts as the transform on one axis and as the identity
    on the other: what the adapters are meant to append. *)
Definition matrixOfX (t : AR1) : SVGMatrix T :=
  mkMatrix (fst (m t)) 0 0 1 (snd (m t)) 0.

Definition matrixOfY (t : AR1) : SVGMatrix T :=
  mkMatrix 1 0 0 (fst (m t)) 0 (snd (m t)).

Context {fld : NumField T}.

(** Two transforms with equal coefficients are the same transform. *)
Definition AR1_eq (t1 t2 : AR1) : Prop := neq2 (m t1) (m t2).

(** The invariant of the specification: the scale is not zero. *)
Definition invertible (t : AR1) : Prop := ~ fst (m t) == 0.

End AR1.

Arguments AR1 T : clear implicits.
Infix "=~" := AR1_eq (at level 70, no associativity) : num_scope.

(** [ar1_crush]: open every transform and unfold the operations, leaving
    equations between coefficients. *)
Ltac ar1_crush :=
  repeat match goal with
    | t : AR1 _ |- _ => destruct t as [[? ?]]
    end;
  unfold AR1_eq, neq2, invertible, composeWith, inverse, applyToPoint,
    applyToMatrixX, applyToMatrixY, identityAR1, matrixOfX, matrixOfY in *;
  simpl in *.

Section AR1Facts.
Context {T : Type} {ops : NumOps T} {fld : NumField T}.
Add Field ar1_field : nfield_th (setoid neq_equiv num_ring_ext).
Implicit Types (t : AR1 T) (x y : T) (sm : SVGMatrix T).

(** ** [AR1_eq] is a congruence *)

#[export] Instance AR1_eq_equiv : Equivalence (@AR1_eq T ops fld).
Proof.
  split.
  - intros t. unfold AR1_eq. reflexivity.
  - intros t1 t2 H. unfold AR1_eq in *. now symmetry.
  - intros t1 t2 t3 H H'. unfold AR1_eq in *. now transitivity (m t2).
Qed.

#[export] Instance composeWith_proper :
  Proper (AR1_eq ==> AR1_eq ==> AR1_eq) (@composeWith T ops).
Proof.
  intros t1 t1' [Ha Hb] t2 t2' [Ha' Hb']. ar1_crush.
  split; rewrite ?Ha, ?Hb, ?Ha', ?Hb'; reflexivity.
Qed.

#[export] Instance inverse_proper : Proper (AR1_eq ==> AR1_eq) (@inverse T ops).
Proof.
  intros t t' [Ha Hb]. ar1_crush. split; rewrite ?Ha, ?Hb; reflexivity.
Qed.

#[export] Instance applyToPoint_proper :
  Proper (AR1_eq ==> neq ==> neq) (@applyToPoint T ops).
Proof.
  intros t t' [Ha Hb] x x' Hx. ar1_crush. rewrite Ha, Hb, Hx. reflexivity.
Qed.

#[export] Instance invertible_proper : Proper (AR1_eq ==> iff) (@invertible T ops fld).
Proof. intros t t' [Ha Hb]. unfold invertible. now rewrite Ha. Qed.

(** ** Composition *)

(** C1: [t1.composeWith(t2)] applies [t1] first and [t2] second: its value
    at [x] is [t2.applyToPoint(t1.applyToPoint(x))]. *)
Theorem applyToPoint_composeWith t1 t2 x :
  applyToPoint (composeWith t1 t2) x == applyToPoint t2 (applyToPoint t1 x).
Proof. ar1_crush. ring. Qed.

(** Composition is associative. *)
Theorem composeWith_assoc t1 t2 t3 :
  composeWith (composeWith t1 t2) t3 =~ composeWith t1 (composeWith t2 t3).
Proof. ar1_crush. split; ring. Qed.

(** The identity transform is neutral on both sides. *)
Theorem composeWith_identity t :
  composeWith identityAR1 t =~ t /\ composeWith t identityAR1 =~ t.
Proof. ar1_crush. repeat split; ring. Qed.

Lemma applyToPoint_identity x : applyToPoint identityAR1 x == x.
Proof. ar1_crush. ring. Qed.

(** A transform is determined by its action on points: equal coefficients
    exactly when equal values everywhere. *)
Theorem AR1_eq_ext t1 t2 :
  t1 =~ t2 <-> forall x, applyToPoint t1 x == applyToPoint t2 x.
Proof.
  split; [intros H x; now rewrite H |].
  intros H. destruct t1 as [[a1 b1]], t2 as [[a2 b2]].
  pose proof (H 0) as H0. pose proof (H 1) as H1. ar1_crush.
  assert (b1 == b2) as Hb.
  { transitivity (a1 * 0 + b1); [ring | rewrite H0; ring]. }
  split; [| exact Hb].
  apply nadd_cancel_r with (b := b1).
  transitivity (a1 * 1 + b1); [ring |]. rewrite H1, Hb. ring.
Qed.

(** ** Inversion *)

(** C3: The inverse undoes the transform on either side. *)
Theorem composeWith_inverse t :
  invertible t ->
  composeWith t (inverse t) =~ identityAR1 /\
  composeWith (inverse t) t =~ identityAR1.
Proof. intros H. ar1_crush. repeat split; nfield. Qed.

(** Round trip through a transform and its inverse. *)
Theorem applyToPoint_inverse t x :
  invertible t ->
  applyToPoint (inverse t) (applyToPoint t x) == x /\
  applyToPoint t (applyToPoint (inverse t) x) == x.
Proof. intros H. ar1_crush. split; nfield. Qed.

Lemma invertible_composeWith t1 t2 :
  invertible t1 -> invertible t2 -> invertible (composeWith t1 t2).
Proof. intros H1 H2. ar1_crush. auto with svg. Qed.

Lemma invertible_inverse t : invertible t -> invertible (inverse t).
Proof. intros H. ar1_crush. auto with svg. Qed.

(** The invariant of the specification, a scale that is not zero, is
    preserved by composition and by inversion. *)
Theorem invertible_preserved t1 t2 :
  invertible t1 -> invertible t2 ->
  invertible (composeWith t1 t2) /\ invertible (inverse t1).
Proof.
  intros H1 H2. split; [now apply invertible_composeWith |].
  now apply invertible_inverse.
Qed.

Lemma invertible_identity : invertible (@identityAR1 T ops).
Proof. ar1_crush. auto with svg. Qed.

(** Inverting twice gives the transform back. *)
Theorem inverse_involutive t : invertible t -> inverse (inverse t) =~ t.
Proof. intros H. ar1_crush. split; nfield. Qed.

(** The inverse of a composition composes the inverses in reverse order. *)
Theorem inverse_composeWith t1 t2 :
  invertible t1 -> invertible t2 ->
  inverse (composeWith t1 t2) =~ composeWith (inverse t2) (inverse t1).
Proof. intros H1 H2. ar1_crush. split; nfield. Qed.

(** An invertible transform is injective. *)
Theorem applyToPoint_injective t x y :
  invertible t -> applyToPoint t x == applyToPoint t y -> x == y.
Proof.
  intros H E. ar1_crush. eapply nmul_cancel_l; [exact H |].
  eapply nadd_cancel_r; exact E.
Qed.

(** ** The matrix adapters *)

(** Appending the transform along X makes the matrix act on
    [(a * x + b, y)]: the point is moved by the transform before the matrix
    applies. *)
Lemma applyToMatrixX_spec t sm x y :
  neq2 (matrixTransform (applyToMatrixX t sm) (x, y))
       (matrixTransform sm (applyToPoint t x, y)).
Proof. ar1_crush. matrix_crush. split; ring. Qed.

Lemma applyToMatrixY_spec t sm x y :
  neq2 (matrixTransform (applyToMatrixY t sm) (x, y))
       (matrixTransform sm (x, applyToPoint t y)).
Proof. ar1_crush. matrix_crush. split; ring. Qed.

(** C10: Appending a transform along X and another along Y makes the matrix
    act on the point moved by both: [(tx(x), ty(y))]. *)
Theorem applyToMatrix_XY_spec (tx ty : AR1 T) sm x y :
  neq2 (matrixTransform (applyToMatrixY ty (applyToMatrixX tx sm)) (x, y))
       (matrixTransform sm (applyToPoint tx x, applyToPoint ty y)).
Proof. now rewrite applyToMatrixY_spec, applyToMatrixX_spec. Qed.

(** The adapters post-multiply by the matrix of the transform. *)
Lemma applyToMatrixX_multiply t sm :
  matrix_eq (applyToMatrixX t sm) (multiply sm (matrixOfX t)).
Proof. ar1_crush. matrix_crush. repeat split; ring. Qed.

Lemma applyToMatrixY_multiply t sm :
  matrix_eq (applyToMatrixY t sm) (multiply sm (matrixOfY t)).
Proof. ar1_crush. matrix_crush. repeat split; ring. Qed.

Lemma matrixOfX_composeWith t1 t2 :
  matrix_eq (multiply (matrixOfX t1) (matrixOfX t2))
            (matrixOfX (composeWith t2 t1)).
Proof. ar1_crush. matrix_crush. repeat split; ring. Qed.

Lemma matrixOfY_composeWith t1 t2 :
  matrix_eq (multiply (matrixOfY t1) (matrixOfY t2))
            (matrixOfY (composeWith t2 t1)).
Proof. ar1_crush. matrix_crush. repeat split; ring. Qed.

Lemma matrixOf_XY_commute t1 t2 :
  matrix_eq (multiply (matrixOfX t1) (matrixOfY t2))
            (multiply (matrixOfY t2) (matrixOfX t1)).
Proof. ar1_crush. matrix_crush. repeat split; ring. Qed.

(** Appending [t1] and then [t2] along the same axis appends the
    composition that applies [t2] first. *)
Theorem applyToMatrixX_composeWith t1 t2 sm :
  matrix_eq (applyToMatrixX t2 (applyToMatrixX t1 sm))
            (applyToMatrixX (composeWith t2 t1) sm).
Proof.
  rewrite !applyToMatrixX_multiply, multiply_assoc.
  now rewrite matrixOfX_composeWith.
Qed.

Theorem applyToMatrixY_composeWith t1 t2 sm :
  matrix_eq (applyToMatrixY t2 (applyToMatrixY t1 sm))
            (applyToMatrixY (composeWith t2 t1) sm).
Proof.
  rewrite !applyToMatrixY_multiply, multiply_assoc.
  now rewrite matrixOfY_composeWith.
Qed.

(** The two axes are independent. *)
Theorem applyToMatrix_XY_commute t1 t2 sm :
  matrix_eq (applyToMatrixY t2 (applyToMatrixX t1 sm))
            (applyToMatrixX t1 (applyToMatrixY t2 sm)).
Proof.
  rewrite applyToMatrixY_multiply, applyToMatrixX_multiply.
  rewrite (applyToMatrixX_multiply t1), (applyToMatrixY_multiply t2 sm).
  now rewrite !multiply_assoc, matrixOf_XY_commute.
Qed.

(** The order translate-then-scale matters: with the scale appended first
    the offset would be scaled too. *)
Lemma scale_then_translate_differs t sm x y :
  neq2 (matrixTransform (translate (scaleNonUniform sm (fst (m t)) 1)
                                   (snd (m t)) 0) (x, y))
       (matrixTransform sm (fst (m t) * (x + snd (m t)), y)).
Proof. ar1_crush. matrix_crush. split; ring. Qed.

End AR1Facts.

#[export] Hint Resolve invertible_composeWith invertible_inverse
  invertible_identity : svg.

(** ** Bounds *)

Section AR1Bounds.
Context {T : Type} {ops : NumOps T} {fld : NumField T} {ord : NumOrder T}.
Implicit Types (t : AR1 T) (x a b : T).

(** A transform carries what lies between two points to what lies
    between their images, whatever the sign of its scale. *)
Lemma applyToPoint_between t a b x :
  between a b x ->
  between (applyToPoint t a) (applyToPoint t b) (applyToPoint t x).
Proof. destruct t as [[k c]]. unfold applyToPoint. simpl. apply between_affine. Qed.

(** With a scale that is not negative a transform keeps the order. *)
Lemma applyToPoint_mono t a b :
  0 <= fst (m t) -> a <= b -> applyToPoint t a <= applyToPoint t b.
Proof.
  destruct t as [[k c]]. unfold applyToPoint. simpl. intros Hk H.
  apply nadd_le_mono_r. now apply nmul_le_mono_nonneg_l.
Qed.

End AR1Bounds.

(** ** Evaluation on the instances *)

(** Composition is not commutative: scaling by 2 then shifting by 3 is not
    shifting by 3 then scaling by 2. *)
Theorem composeWith_not_commutative :
  ~ composeWith (mkAR1 (2, 0)%Q) (mkAR1 (1, 3)%Q)
    =~ composeWith (mkAR1 (1, 3)%Q) (mkAR1 (2, 0)%Q).
Proof. intros [_ H]. vm_compute in H. discriminate H. Qed.

(** On floats the inverse of a transform with scale zero does not fail:
    its scale is the infinity [1 / 0]. *)
Theorem inverse_zero_scale_float (b : float) :
  fst (m (inverse (mkAR1 (0%float, b)))) = infinity.
Proof. reflexivity. Qed.

(** ... and its offset is not finite either. *)
Example inverse_zero_scale_float_offset :
  m (inverse (mkAR1 (0, 3)%float)) = (infinity, neg_infinity).
Proof. reflexivity. Qed.

(** ** Witnesses *)

Lemma composeWith_inverse_witness :
  composeWith (mkAR1 (2, 3)%Q) (inverse (mkAR1 (2, 3)%Q)) =~ identityAR1 /\
  composeWith (inverse (mkAR1 (2, 3)%Q)) (mkAR1 (2, 3)%Q) =~ identityAR1.
Proof.
  apply (composeWith_inverse (mkAR1 (2, 3)%Q)).
  apply Qneq_by_eval. reflexivity.
Defined.

Lemma applyToPoint_inverse_witness :
  applyToPoint (inverse (mkAR1 (2, 3)%Q)) (applyToPoint (mkAR1 (2, 3)%Q) 5%Q) == 5%Q /\
  applyToPoint (mkAR1 (2, 3)%Q) (applyToPoint (inverse (mkAR1 (2, 3)%Q)) 5%Q) == 5%Q.
Proof.
  apply (applyToPoint_inverse (mkAR1 (2, 3)%Q) 5%Q).
  apply Qneq_by_eval. reflexivity.
Defined.

Lemma invertible_preserved_witness :
  invertible (composeWith (mkAR1 (2, 3)%Q) (mkAR1 (5, 7)%Q)) /\
  invertible (inverse (mkAR1 (2, 3)%Q)).
Proof.
  apply (invertible_preserved (mkAR1 (2, 3)%Q) (mkAR1 (5, 7)%Q));
    apply Qneq_by_eval; reflexivity.
Defined.

Lemma inverse_composeWith_witness :
  inverse (composeWith (mkAR1 (2, 3)%Q) (mkAR1 (5, 7)%Q))
  =~ composeWith (inverse (mkAR1 (5, 7)%Q)) (inverse (mkAR1 (2, 3)%Q)).
Proof.
  apply (inverse_composeWith (mkAR1 (2, 3)%Q) (mkAR1 (5, 7)%Q));
    apply Qneq_by_eval; reflexivity.
Defined.
