(* ===== verification/Basis.v ===== *)
(** * Basis: bases of the affine line and the transform between two bases

    [betweenBasesAR1], class [AR1Basis], the constants [bUnit] and
    [bPlaceholder] and [betweenTBasesAR1] of [src/viewZoomTransform.ts].

    A basis of the line is two points; a pair of bases determines the
    transform that sends the first point of one to the first point of the
    other and the second to the second.  The theorems state that the closed
    form of the code is that transform and the only one, that it does not
    depend on which point of the bases is listed first, that solving is
    functorial, that a transform is recovered from the image of a basis, and
    that the solved transform sends what lies between the source points to
    what lies between the target points, whatever the order of each basis.
    They need the source basis to have two distinct points; what the code
    does otherwise is observed on floats at the end of the file. *)

From Stdlib Require Import QArith Floats.
From S2P Require Import Prelude Numeric Order SVGMatrix Affine.

Local Open Scope num_scope.

(* Decimal literals are rounded to the nearest binary64, as in JavaScript. *)
#[local] Set Warnings "-inexact-float".

Section Basis.
Context {T : Type} {ops : NumOps T}.

Definition betweenBasesAR1 (b1 b2 : T * T) : AR1 T :=
  let '(b11, b12) := b1 in
  let '(b21, b22) := b2 in
  mkAR1 ((b21 - b22) / (b11 - b12),
         - (b12 * b21 - b11 * b22) / (b11 - b12)).

Record AR1Basis := mkAR1Basis { p1 : T; p2 : T }.

Definition toArr (this : AR1Basis) : T * T := (p1 this, p2 this).

Definition transformWith (this : AR1Basis) (transform : AR1 T) : AR1Basis :=
  mkAR1Basis (applyToPoint transform (p1 this))
             (applyToPoint transform (p2 this)).

Definition bUnit : AR1Basis := mkAR1Basis 0 1.

Definition bPlaceholder : AR1Basis := bUnit.

Definition betweenTBasesAR1 (b1 b2 : AR1Basis) : AR1 T :=
  betweenBasesAR1 (toArr b1) (toArr b2).

Context {fld : NumField T}.

(** Bases are compared point by point. *)
Definition basis_eq (b1 b2 : AR1Basis) : Prop := neq2 (toArr b1) (toArr b2).

(** A basis is usable as a source when its two points differ. *)
Definition nondegenerate (b : AR1Basis) : Prop := ~ p1 b == p2 b.

End Basis.

Arguments AR1Basis T : clear implicits.

(** [basis_crush]: open bases and transforms and unfold the operations. *)
Ltac basis_crush :=
  repeat match goal with
    | b : AR1Basis _ |- _ => destruct b
    | p : (_ * _)%type |- _ => destruct p
    end;
  unfold basis_eq, nondegenerate, betweenTBasesAR1, transformWith, toArr,
    bPlaceholder, bUnit, betweenBasesAR1 in *;
  simpl in *;
  ar1_crush.

Section BasisFacts.
Context {T : Type} {ops : NumOps T} {fld : NumField T}.
Add Field basis_field : nfield_th (setoid neq_equiv num_ring_ext).
Implicit Types (b : AR1Basis T) (t : AR1 T) (x y p q r s : T).

#[export] Instance basis_eq_equiv : Equivalence (@basis_eq T ops fld).
Proof.
  split.
  - intros b. unfold basis_eq. reflexivity.
  - intros b b' H. unfold basis_eq in *. now symmetry.
  - intros b b' b'' H H'. unfold basis_eq in *. now transitivity (toArr b').
Qed.

#[export] Instance betweenBasesAR1_proper :
  Proper (neq2 ==> neq2 ==> AR1_eq) (@betweenBasesAR1 T ops).
Proof.
  intros [p q] [p' q'] [Hp Hq] [r s] [r' s'] [Hr Hs]. basis_crush.
  split; rewrite Hp, Hq, Hr, Hs; reflexivity.
Qed.

#[export] Instance betweenTBasesAR1_proper :
  Proper (basis_eq ==> basis_eq ==> AR1_eq) (@betweenTBasesAR1 T ops).
Proof. intros b b' H c c' H'. now apply betweenBasesAR1_proper. Qed.

#[export] Instance transformWith_proper :
  Proper (basis_eq ==> AR1_eq ==> basis_eq) (@transformWith T ops).
Proof.
  intros b b' [H1 H2] t t' Ht. unfold basis_eq, transformWith, toArr in *.
  simpl in *. split; simpl; now rewrite Ht, ?H1, ?H2.
Qed.

#[export] Instance nondegenerate_proper :
  Proper (basis_eq ==> iff) (@nondegenerate T ops fld).
Proof.
  intros b b' [H1 H2]. unfold nondegenerate, toArr in *. simpl in *.
  now rewrite H1, H2.
Qed.

(** ** The solved transform *)

(** C2: The transform between two bases sends the first point of the source to
    the first point of the target and the second to the second. *)
Theorem betweenBasesAR1_correct p q r s :
  ~ p == q ->
  applyToPoint (betweenBasesAR1 (p, q) (r, s)) p == r /\
  applyToPoint (betweenBasesAR1 (p, q) (r, s)) q == s.
Proof. intros H. basis_crush. split; nfield. Qed.

(** C8: A transform that sends the two points of the source basis to the two
    points of the target basis is the one [betweenBasesAR1] computes: the
    solution is unique. *)
Theorem betweenBasesAR1_unique t p q r s :
  ~ p == q ->
  applyToPoint t p == r -> applyToPoint t q == s ->
  t =~ betweenBasesAR1 (p, q) (r, s).
Proof.
  intros H Hr Hs. basis_crush. rewrite <- Hr, <- Hs. split; nfield.
Qed.

(** C24: Listing the points of both bases in the other order gives the same
    transform. *)
Theorem betweenBasesAR1_relabel p q r s :
  ~ p == q ->
  betweenBasesAR1 (p, q) (r, s) =~ betweenBasesAR1 (q, p) (s, r).
Proof. intros H. basis_crush. split; nfield. Qed.

(** Between bases with distinct points the transform is invertible. *)
Theorem betweenBasesAR1_invertible p q r s :
  ~ p == q -> ~ r == s -> invertible (betweenBasesAR1 (p, q) (r, s)).
Proof. intros H H'. basis_crush. auto with svg. Qed.

(** The inverse of the transform between two bases is the transform
    between the same bases taken in the other direction. *)
Theorem betweenBasesAR1_inverse p q r s :
  ~ p == q -> ~ r == s ->
  inverse (betweenBasesAR1 (p, q) (r, s)) =~ betweenBasesAR1 (r, s) (p, q).
Proof. intros H H'. basis_crush. split; nfield. Qed.

(** Solving from a first basis to a second and from the second to a third
    composes to solving from the first to the third. *)
Theorem betweenBasesAR1_composeWith p q r s u v :
  ~ p == q -> ~ r == s ->
  composeWith (betweenBasesAR1 (p, q) (r, s)) (betweenBasesAR1 (r, s) (u, v))
  =~ betweenBasesAR1 (p, q) (u, v).
Proof. intros H H'. basis_crush. split; nfield. Qed.

(** From a basis to itself the transform is the identity. *)
Theorem betweenBasesAR1_same p q :
  ~ p == q -> betweenBasesAR1 (p, q) (p, q) =~ identityAR1.
Proof. intros H. basis_crush. split; nfield. Qed.

(** ** Typed bases *)

(** The transform between two typed bases carries the first onto the
    second. *)
Theorem transformWith_betweenTBasesAR1 b1 b2 :
  nondegenerate b1 ->
  basis_eq (transformWith b1 (betweenTBasesAR1 b1 b2)) b2.
Proof. intros H. basis_crush. split; nfield. Qed.

(** A transform is recovered from the image of any basis with two distinct
    points. *)
Theorem betweenTBasesAR1_transformWith b t :
  nondegenerate b -> betweenTBasesAR1 b (transformWith b t) =~ t.
Proof. intros H. basis_crush. split; nfield. Qed.

(** Transforming a basis twice is transforming it by the composition. *)
Theorem transformWith_composeWith b t1 t2 :
  basis_eq (transformWith (transformWith b t1) t2)
           (transformWith b (composeWith t1 t2)).
Proof. basis_crush. split; ring. Qed.

(** An invertible transform keeps the two points of a basis distinct. *)
Theorem nondegenerate_transformWith b t :
  invertible t -> nondegenerate b -> nondegenerate (transformWith b t).
Proof.
  intros Ht Hb E. apply Hb.
  apply (applyToPoint_injective t); [exact Ht | exact E].
Qed.

(** The unit basis has two distinct points, and the placeholder is the unit
    basis. *)
Lemma nondegenerate_bUnit : nondegenerate (@bUnit T ops).
Proof.
  unfold nondegenerate, bUnit; simpl. intros E. apply none_neq0. now symmetry.
Qed.

Lemma bPlaceholder_bUnit : @bPlaceholder T ops = bUnit.
Proof. reflexivity. Qed.

(** The image of the unit basis lists the offset and the offset plus the
    scale. *)
Lemma transformWith_bUnit t :
  basis_eq (transformWith bUnit t)
           (mkAR1Basis (snd (m t)) (fst (m t) + snd (m t))).
Proof. basis_crush. split; ring. Qed.

End BasisFacts.

#[export] Hint Resolve betweenBasesAR1_invertible nondegenerate_transformWith
  nondegenerate_bUnit : svg.

(** ** Bounds *)

Section BasisBounds.
Context {T : Type} {ops : NumOps T} {fld : NumField T} {ord : NumOrder T}.
Add Field basis_bounds_field : nfield_th (setoid neq_equiv num_ring_ext).
Implicit Types (x p q r s : T).

(** The images of the two source points, for rewriting. *)
Lemma betweenBasesAR1_ends p q r s :
  ~ p == q ->
  applyToPoint (betweenBasesAR1 (p, q) (r, s)) p == r /\
  applyToPoint (betweenBasesAR1 (p, q) (r, s)) q == s.
Proof. intros H. basis_crush. split; nfield. Qed.

(** C19: The solved transform sends what lies between the points of the source
    basis to what lies between the points of the target basis, in
    whichever order each basis comes. *)
Theorem betweenBasesAR1_between p q r s x :
  ~ p == q -> between p q x ->
  between r s (applyToPoint (betweenBasesAR1 (p, q) (r, s)) x).
Proof.
  intros H Hx. destruct (betweenBasesAR1_ends p q r s H) as [Er Es].
  apply (between_proper _ _ Er _ _ Es _ _ (reflexivity _)).
  now apply applyToPoint_between.
Qed.

End BasisBounds.

(** ** The scenarios of the specification, on exact rationals *)

(** Fahrenheit to Celsius, the example of the source's comment: water
    freezes at 32 and 0 and boils at 212 and 100, so the scale is 5/9 and
    the offset -160/9, and 98.6 is 37. *)
Theorem fahrenheit_celsius_Q :
  betweenBasesAR1 (32, 212)%Q (0, 100)%Q =~ mkAR1 (5 # 9, - (160 # 9))%Q /\
  applyToPoint (betweenBasesAR1 (32, 212)%Q (0, 100)%Q) (986 # 10)%Q == 37%Q.
Proof. vm_compute. repeat split. Qed.

(** ** The same code on floats *)

(** On floats the transform from Fahrenheit to Celsius,
    [betweenBasesAR1([32, 212], [0, 100])], sends 98.6 within 0.01 of 37;
    its scale is within 0.0001 of 0.5556 and its offset within 0.01 of
    -17.78. *)
Theorem fahrenheit_celsius_float :
  near 0.01 (applyToPoint (betweenBasesAR1 (32, 212) (0, 100)) 98.6)%float
       37%float = true /\
  near 0.0001 (fst (m (betweenBasesAR1 (32, 212) (0, 100))))%float
       0.5556%float = true /\
  near 0.01 (snd (m (betweenBasesAR1 (32, 212) (0, 100))))%float
       (-17.78)%float = true.
Proof. vm_compute. repeat split. Qed.


(** When the target coincides too the coefficients are NaN. *)
Example betweenBasesAR1_degenerate_nan :
  m (betweenBasesAR1 (5, 5)%float (1, 1)%float) = (nan, nan).
Proof. vm_compute. reflexivity. Qed.

(** ** Witnesses *)

Lemma Q32_212 : ~ (32%Q == 212%Q)%num.
Proof. apply Qneq_by_eval. reflexivity. Defined.

Lemma Q0_100 : ~ (0%Q == 100%Q)%num.
Proof. apply Qneq_by_eval. reflexivity. Defined.

Lemma betweenBasesAR1_correct_witness :
  applyToPoint (betweenBasesAR1 (32, 212)%Q (0, 100)%Q) 32%Q == 0%Q /\
  applyToPoint (betweenBasesAR1 (32, 212)%Q (0, 100)%Q) 212%Q == 100%Q.
Proof. exact (betweenBasesAR1_correct 32%Q 212%Q 0%Q 100%Q Q32_212). Defined.

Lemma betweenBasesAR1_relabel_witness :
  betweenBasesAR1 (32, 212)%Q (0, 100)%Q =~ betweenBasesAR1 (212, 32)%Q (100, 0)%Q.
Proof. exact (betweenBasesAR1_relabel 32%Q 212%Q 0%Q 100%Q Q32_212). Defined.

Lemma betweenBasesAR1_inverse_witness :
  inverse (betweenBasesAR1 (32, 212)%Q (0, 100)%Q)
  =~ betweenBasesAR1 (0, 100)%Q (32, 212)%Q.
Proof.
  exact (betweenBasesAR1_inverse 32%Q 212%Q 0%Q 100%Q Q32_212 Q0_100).
Defined.

Lemma betweenBasesAR1_unique_witness :
  mkAR1 (5 # 9, - (160 # 9))%Q =~ betweenBasesAR1 (32, 212)%Q (0, 100)%Q.
Proof.
  apply (betweenBasesAR1_unique (mkAR1 (5 # 9, - (160 # 9))%Q) 32%Q 212%Q 0%Q 100%Q);
    [exact Q32_212 | vm_compute; reflexivity | vm_compute; reflexivity].
Defined.

Lemma betweenBasesAR1_composeWith_witness :
  composeWith (betweenBasesAR1 (32, 212)%Q (0, 100)%Q)
              (betweenBasesAR1 (0, 100)%Q (0, 1)%Q)
  =~ betweenBasesAR1 (32, 212)%Q (0, 1)%Q.
Proof.
  exact (betweenBasesAR1_composeWith 32%Q 212%Q 0%Q 100%Q 0%Q 1%Q
           Q32_212 Q0_100).
Defined.

Lemma betweenTBasesAR1_transformWith_witness :
  betweenTBasesAR1 (mkAR1Basis 32%Q 212%Q)
    (transformWith (mkAR1Basis 32%Q 212%Q) (mkAR1 (5 # 9, - (160 # 9))%Q))
  =~ mkAR1 (5 # 9, - (160 # 9))%Q.
Proof.
  exact (betweenTBasesAR1_transformWith (mkAR1Basis 32%Q 212%Q)
           (mkAR1 (5 # 9, - (160 # 9))%Q) Q32_212).
Defined.

Lemma transformWith_betweenTBasesAR1_witness :
  basis_eq (transformWith (mkAR1Basis 32%Q 212%Q)
              (betweenTBasesAR1 (mkAR1Basis 32%Q 212%Q) (mkAR1Basis 0%Q 100%Q)))
           (mkAR1Basis 0%Q 100%Q).
Proof.
  exact (transformWith_betweenTBasesAR1 (mkAR1Basis 32%Q 212%Q)
           (mkAR1Basis 0%Q 100%Q) Q32_212).
Defined.

Lemma betweenBasesAR1_between_witness :
  between 0%Q 100%Q (applyToPoint (betweenBasesAR1 (32, 212)%Q (0, 100)%Q) 98%Q).
Proof.
  apply (betweenBasesAR1_between (ord := Qord) 32%Q 212%Q 0%Q 100%Q 98%Q Q32_212).
  left. split; vm_compute; discriminate.
Defined.
