(* ===== verification/Throttle.v ===== *)
(** * Throttle: [drawProc], at most one redraw per timer tick

    [drawProc(f)] of [src/draw.ts] returns a closure over a flag
    [requested].  Called while the flag is down, the closure raises it and
    schedules a timer whose callback captures the arguments of that call;
    called while the flag is up, it does nothing.  The callback lowers the
    flag and runs [f] on the captured arguments.

    The closure is a record of the flag and of the callbacks it has
    scheduled and that have not run yet (the part of the timer queue that
    belongs to it, oldest first).  Calls and timer ticks are the events of a
    step function; [run] folds it over a trace and collects the arguments
    [f] was run on.  The theorems: the flag is up exactly when a callback is
    scheduled and there is never more than one; a call is never lost (after
    a call a callback is scheduled); [f] runs on the arguments of the first
    call since the last tick, so later calls of the same burst are dropped
    with their arguments; [run] agrees with the reference [coalesce]; [f]
    never runs more often than the timer ticks, and a call is served at
    the next tick. *)

From Stdlib Require Import List Bool Arith Lia.
From S2P Require Import Prelude.
Import ListNotations.

Section DrawProc.
Context {P : Type}.

(** The closure's state. *)
Record DrawProc := mkDrawProc {
  requested : bool;
  timers : list P
}.

(** [drawProc(f)]: [let requested = false]; no timer is scheduled. *)
Definition drawProc : DrawProc := mkDrawProc false [].

(** The returned closure, called with [params]. *)
Definition invoke (this : DrawProc) (params : P) : DrawProc :=
  if negb (requested this)
  then mkDrawProc true (timers this ++ [params])
  else this.

(** The callback of the oldest scheduled timer runs: the flag is lowered
    and [f] is to be run on the captured arguments (returned).  With no
    timer scheduled nothing happens. *)
Definition timeout (this : DrawProc) : DrawProc * option P :=
  match timers this with
  | params :: rest => (mkDrawProc false rest, Some params)
  | [] => (this, None)
  end.

(** Events: a call of the closure, a tick of the timer. *)
Inductive event :=
| Call (params : P)
| Tick.

Definition step (this : DrawProc) (e : event) : DrawProc * list P :=
  match e with
  | Call params => (invoke this params, [])
  | Tick =>
      match timeout this with
      | (this', Some params) => (this', [params])
      | (this', None) => (this', [])
      end
  end.

(** [run trace this]: the state after the trace and the arguments of the
    runs of [f], in order. *)
Fixpoint run (trace : list event) (this : DrawProc) : DrawProc * list P :=
  match trace with
  | [] => (this, [])
  | e :: trace' =>
      let '(this', out) := step this e in
      let '(this'', out') := run trace' this' in
      (this'', out ++ out')
  end.

(** The states a closure can be in. *)
Inductive reachable : DrawProc -> Prop :=
| reachable_init : reachable drawProc
| reachable_step this e : reachable this -> reachable (fst (step this e)).

(** The invariant: the flag is up exactly when one callback is scheduled,
    and no more than one ever is. *)
Definition throttle_inv (this : DrawProc) : Prop :=
  (requested this = true /\ length (timers this) = 1) \/
  (requested this = false /\ timers this = []).

(** The reference: what the trace should make [f] run on.  [held] is the
    argument of the first call since the last tick, if any. *)
Fixpoint coalesce (held : option P) (trace : list event) : list P :=
  match trace, held with
  | [], _ => []
  | Call params :: trace', None => coalesce (Some params) trace'
  | Call _ :: trace', Some _ => coalesce held trace'
  | Tick :: trace', Some params => params :: coalesce None trace'
  | Tick :: trace', None => coalesce None trace'
  end.

(** The argument held by a state that satisfies the invariant. *)
Definition held_of (this : DrawProc) : option P := hd_error (timers this).

End DrawProc.

Arguments DrawProc P : clear implicits.
Arguments event P : clear implicits.

Section DrawProcFacts.
Context {P : Type}.
Implicit Types (this : DrawProc P) (e : event P) (trace : list (event P)).

Lemma throttle_inv_init : throttle_inv (@drawProc P).
Proof. right. split; reflexivity. Qed.

Lemma throttle_inv_step this e :
  throttle_inv this -> throttle_inv (fst (step this e)).
Proof.
  destruct this as [r ts]. unfold throttle_inv. simpl.
  intros [[-> Hl] | [-> ->]]; destruct e as [p |]; simpl.
  - left. auto.
  - destruct ts as [| q [| q' ts]]; simpl in *; try discriminate. right; auto.
  - left. auto.
  - right. auto.
Qed.

Lemma invoke_requested this params : requested (invoke this params) = true.
Proof. destruct this as [[|] ts]; reflexivity. Qed.

Lemma throttle_inv_invoke this params :
  throttle_inv this -> throttle_inv (invoke this params).
Proof. exact (throttle_inv_step this (Call params)). Qed.

Lemma throttle_inv_timeout this :
  throttle_inv this -> throttle_inv (fst (timeout this)).
Proof.
  intros H. pose proof (throttle_inv_step this Tick H) as H'. simpl in H'.
  destruct (timeout this) as [proc [p |]]; exact H'.
Qed.

(** The arguments a tick hands over were captured by a scheduled callback,
    and so were those still scheduled after it. *)
Lemma timeout_In this proc params :
  timeout this = (proc, Some params) ->
  In params (timers this) /\ forall q, In q (timers proc) -> In q (timers this).
Proof.
  unfold timeout. destruct (timers this) as [| p rest] eqn:E; [discriminate |].
  intros H. inv H. simpl. auto.
Qed.

(** A call schedules its own arguments or nothing. *)
Lemma invoke_In this params q :
  In q (timers (invoke this params)) -> q = params \/ In q (timers this).
Proof.
  unfold invoke. destruct (negb (requested this)); simpl; [| auto].
  intros H. apply in_app_or in H. destruct H as [H | [-> | []]]; auto.
Qed.

(** A tick with a callback scheduled leaves the closure at rest. *)
Lemma timeout_Some this proc params :
  throttle_inv this -> timeout this = (proc, Some params) -> proc = drawProc.
Proof.
  destruct this as [r ts]. unfold throttle_inv, timeout. simpl.
  intros [[_ Hl] | [_ ->]] E; [| discriminate].
  destruct ts as [| q [| q' ts]]; simpl in *; try discriminate. now inv E.
Qed.

(** Every reachable state has the flag up exactly when a callback is
    scheduled, and never more than one callback. *)
Theorem reachable_throttle_inv this : reachable this -> throttle_inv this.
Proof.
  induction 1; [apply throttle_inv_init | now apply throttle_inv_step].
Qed.

(** No call is lost: right after a call a callback is scheduled. *)
Theorem invoke_schedules this params :
  throttle_inv this -> length (timers (invoke this params)) = 1.
Proof.
  destruct this as [r ts]. unfold throttle_inv, invoke. simpl.
  intros [[-> Hl] | [-> ->]]; simpl; auto.
Qed.

(** A second call before the tick changes nothing: its arguments are
    dropped. *)
Theorem invoke_twice this (p q : P) :
  invoke (invoke this p) q = invoke this p.
Proof.
  destruct this as [[|] ts]; reflexivity.
Qed.

(** After calls with [p] and then [q] from rest, the tick runs [f] on [p],
    the arguments of the first call, and the closure is at rest again. *)
Theorem burst_runs_first_arguments (p q : P) :
  run [Call p; Call q; Tick] drawProc = (drawProc, [p]).
Proof. reflexivity. Qed.

Lemma run_app (trace1 trace2 : list (event P)) this :
  run (trace1 ++ trace2) this =
  let '(this', out) := run trace1 this in
  let '(this'', out') := run trace2 this' in
  (this'', out ++ out').
Proof.
  revert this. induction trace1 as [| e trace1 IH]; intros this; simpl.
  - destruct (run trace2 this). reflexivity.
  - destruct (step this e) as [this1 o1]. rewrite IH.
    destruct (run trace1 this1) as [this2 o2].
    destruct (run trace2 this2) as [this3 o3].
    now rewrite app_assoc.
Qed.

Lemma run_reachable trace this :
  reachable this -> reachable (fst (run trace this)).
Proof.
  revert this. induction trace as [| e trace IH]; intros this H; simpl; auto.
  destruct (step this e) as [this1 o1] eqn:E.
  specialize (IH this1). destruct (run trace this1) as [this2 o2]. simpl in *.
  apply IH. change this1 with (fst (this1, o1)). rewrite <- E.
  now constructor.
Qed.

(** One step of the machine is one step of the reference. *)
Lemma step_coalesce this e trace :
  throttle_inv this ->
  snd (step this e) ++ coalesce (held_of (fst (step this e))) trace
  = coalesce (held_of this) (e :: trace).
Proof.
  destruct this as [r ts]. unfold throttle_inv, held_of. simpl.
  intros [[-> Hl] | [-> ->]]; destruct e as [p |]; simpl.
  - destruct ts as [| q [| q' ts]]; simpl in *; try discriminate. reflexivity.
  - destruct ts as [| q [| q' ts]]; simpl in *; try discriminate. reflexivity.
  - reflexivity.
  - reflexivity.
Qed.

Lemma run_coalesce_from trace this :
  throttle_inv this ->
  snd (run trace this) = coalesce (held_of this) trace.
Proof.
  revert this. induction trace as [| e trace IH]; intros this H.
  - destruct (held_of this); reflexivity.
  - rewrite <- step_coalesce by exact H.
    pose proof (throttle_inv_step this e H) as H'.
    simpl. destruct (step this e) as [this1 o1]. simpl in *.
    specialize (IH this1 H'). destruct (run trace this1) as [this2 o2].
    simpl in *. now rewrite IH.
Qed.

(** C5: Over any trace of calls and ticks, a closure made by [drawProc] runs
    [f] on exactly the arguments the reference gives: those of the first
    call of every burst, one run per tick that follows a call. *)
Theorem run_coalesce trace :
  snd (run trace (@drawProc P)) = coalesce None trace.
Proof. apply (run_coalesce_from trace drawProc), throttle_inv_init. Qed.

Lemma coalesce_length held trace :
  length (coalesce held trace)
  <= length (filter (fun e => match e with Tick => true | _ => false end) trace).
Proof.
  revert held. induction trace as [| [p |] trace IH]; intros [h |]; simpl;
    try apply IH; auto using le_n_S.
Qed.

(** [f] never runs more often than the timer ticks. *)
Theorem run_at_most_once_per_tick trace :
  length (snd (run trace (@drawProc P)))
  <= length (filter (fun e => match e with Tick => true | _ => false end) trace).
Proof.
  rewrite run_coalesce_from by apply throttle_inv_init. apply coalesce_length.
Qed.

(** A call is served at the next tick: whatever the closure was doing, a
    call followed by a tick runs [f] exactly once, on the arguments held,
    and leaves the closure at rest. *)
Theorem call_served_at_next_tick this (p : P) :
  throttle_inv this ->
  exists q, run [Call p; Tick] this = (drawProc, [q]) /\
            (requested this = false -> q = p).
Proof.
  destruct this as [r ts]. unfold throttle_inv. simpl.
  intros [[-> Hl] | [-> ->]].
  - destruct ts as [| q [| q' ts]]; simpl in *; try discriminate.
    exists q. split; [reflexivity | discriminate].
  - exists p. split; reflexivity.
Qed.

End DrawProcFacts.

#[export] Hint Resolve throttle_inv_init throttle_inv_step throttle_inv_invoke
  throttle_inv_timeout invoke_requested : svg.

(** ** Witnesses *)

Lemma reachable_throttle_inv_witness :
  throttle_inv (fst (step (fst (step (@drawProc nat) (Call 7))) (Call 8))).
Proof.
  apply reachable_throttle_inv.
  apply reachable_step, reachable_step, reachable_init.
Defined.

Lemma invoke_schedules_witness :
  length (timers (invoke (@drawProc nat) 7)) = 1.
Proof. apply invoke_schedules. right. split; reflexivity. Defined.

Lemma call_served_at_next_tick_witness :
  exists q, run [Call 7; Tick] (invoke (@drawProc nat) 3) = (drawProc, [q]) /\
            (requested (invoke (@drawProc nat) 3) = false -> q = 7).
Proof.
  apply (call_served_at_next_tick (invoke (@drawProc nat) 3) 7).
  left. split; reflexivity.
Defined.
