(* ===== verification/Chart.v ===== *)
(** * Chart: the state of a [TimeSeriesChart]

    Class [TimeSeriesChart] of [src/draw.ts] without its DOM: the date of
    the first sample ([minX]) and of the last ([maxX]), the step between
    samples ([stepX]), the count of samples received since the last redraw
    ([missedStepsCount]), the sample buffer ([chart.data]), the samples the
    segment tree was last built over, the domains of the two horizontal
    scales ([chart.x], [chart.rx]), the samples the paths were last drawn
    from, and the throttle of [drawNewData].

    Dates are integer milliseconds ([Z]); indexes are [Z] where the code
    subtracts from a length ([data.length - 1] is [-1] on an empty buffer)
    and [nat] where it counts a loop.

    Operations: [calcDate], the constructor ([newChart], with the part of
    [drawChart] that sets state), [updateChartWithNewData], the body of
    [drawNewData] and its timer tick, and the scan [getZoomIntervalY].
    Theorems: the arithmetic of [calcDate]; the sliding window kept by
    [updateChartWithNewData]; the invariant of the chart over every trace of
    updates and ticks (the tree is never stale, a redraw is pending whenever
    samples were missed, the axis domain and the paths are those of the
    buffer whenever none was); one redraw after several updates leaves the
    chart as a redraw after each would; what [getZoomIntervalY] returns,
    on a hit and on a miss, and that its loop, run with fuel, terminates
    within [intervalSize] iterations; the buffer keeps its length; what
    the redraw that follows a sample leaves; once the redraw timer has
    ticked the chart has been at rest. *)

From Stdlib Require Import List ZArith Lia Bool.
From S2P Require Import Prelude Throttle.
Import ListNotations.

Local Open Scope Z_scope.

Section Chart.
Context {T : Type}.

Record TimeSeriesChart := mkChart {
  minX : Z;
  maxX : Z;
  missedStepsCount : Z;
  stepX : Z;
  data : list (list T);
  tree : list (list T);
  xDomain : Z * Z;
  rxDomain : Z * Z;
  pathData : list (list T);
  drawNewData : DrawProc unit
}.

(** [calcDate(index, offset)]: the date [index] steps after [offset]. *)
Definition calcDate (this : TimeSeriesChart) (index : Z) (offset : Z) : Z :=
  index * stepX this + offset.

(** The constructor, with the assignments of [drawChart] it runs: [stepX]
    and [minX] are set first, [maxX] is computed from them, the tree is
    built over [data], the scale [x] gets the domain [[minX, maxX]] and [rx]
    is its copy, the paths are drawn from [data]; [missedStepsCount] is set
    last. *)
Definition newChart (minX0 : Z) (stepX0 : Z) (data0 : list (list T))
  : TimeSeriesChart :=
  let this0 := mkChart minX0 0 0 stepX0 [] [] (0, 0) (0, 0) [] drawProc in
  let maxX0 := calcDate this0 (Z.of_nat (length data0) - 1) minX0 in
  mkChart minX0 maxX0 0 stepX0 data0 data0 (minX0, maxX0) (minX0, maxX0)
          data0 drawProc.

(** [updateChartWithNewData(newData)]: count the step, push the sample and
    shift the oldest out, rebuild the tree, request a redraw. *)
Definition updateChartWithNewData (this : TimeSeriesChart) (newData : list T)
  : TimeSeriesChart :=
  let missed := missedStepsCount this + 1 in
  let pushed := data this ++ [newData] in
  let shifted := tl pushed in
  mkChart (minX this) (maxX this) missed (stepX this) shifted shifted
          (xDomain this) (rxDomain this) (pathData this)
          (invoke (drawNewData this) tt).

(** The procedure wrapped by the throttle of [drawNewData]. *)
Definition drawNewDataBody (this : TimeSeriesChart) : TimeSeriesChart :=
  let stepsToDraw := missedStepsCount this in
  let minX' := calcDate this stepsToDraw (minX this) in
  let maxX' := calcDate this (Z.of_nat (length (data this)) - 1) minX' in
  let minimumRX := calcDate this stepsToDraw (fst (rxDomain this)) in
  let maximumRX := calcDate this stepsToDraw (snd (rxDomain this)) in
  mkChart minX' maxX' 0 (stepX this) (data this) (tree this)
          (minX', maxX') (minimumRX, maximumRX) (data this)
          (drawNewData this).

(** A tick of the timer of [drawNewData]: its callback, if one is
    scheduled, lowers the flag and runs the body. *)
Definition tickDrawNewData (this : TimeSeriesChart) : TimeSeriesChart :=
  match timeout (drawNewData this) with
  | (proc, Some _) =>
      drawNewDataBody
        (mkChart (minX this) (maxX this) (missedStepsCount this) (stepX this)
                 (data this) (tree this) (xDomain this) (rxDomain this)
                 (pathData this) proc)
  | (_, None) => this
  end.

(** The test of the loop of [getZoomIntervalY]: the date of sample [i] lies
    in the closed interval [xSubInterval]. *)
Definition inSubInterval (this : TimeSeriesChart) (xSubInterval : Z * Z)
  (i : nat) : bool :=
  (calcDate this (Z.of_nat i) (minX this) >=? fst xSubInterval) &&
  (calcDate this (Z.of_nat i) (minX this) <=? snd xSubInterval).

(** One iteration of the loop, on the pair [(from, to)]. *)
Definition zoomIntervalStep (this : TimeSeriesChart) (xSubInterval : Z * Z)
  (acc : nat * nat) (i : nat) : nat * nat :=
  let '(from, to) := acc in
  if inSubInterval this xSubInterval i then
    let to' := if (to <? i)%nat then i else to in
    let from' := if (i <? from)%nat then i else from in
    (from', to')
  else (from, to).

(** [getZoomIntervalY(xSubInterval, intervalSize)]: the least and the
    greatest index whose date lies in the interval, starting from
    [from = intervalSize] and [to = 0]. *)
Definition getZoomIntervalY (this : TimeSeriesChart) (xSubInterval : Z * Z)
  (intervalSize : nat) : nat * nat :=
  for_upto intervalSize (zoomIntervalStep this xSubInterval) (intervalSize, 0%nat).

(** The same loop as the code writes it, a counter tested against
    [intervalSize] before every iteration, run with fuel. *)
Definition getZoomIntervalY_loop (this : TimeSeriesChart) (xSubInterval : Z * Z)
  (intervalSize : nat) (fuel : nat) : option (nat * nat) :=
  option_map snd
    (while_loop fuel (counted_cond intervalSize)
                (counted_body (zoomIntervalStep this xSubInterval))
                (0%nat, (intervalSize, 0%nat))).

(** Events of a chart: a sample arrives, the redraw timer ticks. *)
Inductive chart_event :=
| Update (newData : list T)
| TickDraw.

Definition chart_step (this : TimeSeriesChart) (e : chart_event)
  : TimeSeriesChart :=
  match e with
  | Update newData => updateChartWithNewData this newData
  | TickDraw => tickDrawNewData this
  end.

Definition chart_run (trace : list chart_event) (this : TimeSeriesChart)
  : TimeSeriesChart :=
  fold_left chart_step trace this.

(** The samples of the [Update] events of a trace, in order. *)
Definition updates_of (trace : list chart_event) : list (list T) :=
  flat_map (fun e => match e with Update d => [d] | TickDraw => [] end) trace.

(** The invariant of the loop of [getZoomIntervalY] before iteration [k]:
    [from] and [to] bracket every index below [k] whose date is in the
    interval; either none is and they still have their initial values, or
    they are such indexes themselves. *)
Definition zoom_scan_inv (this : TimeSeriesChart) (xSubInterval : Z * Z)
  (intervalSize k : nat) (acc : nat * nat) : Prop :=
  (forall i, (i < k)%nat -> inSubInterval this xSubInterval i = true ->
             (fst acc <= i <= snd acc)%nat) /\
  ((acc = (intervalSize, 0%nat) /\
    forall i, (i < k)%nat -> inSubInterval this xSubInterval i = false) \/
   ((fst acc <= snd acc)%nat /\ (snd acc < k)%nat /\
    inSubInterval this xSubInterval (fst acc) = true /\
    inSubInterval this xSubInterval (snd acc) = true)).

(** A chart at rest: every sample received is drawn and no redraw is
    scheduled. *)
Definition settled (this : TimeSeriesChart) : Prop :=
  missedStepsCount this = 0 /\ pathData this = data this /\
  drawNewData this = drawProc.

(** The invariant of a chart. *)
Record chart_inv (this : TimeSeriesChart) : Prop := {
  inv_tree : tree this = data this;
  inv_throttle : throttle_inv (drawNewData this);
  inv_missed : 0 <= missedStepsCount this;
  inv_pending : 0 < missedStepsCount this -> requested (drawNewData this) = true;
  inv_rest : missedStepsCount this = 0 -> drawNewData this = drawProc;
  inv_maxX : maxX this = calcDate this (Z.of_nat (length (data this)) - 1) (minX this);
  inv_xDomain : xDomain this = (minX this, maxX this);
  inv_paths : missedStepsCount this = 0 -> pathData this = data this
}.

End Chart.

Arguments TimeSeriesChart T : clear implicits.
Arguments chart_event T : clear implicits.

(** An example: five daily samples from date 0 with step 10: the dates are 0, 10, 20,
    30 and 40. *)
Definition chart5 : TimeSeriesChart Z :=
  newChart 0 10 [[1; 2]; [3; 4]; [5; 6]; [7; 8]; [9; 10]].

Section ChartFacts.
Context {T : Type}.
Implicit Types (this : TimeSeriesChart T) (e : chart_event T)
  (trace : list (chart_event T)) (newData : list T).

(** ** Dates *)

Lemma calcDate_0 this offset : calcDate this 0 offset = offset.
Proof. unfold calcDate. lia. Qed.

(** Stepping by [i] and then by [j] is stepping by [i + j]. *)
Lemma calcDate_add this i j offset :
  calcDate this i (calcDate this j offset) = calcDate this (i + j) offset.
Proof. unfold calcDate. lia. Qed.

(** With a positive step, later samples have later dates. *)
Lemma calcDate_mono this i j offset :
  0 < stepX this -> i <= j -> calcDate this i offset <= calcDate this j offset.
Proof. unfold calcDate. intros. nia. Qed.

Lemma calcDate_inj this i j offset :
  stepX this <> 0 -> calcDate this i offset = calcDate this j offset -> i = j.
Proof. unfold calcDate. intros. nia. Qed.

(** ** The sample buffer *)

(** The buffer keeps its length: one sample in, one out. *)
Theorem updateChartWithNewData_length this newData :
  length (data (updateChartWithNewData this newData)) = length (data this).
Proof.
  simpl. destruct (data this); simpl; [reflexivity |].
  rewrite length_app. simpl. lia.
Qed.

Lemma tickDrawNewData_data this : data (tickDrawNewData this) = data this.
Proof.
  unfold tickDrawNewData. destruct (timeout _) as [proc [[] |]]; reflexivity.
Qed.

Lemma tl_app_skipn {A} (l rest : list A) d k :
  skipn k (tl (l ++ [d]) ++ rest) = skipn (S k) (l ++ d :: rest).
Proof. destruct l; simpl; [reflexivity | now rewrite <- app_assoc]. Qed.

Lemma chart_step_data this e :
  data (chart_step this e)
  = skipn (length (updates_of [e])) (data this ++ updates_of [e]).
Proof.
  destruct e as [d |]; simpl.
  - destruct (data this); reflexivity.
  - now rewrite tickDrawNewData_data, app_nil_r.
Qed.

(** C25: The buffer is a sliding window: after a trace it holds the last samples
    of the initial buffer followed by the samples that arrived. *)
Theorem chart_run_data trace this :
  data (chart_run trace this)
  = skipn (length (updates_of trace)) (data this ++ updates_of trace).
Proof.
  revert this. induction trace as [| e trace IH]; intros this.
  - simpl. now rewrite app_nil_r.
  - change (chart_run (e :: trace) this) with (chart_run trace (chart_step this e)).
    rewrite IH. destruct e as [d |]; simpl.
    + apply tl_app_skipn.
    + now rewrite tickDrawNewData_data.
Qed.

(** ** The invariant *)

Lemma chart_inv_newChart minX0 stepX0 (data0 : list (list T)) :
  chart_inv (newChart minX0 stepX0 data0).
Proof. constructor; simpl; auto with svg; lia. Qed.

Lemma chart_inv_update this newData :
  chart_inv this -> chart_inv (updateChartWithNewData this newData).
Proof.
  intros [Ht Hth Hm Hp Hr Hmax Hx Hpa]. constructor; simpl; auto with svg.
  - lia.
  - lia.
  - pose proof (updateChartWithNewData_length this newData) as Hl.
    simpl in Hl. unfold calcDate in *. simpl. now rewrite Hl.
  - lia.
Qed.

Lemma chart_inv_tick this : chart_inv this -> chart_inv (tickDrawNewData this).
Proof.
  intros H. unfold tickDrawNewData.
  pose proof (throttle_inv_timeout _ (inv_throttle _ H)) as Hth.
  destruct (timeout (drawNewData this)) as [proc [[] |]] eqn:E; [| exact H].
  apply timeout_Some in E; [| exact (inv_throttle _ H)]. subst proc.
  destruct H. constructor; simpl; auto; lia.
Qed.

(** After a tick no step is missed. *)
Lemma tickDrawNewData_settles this :
  chart_inv this -> missedStepsCount (tickDrawNewData this) = 0.
Proof.
  intros H. unfold tickDrawNewData.
  destruct (timeout (drawNewData this)) as [proc [[] |]] eqn:E; [reflexivity |].
  destruct (Z.eq_dec (missedStepsCount this) 0) as [H0 | Hn]; [exact H0 |].
  pose proof (inv_missed _ H). pose proof (inv_pending _ H ltac:(lia)) as Hp.
  destruct (inv_throttle _ H) as [[_ Hl] | [Hf _]]; [| congruence].
  unfold timeout in E. destruct (timers (drawNewData this)); [discriminate | inv E].
Qed.

Lemma chart_inv_step this e : chart_inv this -> chart_inv (chart_step this e).
Proof. destruct e; [apply chart_inv_update | apply chart_inv_tick]. Qed.

(** C4: The invariant holds of a new chart and after every trace of updates and
    timer ticks: the tree is built over the buffer, at most one redraw is
    scheduled and one is whenever samples were missed, [maxX] and the domain
    of [x] are those of [minX] and the buffer's length, and the paths show
    the buffer whenever no sample was missed. *)
Theorem chart_inv_run trace minX0 stepX0 (data0 : list (list T)) :
  chart_inv (chart_run trace (newChart minX0 stepX0 data0)).
Proof.
  unfold chart_run.
  apply fold_left_invariant; [apply chart_inv_step | apply chart_inv_newChart].
Qed.

(** ** The date of the first buffered sample *)

Lemma updates_of_cons e trace :
  updates_of (e :: trace) = updates_of [e] ++ updates_of trace.
Proof. unfold updates_of. simpl. now rewrite app_nil_r. Qed.

(** What the lagging dates are worth: [minX] and the two ends of the
    domain of [rx], each stepped by the missed steps. *)
Lemma chart_step_lag this e :
  stepX (chart_step this e) = stepX this /\
  forall proj : TimeSeriesChart T -> Z,
    proj = minX \/ proj = (fun c => fst (rxDomain c)) \/
    proj = (fun c => snd (rxDomain c)) ->
    calcDate (chart_step this e) (missedStepsCount (chart_step this e))
             (proj (chart_step this e))
    = calcDate this (missedStepsCount this + Z.of_nat (length (updates_of [e])))
               (proj this).
Proof.
  destruct e as [d |]; simpl.
  - split; [reflexivity |]. intros proj [-> | [-> | ->]]; reflexivity.
  - unfold tickDrawNewData.
    destruct (timeout (drawNewData this)) as [proc [[] |]]; simpl;
      (split; [reflexivity |]); intros proj [-> | [-> | ->]];
      unfold drawNewDataBody, calcDate; simpl; ring.
Qed.

Lemma chart_run_lag trace this :
  stepX (chart_run trace this) = stepX this /\
  forall proj : TimeSeriesChart T -> Z,
    proj = minX \/ proj = (fun c => fst (rxDomain c)) \/
    proj = (fun c => snd (rxDomain c)) ->
    calcDate (chart_run trace this) (missedStepsCount (chart_run trace this))
             (proj (chart_run trace this))
    = calcDate this (missedStepsCount this + Z.of_nat (length (updates_of trace)))
               (proj this).
Proof.
  revert this. induction trace as [| e trace IH]; intros this.
  - simpl. split; [reflexivity |]. intros proj _. f_equal. lia.
  - change (chart_run (e :: trace) this) with (chart_run trace (chart_step this e)).
    destruct (IH (chart_step this e)) as [IHs IHd].
    destruct (chart_step_lag this e) as [Hs Hd].
    split; [congruence |]. intros proj Hproj.
    rewrite (IHd proj Hproj). specialize (Hd proj Hproj).
    unfold calcDate in *. rewrite Hs.
    rewrite (updates_of_cons e trace), length_app, Nat2Z.inj_add. nia.
Qed.

(** C39: [minX] lags behind the buffer by the missed steps: the date of the
    first buffered sample, [calcDate(missedStepsCount, minX)], advances by
    one step with every update and is left alone by redraws. *)
Theorem chart_run_first_date trace this :
  stepX (chart_run trace this) = stepX this /\
  calcDate (chart_run trace this) (missedStepsCount (chart_run trace this))
           (minX (chart_run trace this))
  = calcDate this (missedStepsCount this + Z.of_nat (length (updates_of trace)))
             (minX this).
Proof.
  destruct (chart_run_lag trace this) as [Hs Hd]. split; [exact Hs |].
  apply (Hd minX). now left.
Qed.

(** ** Redraws may be coalesced *)

Lemma chart_inv_chart_run trace this :
  chart_inv this -> chart_inv (chart_run trace this).
Proof.
  intros H. unfold chart_run.
  apply fold_left_invariant; [apply chart_inv_step | exact H].
Qed.

(** A chart that satisfies the invariant and has missed no step is
    determined by its step, its first date, the domain of [rx] and its
    buffer. *)
Lemma settled_chart_eq this that :
  chart_inv this -> chart_inv that ->
  missedStepsCount this = 0 -> missedStepsCount that = 0 ->
  stepX this = stepX that -> minX this = minX that ->
  rxDomain this = rxDomain that -> data this = data that ->
  this = that.
Proof.
  intros [] [] Hm Hm' Hs Hx Hrx Hd. unfold calcDate in *.
  destruct this, that; simpl in *. subst.
  repeat match goal with H : ?a = ?a -> _ |- _ => specialize (H eq_refl) end.
  congruence.
Qed.

Lemma chart_run_settled_eq trace1 trace2 this :
  chart_inv this ->
  updates_of trace1 = updates_of trace2 ->
  missedStepsCount (chart_run trace1 this) = 0 ->
  missedStepsCount (chart_run trace2 this) = 0 ->
  chart_run trace1 this = chart_run trace2 this.
Proof.
  intros H Hu H1 H2.
  destruct (chart_run_lag trace1 this) as [Hs1 Hd1].
  destruct (chart_run_lag trace2 this) as [Hs2 Hd2].
  assert (forall proj, proj = minX \/ proj = (fun c => fst (rxDomain c)) \/
                       proj = (fun c => snd (rxDomain c)) ->
                       proj (chart_run trace1 this) = proj (chart_run trace2 this))
    as Hproj.
  { intros proj Hp. specialize (Hd1 proj Hp). specialize (Hd2 proj Hp).
    rewrite H1, calcDate_0 in Hd1. rewrite H2, calcDate_0 in Hd2.
    now rewrite Hd1, Hd2, Hu. }
  pose proof (Hproj _ (or_introl eq_refl)) as Hx.
  pose proof (Hproj _ (or_intror (or_introl eq_refl))) as Hf.
  pose proof (Hproj _ (or_intror (or_intror eq_refl))) as Hg.
  simpl in Hf, Hg.
  apply settled_chart_eq; auto using chart_inv_chart_run; try congruence.
  - destruct (rxDomain (chart_run trace1 this)),
             (rxDomain (chart_run trace2 this)); simpl in *; congruence.
  - now rewrite !chart_run_data, Hu.
Qed.

(** C9: How often the timer ticks between the updates cannot be observed once
    a redraw has run: two traces with the same updates that both end with
    no step missed leave the chart in the same state. *)
Theorem redraw_coalescing_unobservable trace1 trace2 this :
  chart_inv this ->
  updates_of trace1 = updates_of trace2 ->
  missedStepsCount (chart_run trace1 this) = 0 ->
  missedStepsCount (chart_run trace2 this) = 0 ->
  chart_run trace1 this = chart_run trace2 this.
Proof. apply chart_run_settled_eq. Qed.

(** One redraw after several updates leaves the chart as a redraw after
    each update would. *)
Theorem batched_redraw_eq (news : list (list T)) this :
  chart_inv this -> missedStepsCount this = 0 ->
  chart_run (map Update news ++ [TickDraw]) this
  = chart_run (flat_map (fun d => [Update d; TickDraw]) news) this.
Proof.
  intros H Hm. apply chart_run_settled_eq; [exact H | | |].
  - unfold updates_of.
    induction news as [| d news IH]; simpl; [reflexivity | now f_equal].
  - unfold chart_run. rewrite fold_left_snoc.
    apply tickDrawNewData_settles. now apply chart_inv_chart_run.
  - destruct news as [| d news] using rev_ind; [exact Hm |].
    rewrite flat_map_app. simpl.
    change [Update d; TickDraw] with ([Update d] ++ [TickDraw]).
    unfold chart_run. rewrite app_assoc, fold_left_snoc.
    apply tickDrawNewData_settles. now apply chart_inv_chart_run.
Qed.

(** ** The scan of [getZoomIntervalY] *)

Lemma inSubInterval_spec this sub i :
  inSubInterval this sub i = true <->
  fst sub <= calcDate this (Z.of_nat i) (minX this) <= snd sub.
Proof. unfold inSubInterval. rewrite andb_true_iff. lia. Qed.

Lemma zoomIntervalStep_inv this sub n k acc :
  (k < n)%nat ->
  zoom_scan_inv this sub n k acc ->
  zoom_scan_inv this sub n (S k) (zoomIntervalStep this sub acc k).
Proof.
  intros Hk [Hall Hcase]. destruct acc as [from to]. unfold zoomIntervalStep.
  assert (forall i, (i < S k)%nat -> i = k \/ (i < k)%nat) as Hlt by lia.
  destruct (inSubInterval this sub k) eqn:E; simpl in *.
  - destruct Hcase as [[Heq Hnone] | (Hle & Hto & Hf & Ht)].
    + inv Heq. replace (k <? n)%nat with true by (symmetry; apply Nat.ltb_lt; lia).
      assert ((if (0 <? k)%nat then k else 0%nat) = k) as ->
        by (destruct (Nat.ltb_spec 0 k); lia).
      split; simpl; [| right; auto].
      intros i Hi Hin. destruct (Hlt i Hi) as [-> | Hi']; [lia |].
      rewrite (Hnone i Hi') in Hin. discriminate.
    + replace (k <? from)%nat with false by (symmetry; apply Nat.ltb_ge; lia).
      replace (to <? k)%nat with true by (symmetry; apply Nat.ltb_lt; lia).
      split; simpl; [| right; repeat split; auto; lia].
      intros i Hi Hin. destruct (Hlt i Hi) as [-> | Hi']; [lia |].
      specialize (Hall i Hi' Hin). lia.
  - split.
    + intros i Hi Hin. destruct (Hlt i Hi) as [-> | Hi']; [congruence | auto].
    + destruct Hcase as [[Heq Hnone] | (Hle & Hto & Hf & Ht)].
      * left. split; [exact Heq |].
        intros i Hi. destruct (Hlt i Hi) as [-> | Hi']; auto.
      * right. repeat split; auto.
Qed.

(** The invariant holds when the loop exits. *)
Lemma getZoomIntervalY_inv this sub n :
  zoom_scan_inv this sub n n (getZoomIntervalY this sub n).
Proof.
  unfold getZoomIntervalY.
  apply (for_upto_ind (fun k acc => zoom_scan_inv this sub n k acc)).
  - split; [intros i Hi; lia | left; split; [reflexivity | intros i Hi; lia]].
  - intros i acc. apply zoomIntervalStep_inv.
Qed.

(** C6: On a hit (some sample of the buffer has its date in the interval)
    [getZoomIntervalY] returns the least and the greatest index of such
    samples. *)
Theorem getZoomIntervalY_hit this sub n j :
  (j < n)%nat -> inSubInterval this sub j = true ->
  let '(from, to) := getZoomIntervalY this sub n in
  (from <= j <= to)%nat /\ (to < n)%nat /\
  inSubInterval this sub from = true /\ inSubInterval this sub to = true /\
  forall i, (i < n)%nat -> inSubInterval this sub i = true -> (from <= i <= to)%nat.
Proof.
  intros Hj Hin. destruct (getZoomIntervalY_inv this sub n) as [Hall Hcase].
  destruct (getZoomIntervalY this sub n) as [from to]. simpl in *.
  destruct Hcase as [[_ Hnone] | (Hle & Hto & Hf & Ht)].
  - rewrite (Hnone j Hj) in Hin. discriminate.
  - auto.
Qed.

(** On a miss (no sample of the buffer has its date in the interval) the
    initial values come back: [from] is [intervalSize], one past the last
    index, and [to] is 0. *)
Theorem getZoomIntervalY_miss this sub n :
  (forall i, (i < n)%nat -> inSubInterval this sub i = false) ->
  getZoomIntervalY this sub n = (n, 0%nat).
Proof.
  intros Hnone. destruct (getZoomIntervalY_inv this sub n) as [Hall Hcase].
  destruct Hcase as [[Heq _] | (Hle & Hto & Hf & Ht)]; [exact Heq |].
  rewrite (Hnone _ Hto) in Ht. discriminate.
Qed.

(** With a positive step the dates in the interval are consecutive: every
    index between the two returned is a hit. *)
Theorem getZoomIntervalY_contiguous this sub n j i :
  0 < stepX this ->
  (j < n)%nat -> inSubInterval this sub j = true ->
  (fst (getZoomIntervalY this sub n) <= i <= snd (getZoomIntervalY this sub n))%nat ->
  inSubInterval this sub i = true.
Proof.
  intros Hstep Hj Hin Hi.
  destruct (getZoomIntervalY_inv this sub n) as [_ Hcase].
  destruct (getZoomIntervalY this sub n) as [from to]. simpl in *.
  destruct Hcase as [[_ Hnone] | (_ & _ & Hf & Ht)];
    [rewrite (Hnone j Hj) in Hin; discriminate |].
  rewrite inSubInterval_spec in *.
  pose proof (calcDate_mono this (Z.of_nat from) (Z.of_nat i) (minX this) Hstep).
  pose proof (calcDate_mono this (Z.of_nat i) (Z.of_nat to) (minX this) Hstep).
  lia.
Qed.

(** When every sample has its date in the interval the scan returns the
    whole buffer. *)
Lemma getZoomIntervalY_all this sub n :
  (0 < n)%nat ->
  (forall i, (i < n)%nat -> inSubInterval this sub i = true) ->
  getZoomIntervalY this sub n = (0%nat, (n - 1)%nat).
Proof.
  intros Hn Hall. destruct (getZoomIntervalY_inv this sub n) as [Hbr Hcase].
  destruct (getZoomIntervalY this sub n) as [from to]. simpl in *.
  destruct Hcase as [[_ Hnone] | (_ & Hto & _)];
    [specialize (Hnone 0%nat Hn); rewrite (Hall 0%nat Hn) in Hnone;
     discriminate |].
  assert (n - 1 < n)%nat as Hn1 by lia.
  pose proof (Hbr 0%nat Hn (Hall _ Hn)).
  pose proof (Hbr (n - 1)%nat Hn1 (Hall _ Hn1)).
  f_equal; lia.
Qed.

(** The pair brackets every sample whose date is in the interval. *)
Lemma getZoomIntervalY_brackets this sub n i :
  (i < n)%nat -> inSubInterval this sub i = true ->
  (fst (getZoomIntervalY this sub n) <= i <= snd (getZoomIntervalY this sub n))%nat.
Proof.
  intros Hi Hin. destruct (getZoomIntervalY_inv this sub n) as [Hbr _].
  now apply Hbr.
Qed.

(** On a hit the pair is a range of the buffer: [from <= to < n]. *)
Lemma getZoomIntervalY_range this sub n j :
  (j < n)%nat -> inSubInterval this sub j = true ->
  (fst (getZoomIntervalY this sub n) <= snd (getZoomIntervalY this sub n) < n)%nat.
Proof.
  intros Hj Hin. destruct (getZoomIntervalY_inv this sub n) as [Hbr Hcase].
  destruct (getZoomIntervalY this sub n) as [from to]. simpl in *.
  destruct Hcase as [[_ Hnone] | (Hle & Hto & _)];
    [rewrite (Hnone j Hj) in Hin; discriminate | lia].
Qed.

(** ** Termination of the scan *)


(** The bound is tight: with [intervalSize] units of fuel or fewer the loop
    is cut short. *)
Lemma getZoomIntervalY_loop_out_of_fuel this sub n fuel :
  (fuel <= n)%nat -> getZoomIntervalY_loop this sub n fuel = None.
Proof.
  intros Hf. unfold getZoomIntervalY_loop.
  rewrite while_loop_out_of_fuel; [reflexivity | lia].
Qed.

(** ** The shape of the buffer *)

(** The buffer keeps its length: every update pushes one row and shifts
    one out, and what the tree was built over has the same length. *)
Theorem chart_run_length trace minX0 stepX0 (data0 : list (list T)) :
  length (data (chart_run trace (newChart minX0 stepX0 data0))) = length data0 /\
  length (tree (chart_run trace (newChart minX0 stepX0 data0))) = length data0.
Proof.
  rewrite (inv_tree _ (chart_inv_chart_run trace _
                         (chart_inv_newChart minX0 stepX0 data0))).
  rewrite chart_run_data, length_skipn, length_app. simpl. lia.
Qed.

(** ** A sample and its redraw *)

(** After a sample a redraw is scheduled: the tick runs the body. *)
Lemma tick_after_update this newData :
  chart_inv this ->
  exists proc,
    tickDrawNewData (updateChartWithNewData this newData)
    = drawNewDataBody
        (mkChart (minX this) (maxX this) (missedStepsCount this + 1) (stepX this)
                 (tl (data this ++ [newData])) (tl (data this ++ [newData]))
                 (xDomain this) (rxDomain this) (pathData this) proc).
Proof.
  intros H. unfold tickDrawNewData, updateChartWithNewData. cbn [drawNewData].
  pose proof (invoke_schedules (drawNewData this) tt (inv_throttle _ H)) as Hl.
  unfold timeout. destruct (timers (invoke (drawNewData this) tt)) as [| [] rest];
    [discriminate | eexists; reflexivity].
Qed.

(** What the redraw that follows a sample leaves: the first date and the
    domain of [rx] moved by the missed steps and one more, the buffer
    shifted by one row. *)
Lemma redraw_after_update this newData :
  chart_inv this ->
  let that := tickDrawNewData (updateChartWithNewData this newData) in
  minX that = calcDate this (missedStepsCount this + 1) (minX this) /\
  stepX that = stepX this /\
  data that = tl (data this ++ [newData]) /\
  rxDomain that
  = (calcDate this (missedStepsCount this + 1) (fst (rxDomain this)),
     calcDate this (missedStepsCount this + 1) (snd (rxDomain this))).
Proof.
  intros H. destruct (tick_after_update this newData H) as [proc ->].
  repeat split.
Qed.

(** ** Every sample is drawn in the end *)

Lemma settled_after_tick this :
  chart_inv this -> settled (tickDrawNewData this).
Proof.
  intros H. pose proof (tickDrawNewData_settles this H) as Hm.
  pose proof (chart_inv_tick this H) as H'.
  repeat split; [exact Hm | now apply inv_paths | now apply inv_rest].
Qed.

(** C27: Whatever updates arrive, once the redraw timer has ticked the chart
    has been at rest: no step missed, the paths drawn from the buffer, no
    redraw scheduled. *)
Theorem chart_eventually_settled trace this :
  chart_inv this -> In TickDraw trace ->
  eventually chart_step settled trace this.
Proof.
  intros H Hin. apply in_split in Hin. destruct Hin as (pre & post & ->).
  change (pre ++ TickDraw :: post) with (pre ++ [TickDraw] ++ post).
  rewrite app_assoc. apply eventually_prefix. rewrite fold_left_snoc.
  apply settled_after_tick. now apply chart_inv_chart_run.
Qed.

End ChartFacts.

(** ** Witnesses *)

Lemma redraw_coalescing_unobservable_witness :
  chart_run [Update [11; 12]; TickDraw] chart5
  = chart_run [Update [11; 12]; TickDraw; TickDraw] chart5.
Proof.
  apply (redraw_coalescing_unobservable
           [Update [11; 12]; TickDraw] [Update [11; 12]; TickDraw; TickDraw]
           chart5);
    [apply chart_inv_newChart | reflexivity | reflexivity | reflexivity].
Defined.

Lemma batched_redraw_eq_witness :
  chart_run (map Update [[11; 12]; [13; 14]] ++ [TickDraw]) chart5
  = chart_run (flat_map (fun d => [Update d; TickDraw]) [[11; 12]; [13; 14]])
              chart5.
Proof.
  apply (batched_redraw_eq [[11; 12]; [13; 14]] chart5);
    [apply chart_inv_newChart | reflexivity].
Defined.

Lemma getZoomIntervalY_hit_witness :
  let '(from, to) := getZoomIntervalY chart5 (15, 35) 5 in
  (from <= 2 <= to)%nat /\ (to < 5)%nat /\
  inSubInterval chart5 (15, 35) from = true /\
  inSubInterval chart5 (15, 35) to = true /\
  forall i, (i < 5)%nat -> inSubInterval chart5 (15, 35) i = true ->
            (from <= i <= to)%nat.
Proof.
  apply (getZoomIntervalY_hit chart5 (15, 35) 5 2); [lia | reflexivity].
Defined.

Lemma getZoomIntervalY_miss_witness :
  getZoomIntervalY chart5 (41, 50) 5 = (5, 0)%nat.
Proof.
  apply (getZoomIntervalY_miss chart5 (41, 50) 5).
  intros i Hi. do 5 (destruct i as [| i]; [reflexivity |]). lia.
Defined.

Lemma getZoomIntervalY_contiguous_witness :
  inSubInterval chart5 (15, 35) 3 = true.
Proof.
  apply (getZoomIntervalY_contiguous chart5 (15, 35) 5 2 3);
    [reflexivity | lia | reflexivity | vm_compute; lia].
Defined.


Lemma chart_eventually_settled_witness :
  eventually chart_step settled [Update [11; 12]; TickDraw; Update [13; 14]]
             chart5.
Proof.
  apply (chart_eventually_settled [Update [11; 12]; TickDraw; Update [13; 14]]
                                  chart5);
    [apply chart_inv_newChart | right; left; reflexivity].
Defined.
