(* ===== verification/SegmentTree.v ===== *)
(** * SegmentTree: the range-aggregation service

    [src/draw.ts] builds a [SegmentTree] over the buffer
    ([new SegmentTree(data, data.length, buildSegmentTreeTuple)]) and asks
    it for the minimum and the maximum of the rows between two positions
    ([tree.getMinMax(from, to)]).  The class is imported from a file that is
    not part of the sources; the specification (section 6) gives its
    contract: a query over a range of positions of the current sequence of
    samples answers with the minimum and the maximum of the rows in the
    range.

    This file holds the record [IMinMax] of the answers, the interface
    [RangeQuery] through which the chart consumes the service, its laws
    ([RangeQueryLaws]: a valid range is answered, and the answer depends on
    the rows of the range only), and a reference implementation that folds
    the leaf tuples of the rows, parametrised as the constructor is by the
    function that builds a leaf tuple.  A range is valid when
    [from <= to < size]; the contract says nothing of the others, and the
    reference does not answer them.

    Theorems: the reference satisfies the laws when the leaf tuple of a row
    depends on that row only; the answer over one row is its tuple; over a
    range cut in two it is the combination of the answers over the parts
    when minimum and maximum are associative, the decomposition a tree
    relies on; with an order that minimum and maximum respect, the
    answer bounds the tuple of every row of the range
    ([RangeQueryBounds]). *)

From Stdlib Require Import List Bool Arith Lia RelationClasses.
From S2P Require Import Prelude.
Import ListNotations.

Local Open Scope opt_scope.

Section SegmentTree.
Context {T : Type}.

(** The answer of a query, and the leaf tuple of a row. *)
Record IMinMax := mkMinMax {
  min : T;
  max : T
}.

(** The rows at the positions [fromPosition] to [toPosition], both
    included. *)
Definition slice {A} (l : list A) (fromPosition toPosition : nat) : list A :=
  firstn (S toPosition - fromPosition) (skipn fromPosition l).

(** The ranges the contract covers in a sequence of [size] rows. *)
Definition validRange (size fromPosition toPosition : nat) : bool :=
  (fromPosition <=? toPosition) && (toPosition <? size).

(** The service: [getMinMax elements from to] is what a tree built over
    [elements] answers to [getMinMax(from, to)]. *)
Class RangeQuery := {
  getMinMax : list (list T) -> nat -> nat -> option IMinMax
}.

(** Its contract. *)
Class RangeQueryLaws (Q : RangeQuery) : Prop := {
  getMinMax_valid elements fromPosition toPosition :
    validRange (length elements) fromPosition toPosition = true ->
    is_some (getMinMax elements fromPosition toPosition) = true;
  getMinMax_rows e1 e2 f1 t1 f2 t2 :
    validRange (length e1) f1 t1 = true ->
    validRange (length e2) f2 t2 = true ->
    slice e1 f1 t1 = slice e2 f2 t2 ->
    getMinMax e1 f1 t1 = getMinMax e2 f2 t2
}.

(** What the answers promise about the samples, the order [le] of the
    numbers and the leaf tuples being given: over a valid range the
    minimum of the answer is at or below the minimum of every row of the
    range, and its maximum at or above the maximum of every such row. *)
Class RangeQueryBounds (le : T -> T -> Prop) (tupleOfRow : list T -> IMinMax)
  (Q : RangeQuery) : Prop := {
  getMinMax_bounds elements fromPosition toPosition mm i :
    validRange (length elements) fromPosition toPosition = true ->
    getMinMax elements fromPosition toPosition = Some mm ->
    fromPosition <= i <= toPosition ->
    le (min mm) (min (tupleOfRow (nth i elements []))) /\
    le (max (tupleOfRow (nth i elements []))) (max mm)
}.

(** ** The reference implementation *)

Section Reference.
Context (tupleOfRow : list T -> IMinMax) (tmin tmax : T -> T -> T).

(** Two answers combined. *)
Definition buildMinMax (a b : IMinMax) : IMinMax :=
  mkMinMax (tmin (min a) (min b)) (tmax (max a) (max b)).

(** The tuples of a non-empty list of rows, combined from the left. *)
Definition aggregate (rows : list (list T)) : option IMinMax :=
  match rows with
  | [] => None
  | row :: rest =>
      Some (fold_left buildMinMax (map tupleOfRow rest) (tupleOfRow row))
  end.

Definition refGetMinMax (elements : list (list T))
  (fromPosition toPosition : nat) : option IMinMax :=
  if validRange (length elements) fromPosition toPosition
  then aggregate (slice elements fromPosition toPosition)
  else None.

End Reference.

End SegmentTree.

Arguments IMinMax T : clear implicits.
Arguments RangeQuery T : clear implicits.

(** The reference as an instance of the interface. *)
Definition refRangeQuery {T} (tupleOfRow : list T -> IMinMax T)
  (tmin tmax : T -> T -> T) : RangeQuery T :=
  {| getMinMax := refGetMinMax tupleOfRow tmin tmax |}.

Section SegmentTreeFacts.
Context {T : Type}.
Implicit Types (elements rows : list (list T)) (a b c : IMinMax T).

(** ** Ranges and slices *)

Lemma validRange_spec size fromPosition toPosition :
  validRange size fromPosition toPosition = true <->
  fromPosition <= toPosition < size.
Proof.
  unfold validRange. rewrite andb_true_iff, Nat.leb_le, Nat.ltb_lt. tauto.
Qed.

Lemma slice_length {A} (l : list A) f t :
  f <= t < length l -> length (slice l f t) = S t - f.
Proof.
  intros H. unfold slice. rewrite length_firstn, length_skipn. lia.
Qed.

Lemma slice_single {A} (l : list A) i d :
  i < length l -> slice l i i = [nth i l d].
Proof.
  intros H. unfold slice. replace (S i - i) with 1 by lia.
  rewrite (skipn_nth_cons l i d H). reflexivity.
Qed.

(** A range cut after position [k]. *)
Lemma slice_split {A} (l : list A) f k t :
  f <= k -> k < t ->
  slice l f t = slice l f k ++ slice l (S k) t.
Proof.
  intros Hf Ht. unfold slice.
  replace (S t - f) with ((S k - f) + (S t - S k)) by lia.
  rewrite firstn_add, skipn_skipn. do 3 f_equal. lia.
Qed.

(** The rows of a range after [k] rows were dropped in front. *)
Lemma slice_skipn {A} (l : list A) k f t :
  slice (skipn k l) f t = slice l (f + k) (t + k).
Proof.
  unfold slice. rewrite skipn_skipn. f_equal. lia.
Qed.

(** A row at a position of the range is in the slice. *)
Lemma slice_In {A} (l : list A) f t i d :
  f <= t < length l -> f <= i <= t -> In (nth i l d) (slice l f t).
Proof.
  intros Hl Hi. unfold slice.
  replace i with (f + (i - f)) by lia. rewrite <- nth_skipn.
  rewrite <- (firstn_skipn (S t - f) (skipn f l)) at 1.
  rewrite app_nth1 by (rewrite length_firstn, length_skipn; lia).
  apply nth_In. rewrite length_firstn, length_skipn. lia.
Qed.

Lemma slice_nonempty {A} (l : list A) f t :
  f <= t < length l -> slice l f t <> [].
Proof.
  intros H E. pose proof (slice_length l f t H) as L.
  rewrite E in L. cbn [length] in L. lia.
Qed.

(** ** The reference *)

Section ReferenceFacts.
Context (tupleOfRow : list T -> IMinMax T) (tmin tmax : T -> T -> T).
Local Notation "'combine'" := (buildMinMax tmin tmax).
Local Notation "'agg'" := (aggregate tupleOfRow tmin tmax).
Local Notation "'query'" := (refGetMinMax tupleOfRow tmin tmax).

Lemma aggregate_is_some rows : rows <> [] -> is_some (agg rows) = true.
Proof. destruct rows; [congruence | reflexivity]. Qed.

(** An invariant of tuples kept by the combination holds of the answer. *)
Lemma aggregate_invariant (P : IMinMax T -> Prop) rows mm :
  (forall row, In row rows -> P (tupleOfRow row)) ->
  (forall a b, P a -> P b -> P (combine a b)) ->
  agg rows = Some mm -> P mm.
Proof.
  intros Hrow Hc. destruct rows as [| row rest]; [discriminate |].
  simpl. intros E. inv E.
  assert (P (tupleOfRow row)) as H0 by (apply Hrow; now left).
  assert (forall r, In r rest -> P (tupleOfRow r)) as Hrest
    by (intros r Hin; apply Hrow; now right).
  clear Hrow. revert H0 Hrest. generalize (tupleOfRow row).
  induction rest as [| r rest IH]; intros acc Hacc Hrest; simpl; [exact Hacc |].
  apply IH; [apply Hc; [exact Hacc | apply Hrest; now left] |].
  intros r' Hin. apply Hrest. now right.
Qed.

Lemma refGetMinMax_valid elements f t :
  validRange (length elements) f t = true ->
  query elements f t = agg (slice elements f t).
Proof. intros H. unfold refGetMinMax. now rewrite H. Qed.

Lemma refGetMinMax_invalid elements f t :
  validRange (length elements) f t = false -> query elements f t = None.
Proof. intros H. unfold refGetMinMax. now rewrite H. Qed.

(** The answer over one row is its tuple. *)
Lemma refGetMinMax_single elements i :
  i < length elements ->
  query elements i i = Some (tupleOfRow (nth i elements [])).
Proof.
  intros H. rewrite refGetMinMax_valid
    by (apply validRange_spec; lia).
  now rewrite (slice_single elements i [] H).
Qed.

(** The reference satisfies the contract. *)
Lemma refRangeQuery_laws :
  RangeQueryLaws (refRangeQuery tupleOfRow tmin tmax).
Proof.
  split; simpl.
  - intros elements f t H. rewrite (refGetMinMax_valid _ _ _ H).
    apply aggregate_is_some, slice_nonempty. now apply validRange_spec.
  - intros e1 e2 f1 t1 f2 t2 H1 H2 E.
    now rewrite (refGetMinMax_valid _ _ _ H1), (refGetMinMax_valid _ _ _ H2), E.
Qed.

(** With associative minimum and maximum the answer over a range is the
    combination of the answers over its two parts. *)
Section Associative.
Hypothesis tmin_assoc : forall x y z, tmin x (tmin y z) = tmin (tmin x y) z.
Hypothesis tmax_assoc : forall x y z, tmax x (tmax y z) = tmax (tmax x y) z.

Lemma buildMinMax_assoc a b c :
  combine a (combine b c) = combine (combine a b) c.
Proof.
  unfold buildMinMax. simpl. now rewrite tmin_assoc, tmax_assoc.
Qed.

Lemma fold_buildMinMax_app (l1 l2 : list (IMinMax T)) a b :
  fold_left combine (l1 ++ b :: l2) a
  = combine (fold_left combine l1 a) (fold_left combine l2 b).
Proof.
  rewrite fold_left_app. simpl. generalize (fold_left combine l1 a) as x.
  revert b. induction l2 as [| c l2 IH]; intros b x; simpl; [reflexivity |].
  rewrite IH, <- buildMinMax_assoc. now rewrite <- IH.
Qed.

Lemma aggregate_app rows1 rows2 a b :
  agg rows1 = Some a -> agg rows2 = Some b ->
  agg (rows1 ++ rows2) = Some (combine a b).
Proof.
  destruct rows1 as [| r1 rest1]; [discriminate |].
  destruct rows2 as [| r2 rest2]; [discriminate |].
  simpl. intros E1 E2. inv E1. inv E2.
  now rewrite map_app, map_cons, fold_buildMinMax_app.
Qed.

Lemma refGetMinMax_split elements f k t a b :
  f <= k -> k < t -> t < length elements ->
  query elements f k = Some a -> query elements (S k) t = Some b ->
  query elements f t = Some (combine a b).
Proof.
  intros Hf Hk Ht.
  rewrite !refGetMinMax_valid by (apply validRange_spec; lia).
  rewrite (slice_split elements f k t Hf Hk). apply aggregate_app.
Qed.

End Associative.

(** With an order that minimum and maximum respect, the answer bounds
    the tuple of every row of the range. *)
Section Bounded.
Context (le : T -> T -> Prop) {le_pre : PreOrder le}.
Hypothesis tmin_le_l : forall x y, le (tmin x y) x.
Hypothesis tmin_le_r : forall x y, le (tmin x y) y.
Hypothesis tmax_le_l : forall x y, le x (tmax x y).
Hypothesis tmax_le_r : forall x y, le y (tmax x y).

(** [covers mm a]: the answer [mm] bounds the tuple [a]. *)
Local Notation "'covers' mm a" := (le (min mm) (min a) /\ le (max a) (max mm))
  (at level 10, mm at level 9, a at level 9).

Lemma fold_buildMinMax_covers (l : list (IMinMax T)) acc x :
  x = acc \/ In x l -> covers (fold_left combine l acc) x.
Proof.
  revert acc x. induction l as [| y l IH]; intros acc x H; simpl.
  - destruct H as [-> | []]. split; reflexivity.
  - assert (forall z, z = acc \/ z = y ->
                      covers (fold_left combine l (combine acc y)) z) as Hz.
    { intros z Hz. destruct (IH (combine acc y) (combine acc y) (or_introl eq_refl))
        as [H1 H2].
      split; [etransitivity; [exact H1 |] | etransitivity; [| exact H2]];
        destruct Hz as [-> | ->]; simpl; auto. }
    destruct H as [-> | [-> | Hin]]; auto.
Qed.

Lemma aggregate_covers rows mm row :
  agg rows = Some mm -> In row rows -> covers mm (tupleOfRow row).
Proof.
  destruct rows as [| r rest]; [discriminate |]. simpl. intros E Hin. inv E.
  apply fold_buildMinMax_covers. destruct Hin as [-> | Hin]; [now left |].
  right. now apply in_map.
Qed.

Lemma refRangeQuery_bounds :
  RangeQueryBounds le tupleOfRow (refRangeQuery tupleOfRow tmin tmax).
Proof.
  split. simpl. intros elements f t mm i Hv E Hi.
  rewrite (refGetMinMax_valid _ _ _ Hv) in E.
  apply (aggregate_covers _ _ _ E). apply validRange_spec in Hv.
  now apply slice_In.
Qed.

End Bounded.

End ReferenceFacts.

End SegmentTreeFacts.

#[export] Hint Resolve refRangeQuery_laws : svg.
