(* ===== verification/Viewport.v ===== *)
(** * Viewport: the viewport mapper and the pan of the benchmark

    The viewport mapper ([ViewWindowTransform] in the sources that use it)
    is not among the repository's files; it is modelled from section 4.3 of
    the specification.  Per axis it owns a viewport basis (pixels) and a
    window basis (model units) and stores the transform from model to
    screen, [betweenTBasesAR1 window viewport], and its [inverse]; both are
    recomputed by every setter.  Before both bases are set the axis is
    uninitialised and the conversions fail ([None]).  Beside that mapper
    stands the alternative that the sources suggest ([bPlaceholder] is
    exported and used by nothing under [src/]): a mapper whose bases start
    as placeholders, which converts from the start.

    [vecToModel] and [draw] are code of
    [src/benchmarks/d3-pan-zoom-vwt/index.ts]: clients of the mapper, proved
    against what the mapper promises.

    Theorems: the stored transforms are never stale (an invariant of every
    trace of setters); an axis is ready exactly when both setters were
    called; conversions round-trip and send the ends of the window to the
    ends of the viewport, and what lies in the window into the viewport (on
    an axis and through the matrix); the model length of a pixel offset does
    not depend on where the offset starts; the pan keeps the width of the
    window and moves the model origin by the pan, from any window [2 * rr]
    wide; the benchmark's first [draw] runs before any window is set on
    the mapper of the specification, and returns on placeholder bases. *)

From Stdlib Require Import List QArith.
From S2P Require Import Prelude Numeric Order SVGMatrix Affine Basis.
Import ListNotations.

Local Open Scope num_scope.
Local Open Scope opt_scope.

Section Mapper.
Context {T : Type} {ops : NumOps T}.

(** ** One axis *)

Record AxisMapper := mkAxisMapper {
  viewport : option (AR1Basis T);
  window : option (AR1Basis T);
  modelToScreen : option (AR1 T);
  screenToModel : option (AR1 T)
}.

(** A new mapper: nothing is set. *)
Definition newAxisMapper : AxisMapper := mkAxisMapper None None None None.

(** The transforms of a pair of bases, once both are there. *)
Definition recompute (vp w : option (AR1Basis T))
  : option (AR1 T) * option (AR1 T) :=
  match vp, w with
  | Some v, Some w' =>
      let t := betweenTBasesAR1 w' v in (Some t, Some (inverse t))
  | _, _ => (None, None)
  end.

Definition setViewport (this : AxisMapper) (minPixel maxPixel : T) : AxisMapper :=
  let vp := Some (mkAR1Basis minPixel maxPixel) in
  mkAxisMapper vp (window this)
               (fst (recompute vp (window this)))
               (snd (recompute vp (window this))).

Definition setWindow (this : AxisMapper) (minModel maxModel : T) : AxisMapper :=
  let w := Some (mkAR1Basis minModel maxModel) in
  mkAxisMapper (viewport this) w
               (fst (recompute (viewport this) w))
               (snd (recompute (viewport this) w)).

Definition toScreen (this : AxisMapper) (modelPoint : T) : option T :=
  t <- modelToScreen this ;; Some (applyToPoint t modelPoint).

Definition toModel (this : AxisMapper) (screenPoint : T) : option T :=
  t <- screenToModel this ;; Some (applyToPoint t screenPoint).

(** The model length of a pixel offset: the offset point and the origin are
    both converted and subtracted. *)
Definition modelDelta (this : AxisMapper) (screenDelta : T) : option T :=
  m1 <- toModel this screenDelta ;;
  m0 <- toModel this 0 ;;
  Some (m1 - m0).

(** The states of the specification. *)
Definition ready (this : AxisMapper) : bool :=
  match viewport this, window this with
  | Some _, Some _ => true
  | _, _ => false
  end.

Inductive mapper_event :=
| SetViewport (minPixel maxPixel : T)
| SetWindow (minModel maxModel : T).

Definition mapper_step (this : AxisMapper) (e : mapper_event) : AxisMapper :=
  match e with
  | SetViewport a b => setViewport this a b
  | SetWindow a b => setWindow this a b
  end.

Definition mapper_run (trace : list mapper_event) (this : AxisMapper)
  : AxisMapper :=
  fold_left mapper_step trace this.

Definition is_SetViewport (e : mapper_event) : bool :=
  match e with SetViewport _ _ => true | _ => false end.

Definition is_SetWindow (e : mapper_event) : bool :=
  match e with SetWindow _ _ => true | _ => false end.

(** No stale transform: the stored pair is the one of the current bases. *)
Definition mapper_inv (this : AxisMapper) : Prop :=
  (modelToScreen this, screenToModel this)
  = recompute (viewport this) (window this).

(** ** Two axes *)

Record ViewWindowTransform := mkVWT {
  axisX : AxisMapper;
  axisY : AxisMapper;
  matrix : SVGMatrix T
}.

(** The matrix handed to the rendering layer: the transforms of both axes
    appended to the identity, once both axes are ready. *)
Definition updateMatrix (ax ay : AxisMapper) : SVGMatrix T :=
  match modelToScreen ax, modelToScreen ay with
  | Some tx, Some ty => applyToMatrixY ty (applyToMatrixX tx identityMatrix)
  | _, _ => identityMatrix
  end.

Definition newViewWindowTransform : ViewWindowTransform :=
  mkVWT newAxisMapper newAxisMapper identityMatrix.

(** A mapper that starts from placeholder bases instead of none: the
    alternative to [newViewWindowTransform] under which conversions
    answer before a window is set ([bPlaceholder] of
    [src/viewZoomTransform.ts]: "some basis is often needed"). *)
Definition placeholderAxisMapper : AxisMapper :=
  let b := Some bPlaceholder in
  mkAxisMapper b b (fst (recompute b b)) (snd (recompute b b)).

Definition placeholderViewWindowTransform : ViewWindowTransform :=
  mkVWT placeholderAxisMapper placeholderAxisMapper
        (updateMatrix placeholderAxisMapper placeholderAxisMapper).

(** [setViewPort(width, height)]: the pixel bases start at 0. *)
Definition setViewPort (this : ViewWindowTransform) (width height : T)
  : ViewWindowTransform :=
  let ax := setViewport (axisX this) 0 width in
  let ay := setViewport (axisY this) 0 height in
  mkVWT ax ay (updateMatrix ax ay).

Definition setViewWindow (this : ViewWindowTransform) (x1 x2 y1 y2 : T)
  : ViewWindowTransform :=
  let ax := setWindow (axisX this) x1 x2 in
  let ay := setWindow (axisY this) y1 y2 in
  mkVWT ax ay (updateMatrix ax ay).

(** Each axis is converted independently. *)
Definition fromScreenToModel (this : ViewWindowTransform) (p : T * T)
  : option (T * T) :=
  x <- toModel (axisX this) (fst p) ;;
  y <- toModel (axisY this) (snd p) ;;
  Some (x, y).

Definition fromModelToScreen (this : ViewWindowTransform) (p : T * T)
  : option (T * T) :=
  x <- toScreen (axisX this) (fst p) ;;
  y <- toScreen (axisY this) (snd p) ;;
  Some (x, y).

(** ** The benchmark *)

(** [const rr = 500]: half the side of the window the benchmark shows. *)
Definition rr : T := nofZ 500.

(** The point [zero] of the benchmark. *)
Definition zero : T * T := (0, 0).

(** [vecToModel(screenVector)]: the model vector of a screen vector, as the
    difference of the images of the vector and of [zero]. *)
Definition vecToModel (t : ViewWindowTransform) (screenVector : T * T)
  : option (T * T) :=
  m1 <- fromScreenToModel t screenVector ;;
  m2 <- fromScreenToModel t zero ;;
  Some (fst m1 - fst m2, snd m1 - snd m2).

(** The procedure wrapped by [draw]: the window of side [2 * rr] is moved
    against the pan [newZoomX]. *)
Definition draw (t : ViewWindowTransform) (newZoomX : T)
  : option ViewWindowTransform :=
  let screenVector := (newZoomX, 0) in
  modelVector <- vecToModel t screenVector ;;
  Some (setViewWindow t (- rr - fst modelVector) (rr - fst modelVector)
                        (- rr - snd modelVector) (rr - snd modelVector)).

(** A transform over a square view port of side [w] whose windows have
    two distinct ends each, and one whose horizontal window is [2 * rr]
    wide. *)
Definition windowed {fld : NumField T} (w : T) (t : ViewWindowTransform)
  : Prop :=
  exists x1 x2 y1 y2,
    ~ x1 == x2 /\ ~ y1 == y2 /\
    t = setViewWindow (setViewPort newViewWindowTransform w w) x1 x2 y1 y2.

Definition wide {fld : NumField T} (w : T) (t : ViewWindowTransform) : Prop :=
  exists x1 x2 y1 y2,
    x2 - x1 == rr + rr /\ ~ y1 == y2 /\
    t = setViewWindow (setViewPort newViewWindowTransform w w) x1 x2 y1 y2.

End Mapper.

Arguments AxisMapper T : clear implicits.
Arguments mapper_event T : clear implicits.
Arguments ViewWindowTransform T : clear implicits.

(** [mapper_crush]: open mappers and their options and unfold the
    operations down to the transforms between bases. *)
Ltac mapper_crush :=
  unfold draw, vecToModel, fromScreenToModel, fromModelToScreen,
    setViewWindow, setViewPort, newViewWindowTransform, updateMatrix,
    modelDelta, toModel,
    toScreen, setWindow, setViewport, newAxisMapper, recompute, ready,
    mapper_inv, zero, obind in *;
  simpl in *.

(** [opt_is o v]: the conversion succeeded with a value equal to [v]. *)
Definition opt_is (o : option Q) (v : Q) : Prop :=
  match o with
  | Some x => x == v
  | None => False
  end.

(** The mapper of the scenarios of the specification: viewport
    [(0, 800)], window [(-500, 500)]. *)
Definition scenarioMapper : AxisMapper Q :=
  setWindow (setViewport newAxisMapper 0 800) (- (500)) 500.

Section MapperFacts.
Context {T : Type} {ops : NumOps T} {fld : NumField T}.
Add Field mapper_field : nfield_th (setoid neq_equiv num_ring_ext).
Implicit Types (this : AxisMapper T) (e : mapper_event T)
  (trace : list (mapper_event T)) (x y a b c d : T).

(** ** The state machine *)

Lemma mapper_inv_new : mapper_inv (@newAxisMapper T).
Proof. reflexivity. Qed.

Lemma mapper_inv_step this e : mapper_inv (mapper_step this e).
Proof.
  destruct e; unfold mapper_inv; simpl; symmetry; apply surjective_pairing.
Qed.

(** After every trace of setters the stored transforms are those of the
    current viewport and window: no stale transform can be observed. *)
Theorem mapper_inv_run trace :
  mapper_inv (mapper_run trace newAxisMapper).
Proof.
  unfold mapper_run. apply fold_left_invariant.
  - intros s e _. apply mapper_inv_step.
  - apply mapper_inv_new.
Qed.

Lemma mapper_step_viewport this e :
  is_some (viewport (mapper_step this e))
  = is_some (viewport this) || is_SetViewport e.
Proof. destruct e; simpl; now rewrite ?Bool.orb_true_r, ?Bool.orb_false_r. Qed.

Lemma mapper_step_window this e :
  is_some (window (mapper_step this e))
  = is_some (window this) || is_SetWindow e.
Proof. destruct e; simpl; now rewrite ?Bool.orb_true_r, ?Bool.orb_false_r. Qed.

Lemma mapper_run_bases trace this :
  is_some (viewport (mapper_run trace this))
  = is_some (viewport this) || existsb is_SetViewport trace /\
  is_some (window (mapper_run trace this))
  = is_some (window this) || existsb is_SetWindow trace.
Proof.
  revert this. induction trace as [| e trace IH]; intros this; simpl.
  - now rewrite !Bool.orb_false_r.
  - destruct (IH (mapper_step this e)) as [IHv IHw].
    unfold mapper_run in *. simpl. rewrite IHv, IHw.
    now rewrite mapper_step_viewport, mapper_step_window, !Bool.orb_assoc.
Qed.

Lemma ready_is_some this :
  ready this = is_some (viewport this) && is_some (window this).
Proof. unfold ready. now destruct (viewport this), (window this). Qed.

(** An axis is ready exactly when both setters have been called, in any
    order and any number of times; there is no way back. *)
Theorem ready_iff_both_set trace :
  ready (mapper_run trace (@newAxisMapper T))
  = existsb is_SetViewport trace && existsb is_SetWindow trace.
Proof.
  rewrite ready_is_some.
  now destruct (mapper_run_bases trace newAxisMapper) as [-> ->].
Qed.

(** Conversions fail until the axis is ready, and succeed from then on. *)
Theorem toModel_ready this x :
  mapper_inv this ->
  (toModel this x <> None <-> ready this = true) /\
  (toScreen this x <> None <-> ready this = true).
Proof.
  unfold mapper_inv, toModel, toScreen, ready, recompute.
  destruct this as [[v |] [w |] f b]; simpl; intros E; inv E; simpl;
    split; split; congruence.
Qed.

(** ** Conversions of a ready axis *)

(** The ends of the window are drawn at the ends of the viewport. *)
Theorem toScreen_window_ends this a b c d :
  ~ c == d ->
  toScreen (setWindow (setViewport this a b) c d) c
  = Some (applyToPoint (betweenBasesAR1 (c, d) (a, b)) c) /\
  applyToPoint (betweenBasesAR1 (c, d) (a, b)) c == a /\
  applyToPoint (betweenBasesAR1 (c, d) (a, b)) d == b.
Proof.
  intros H. split; [reflexivity |]. basis_crush. split; nfield.
Qed.

(** Screen to model and back, on a ready axis with proper bases. *)
Theorem toModel_toScreen this a b c d x :
  ~ a == b -> ~ c == d ->
  exists s m',
    toScreen (setWindow (setViewport this a b) c d) x = Some s /\
    toModel (setWindow (setViewport this a b) c d) s = Some m' /\
    m' == x.
Proof.
  intros Hv Hw. eexists. eexists. split; [reflexivity |].
  split; [reflexivity |].
  apply applyToPoint_inverse. now apply betweenBasesAR1_invertible.
Qed.

(** C40: The model length of a pixel offset is the offset times the ratio of
    the window to the viewport, wherever the offset starts. *)
Theorem modelDelta_invariant this a b c d delta start :
  ~ a == b -> ~ c == d ->
  exists md m1 m0,
    modelDelta (setWindow (setViewport this a b) c d) delta = Some md /\
    toModel (setWindow (setViewport this a b) c d) (start + delta) = Some m1 /\
    toModel (setWindow (setViewport this a b) c d) start = Some m0 /\
    md == m1 - m0 /\
    md == delta * ((d - c) / (b - a)).
Proof.
  intros Hv Hw. do 3 eexists. repeat (split; [reflexivity |]).
  basis_crush. split; nfield.
Qed.

(** Only the latest window counts. *)
Theorem setWindow_latest this a b c d :
  setWindow (setWindow this a b) c d = setWindow this c d.
Proof. reflexivity. Qed.

(** ** The benchmark's pan *)

(** [vecToModel] scales the screen vector by the ratios of the windows to
    the viewports: the offsets of the transforms cancel. *)
Lemma vecToModel_scales (t : ViewWindowTransform T) w h x1 x2 y1 y2 vx vy :
  ~ w == 0 -> ~ h == 0 -> ~ x1 == x2 -> ~ y1 == y2 ->
  exists mv,
    vecToModel (setViewWindow (setViewPort t w h) x1 x2 y1 y2) (vx, vy)
    = Some mv /\
    fst mv == vx * ((x2 - x1) / w) /\ snd mv == vy * ((y2 - y1) / h).
Proof.
  intros Hw Hh Hx Hy. eexists. split; [reflexivity |].
  simpl. basis_crush. split; nfield.
Qed.

(** A pan from any window [2 * rr] wide. *)
Lemma draw_pans_wide (t : ViewWindowTransform T) w h x1 x2 y1 y2 z :
  ~ w == 0 -> ~ h == 0 -> ~ rr + rr == (0 : T) ->
  x2 - x1 == rr + rr -> ~ y1 == y2 ->
  exists mx my s,
    draw (setViewWindow (setViewPort t w h) x1 x2 y1 y2) z
    = Some (setViewWindow (setViewPort t w h)
                          (- rr - mx) (rr - mx) (- rr - my) (rr - my)) /\
    my == 0 /\
    toScreen (axisX (setViewWindow (setViewPort t w h)
                                   (- rr - mx) (rr - mx) (- rr - my) (rr - my))) 0
    = Some s /\
    s + s == w + (z + z).
Proof.
  intros Hw Hh Hr Ex Hy.
  assert (~ x1 == x2) as Hx.
  { intros E. apply Hr. rewrite <- Ex, E. ring. }
  destruct (vecToModel_scales t w h x1 x2 y1 y2 z 0 Hw Hh Hx Hy)
    as ([mx my] & Emv & Hmx & Hmy).
  unfold draw. rewrite Emv. simpl in Hmx, Hmy.
  exists mx, my. eexists. split; [reflexivity |].
  split; [rewrite Hmy; ring |]. split; [reflexivity |].
  assert (~ - rr - mx - (rr - mx) == 0) as Hside.
  { intros E. apply Hr.
    transitivity (- (- rr - mx - (rr - mx))); [ring | rewrite E; ring]. }
  transitivity (w + (mx * (w / (rr + rr)) + mx * (w / (rr + rr)))).
  - basis_crush. nfield.
  - rewrite Hmx, Ex. nfield.
Qed.

(** C37: A pan by [z] pixels leaves the window [2 * rr] wide, leaves the
    vertical window at [(-rr, rr)], and draws the model origin [z] pixels
    from the centre of the viewport: twice its screen abscissa is
    [w + 2 * z]. *)
Theorem draw_pans (t : ViewWindowTransform T) w h x1 z :
  ~ w == 0 -> ~ h == 0 -> ~ rr + rr == (0 : T) ->
  exists t' wx wy s,
    draw (setViewWindow (setViewPort t w h) x1 (x1 + (rr + rr)) (- rr) rr) z
    = Some t' /\
    window (axisX t') = Some wx /\ window (axisY t') = Some wy /\
    p2 wx - p1 wx == rr + rr /\
    basis_eq wy (mkAR1Basis (- rr) rr) /\
    toScreen (axisX t') 0 = Some s /\
    s + s == w + (z + z).
Proof.
  intros Hw Hh Hr.
  assert (~ (- rr : T) == rr) as Hy.
  { intros E. apply Hr. rewrite <- E at 1. ring. }
  assert (x1 + (rr + rr) - x1 == rr + rr) as Ex by ring.
  destruct (draw_pans_wide t w h x1 (x1 + (rr + rr)) (- rr) rr z Hw Hh Hr Ex Hy)
    as (mx & my & s & Ed & Hmy & Es & Hs).
  rewrite Ed. do 4 eexists. repeat (split; [reflexivity |]).
  cbn [setViewWindow axisX axisY window setWindow p1 p2].
  split; [ring |]. split; [split; simpl; rewrite Hmy; ring |].
  split; [exact Es | exact Hs].
Qed.

(** ** A mapper that starts from placeholder bases *)

(** The view port set on such a mapper: the windows are the unit basis. *)
Lemma placeholder_setViewPort (w : T) :
  setViewPort placeholderViewWindowTransform w w
  = setViewWindow (setViewPort newViewWindowTransform w w) 0 1 0 1.
Proof. reflexivity. Qed.

Lemma windowed_placeholder (w : T) :
  windowed w (setViewPort placeholderViewWindowTransform w w).
Proof.
  exists 0, 1, 0, 1. repeat split; auto using placeholder_setViewPort;
    intros E; apply (none_neq0 (T := T)); now symmetry.
Qed.

Lemma wide_windowed (w : T) t : ~ rr + rr == (0 : T) -> wide w t -> windowed w t.
Proof.
  intros Hr (x1 & x2 & y1 & y2 & Ex & Hy & ->). exists x1, x2, y1, y2.
  repeat split; auto. intros E. apply Hr. rewrite <- Ex, E. ring.
Qed.

(** On a transform with windows [draw] returns, and leaves a horizontal
    window [2 * rr] wide. *)
Lemma draw_windowed (t : ViewWindowTransform T) w z :
  ~ w == 0 -> ~ rr + rr == (0 : T) -> windowed w t ->
  exists t', draw t z = Some t' /\ wide w t'.
Proof.
  intros Hw Hr (x1 & x2 & y1 & y2 & Hx & Hy & ->).
  destruct (vecToModel_scales newViewWindowTransform w w x1 x2 y1 y2 z 0
                              Hw Hw Hx Hy) as ([mx my] & Emv & _ & Hmy).
  unfold draw. rewrite Emv. simpl in Hmy. eexists. split; [reflexivity |].
  exists (- rr - mx), (rr - mx), (- rr - my), (rr - my).
  repeat split; [ring |].
  intros E. apply Hr.
  transitivity (rr - my - (- rr - my)); [ring | rewrite <- E; ring].
Qed.

(** The benchmark calls [draw] once before any window is set: on the
    mapper of the specification that conversion fails. *)
Theorem draw_before_window (w : T) z :
  draw (setViewPort newViewWindowTransform w w) z = None.
Proof. reflexivity. Qed.

(** ** The matrix of the rendering layer *)

(** Once both axes are ready the matrix sends a model point where
    [fromModelToScreen] sends it. *)
Theorem matrix_fromModelToScreen (t : ViewWindowTransform T) w h x1 x2 y1 y2 x y :
  exists sx sy,
    fromModelToScreen (setViewWindow (setViewPort t w h) x1 x2 y1 y2) (x, y)
    = Some (sx, sy) /\
    neq2 (matrixTransform
            (matrix (setViewWindow (setViewPort t w h) x1 x2 y1 y2)) (x, y))
         (sx, sy).
Proof.
  do 2 eexists. split; [reflexivity |].
  unfold setViewWindow, setViewPort, updateMatrix. simpl.
  rewrite applyToMatrixY_spec, applyToMatrixX_spec.
  apply matrixTransform_identity.
Qed.

End MapperFacts.

(** ** Bounds *)

Section MapperBounds.
Context {T : Type} {ops : NumOps T} {fld : NumField T} {ord : NumOrder T}.
Implicit Types (this : AxisMapper T) (t : ViewWindowTransform T)
  (a b c d x p : T).

(** What lies in the window is drawn in the viewport: on an axis with the
    viewport [(a, b)] and the window [(c, d)], a model point between [c]
    and [d] has its pixel between [a] and [b]. *)
Lemma toScreen_between this a b c d x :
  ~ c == d -> between c d x ->
  exists p, toScreen (setWindow (setViewport this a b) c d) x = Some p /\
            between a b p.
Proof.
  intros H Hx. eexists. split; [reflexivity |].
  now apply betweenBasesAR1_between.
Qed.

(** And back: a pixel of the viewport is a model point of the window. *)
Lemma toModel_between this a b c d p :
  ~ a == b -> ~ c == d -> between a b p ->
  exists x, toModel (setWindow (setViewport this a b) c d) p = Some x /\
            between c d x.
Proof.
  intros Hab Hcd Hp. eexists. split; [reflexivity |].
  unfold betweenTBasesAR1, toArr. simpl.
  rewrite (betweenBasesAR1_inverse c d a b Hcd Hab).
  now apply betweenBasesAR1_between.
Qed.

(** Both axes: a point of the view window is drawn inside the view port,
    whose pixel bases start at 0. *)
Theorem fromModelToScreen_in_viewport t w h x1 x2 y1 y2 x y :
  ~ x1 == x2 -> ~ y1 == y2 -> between x1 x2 x -> between y1 y2 y ->
  exists px py,
    fromModelToScreen (setViewWindow (setViewPort t w h) x1 x2 y1 y2) (x, y)
    = Some (px, py) /\
    between 0 w px /\ between 0 h py.
Proof.
  intros Hx Hy Bx By. do 2 eexists. split; [reflexivity |].
  split; now apply betweenBasesAR1_between.
Qed.

(** The same of the matrix handed to the rendering layer: it draws the
    points of the view window inside the view port. *)
Lemma matrix_in_viewport t w h x1 x2 y1 y2 x y :
  ~ x1 == x2 -> ~ y1 == y2 -> between x1 x2 x -> between y1 y2 y ->
  let p := matrixTransform
             (matrix (setViewWindow (setViewPort t w h) x1 x2 y1 y2)) (x, y) in
  between 0 w (fst p) /\ between 0 h (snd p).
Proof.
  intros Hx Hy Bx By.
  destruct (matrix_fromModelToScreen t w h x1 x2 y1 y2 x y)
    as (sx & sy & E & [E1 E2]).
  destruct (fromModelToScreen_in_viewport t w h x1 x2 y1 y2 x y Hx Hy Bx By)
    as (px & py & E' & Hpx & Hpy).
  rewrite E in E'. inv E'. simpl in E1, E2. simpl.
  now rewrite E1, E2.
Qed.

End MapperBounds.

(** ** The scenarios of the specification *)

(** Viewport [(0, 800)], window [(-500, 500)]: the model origin is at pixel
    400, the low end of the window at pixel 0, pixel 800 is model 500, and
    80 pixels are 100 model units. *)
Theorem scenario_conversions :
  opt_is (toScreen scenarioMapper 0) 400 /\
  opt_is (toScreen scenarioMapper (- (500))) 0 /\
  opt_is (toModel scenarioMapper 800) 500 /\
  opt_is (modelDelta scenarioMapper 80) 100.
Proof. vm_compute. repeat split. Qed.

(** After two calls of [setWindow] only the second window is seen. *)
Theorem scenario_latest_window :
  opt_is (toScreen (setWindow scenarioMapper 0 1000) 0) 0 /\
  opt_is (toScreen (setWindow scenarioMapper 0 1000) 1000) 800.
Proof. vm_compute. repeat split. Qed.

(** ** Witnesses *)

Lemma Q800 : ~ ((0 : Q) == 800)%num.
Proof. apply Qneq_by_eval. reflexivity. Defined.

Lemma Q500 : ~ ((- (500) : Q) == 500)%num.
Proof. apply Qneq_by_eval. reflexivity. Defined.

Lemma modelDelta_invariant_witness :
  exists md m1 m0,
    modelDelta scenarioMapper 80 = Some md /\
    toModel scenarioMapper (200 + 80)%Q = Some m1 /\
    toModel scenarioMapper 200 = Some m0 /\
    (md == m1 - m0)%num /\
    (md == 80 * ((500 - - (500)) / (800 - 0)))%num.
Proof.
  exact (modelDelta_invariant newAxisMapper 0 800 (- (500)) 500 80 200
                              Q800 Q500).
Defined.

Lemma toModel_toScreen_witness :
  exists s m',
    toScreen scenarioMapper 250 = Some s /\
    toModel scenarioMapper s = Some m' /\ (m' == 250)%num.
Proof.
  exact (toModel_toScreen newAxisMapper 0 800 (- (500)) 500 250 Q800 Q500).
Defined.

Lemma Q800_0 : ~ ((800 : Q) == 0)%num.
Proof. apply Qneq_by_eval. reflexivity. Defined.

Lemma Qrr : ~ ((rr + rr : Q) == 0)%num.
Proof. apply Qneq_by_eval. reflexivity. Defined.

Lemma draw_pans_witness :
  exists t' wx wy s,
    draw (setViewWindow (setViewPort newViewWindowTransform 800%Q 800%Q)
                        (- (500))%Q (- (500) + (rr + rr))%num (- rr)%num rr)
         80%Q
    = Some t' /\
    window (axisX t') = Some wx /\ window (axisY t') = Some wy /\
    (p2 wx - p1 wx == rr + rr)%num /\
    basis_eq wy (mkAR1Basis (- rr)%num rr) /\
    toScreen (axisX t') 0%Q = Some s /\
    (s + s == 800 + (80 + 80))%num.
Proof.
  exact (draw_pans newViewWindowTransform 800%Q 800%Q (- (500))%Q 80%Q
                   Q800_0 Q800_0 Qrr).
Defined.
