(* ===== verification/Zoom.v ===== *)
(** * Zoom: the vertical transform of a zoom

    The arithmetic of the procedure wrapped by [TimeSeriesChart.zoom] in
    [src/draw.ts]: from the minimum and maximum of the visible samples
    ([minMax], the answer of the segment tree) and the vertical scale [y] of
    the chart it computes [scaleY] and [translateY], the vertical part of
    the attribute [translate(tx, ty) scale(sx, sy)] set on the view, and the
    scale [ry] handed to the vertical axis.

    [LinearScale] is D3's linear scale, a library the sources call; it is
    modelled from its documentation: a domain, a range, and the affine
    interpolation between them.  [IMinMax], the record of the segment
    tree's answers, comes from [SegmentTree].

    The transform [translate(_, ty) scale(_, sy)] sends the ordinate [p] to
    [sy * p + ty]; it is the [AR1] with coefficients [(scaleY, translateY)],
    and [applyToMatrixY] appends exactly that pair of operations.

    Theorems: with the range [[height, 0]] that [drawChart] gives [y], the
    transform is the solution of the basis problem that carries the pixel
    rows of the visible minimum and maximum onto the ends of the range, so
    the visible samples fill the height of the chart; a path drawn with [y]
    and moved by the transform lies where the new axis scale [ry] puts its
    values, and between the bottom and the top of the chart when the value
    lies between the visible minimum and maximum.  On floats, a flat visible window (minimum equal to maximum)
    gives a transform that is not finite. *)

From Stdlib Require Import QArith Floats.
From S2P Require Import Prelude Numeric Order SVGMatrix Affine Basis SegmentTree.

Local Open Scope num_scope.

Section Zoom.
Context {T : Type} {ops : NumOps T}.

(** D3's linear scale: [scaleLinear().domain([d0, d1]).range([r0, r1])]. *)
Record LinearScale := mkLinearScale {
  domain : T * T;
  range : T * T
}.

(** [s(v)]: the value is normalised on the domain and interpolated on the
    range. *)
Definition scaleApply (s : LinearScale) (v : T) : T :=
  let '(d0, d1) := domain s in
  let '(r0, r1) := range s in
  r0 + (r1 - r0) * ((v - d0) / (d1 - d0)).

(** The vertical scale and translation computed by [zoom], as the
    transform they denote. *)
Definition zoomTransformY (y : LinearScale) (minMax : IMinMax T) : AR1 T :=
  let domainY := (min minMax, max minMax) in
  let newRangeY := (scaleApply y (fst domainY), scaleApply y (snd domainY)) in
  let oldRangeY := range y in
  let scaleY := fst oldRangeY / (fst newRangeY - snd newRangeY) in
  let translateY := scaleY * (snd oldRangeY - snd newRangeY) in
  mkAR1 (scaleY, translateY).

(** The scale [ry] given to the vertical axis:
    [scaleLinear().range([height, 0]).domain(domainY)]. *)
Definition zoomAxisY (height : T) (minMax : IMinMax T) : LinearScale :=
  mkLinearScale (min minMax, max minMax) (height, 0).

(** The vertical scale made by [drawChart]:
    [scaleLinear().range([height, 0])] with the domain of the whole
    buffer. *)
Definition chartScaleY (height : T) (minMax : IMinMax T) : LinearScale :=
  mkLinearScale (min minMax, max minMax) (height, 0).

End Zoom.

Arguments LinearScale T : clear implicits.

(** [zoom_crush]: open scales and records and unfold the zoom arithmetic. *)
Ltac zoom_crush :=
  repeat match goal with
    | s : LinearScale _ |- _ => destruct s as [[? ?] [? ?]]
    | mm : IMinMax _ |- _ => destruct mm
    end;
  unfold zoomTransformY, zoomAxisY, chartScaleY, scaleApply in *;
  simpl in *;
  basis_crush.

Section ZoomFacts.
Context {T : Type} {ops : NumOps T} {fld : NumField T}.
Add Field zoom_field : nfield_th (setoid neq_equiv num_ring_ext).
Implicit Types (y : LinearScale T) (minMax all : IMinMax T) (height v : T).

(** A linear scale is the transform between its domain and its range. *)
Lemma scaleApply_betweenBasesAR1 y v :
  ~ fst (domain y) == snd (domain y) ->
  scaleApply y v == applyToPoint (betweenBasesAR1 (domain y) (range y)) v.
Proof. intros H. zoom_crush. nfield. Qed.

(** C38: With the range [[height, 0]] the zoom transform is the transform
    between bases that carries the pixel rows of the visible minimum and
    maximum onto the bottom and the top of the chart. *)
Theorem zoomTransformY_betweenBasesAR1 height all minMax :
  ~ height == 0 -> ~ min all == max all -> ~ min minMax == max minMax ->
  zoomTransformY (chartScaleY height all) minMax
  =~ betweenBasesAR1
       (scaleApply (chartScaleY height all) (min minMax),
        scaleApply (chartScaleY height all) (max minMax))
       (height, 0).
Proof.
  intros Hh Ha Hm. destruct all as [d0 d1], minMax as [mn mx].
  zoom_crush.
  split; nfield;
    apply (neq0_of_factors _ (- height) (mn - mx)); auto with svg; ring.
Qed.

(** The zoom transform after the chart's scale is the scale of the new
    axis. *)
Lemma zoomTransformY_scale height all minMax v :
  ~ height == 0 -> ~ min all == max all -> ~ min minMax == max minMax ->
  applyToPoint (zoomTransformY (chartScaleY height all) minMax)
               (scaleApply (chartScaleY height all) v)
  == scaleApply (zoomAxisY height minMax) v.
Proof.
  intros Hh Ha Hm. destruct all as [d0 d1], minMax as [mn mx].
  zoom_crush.
  nfield; apply (neq0_of_factors _ (- height) (mn - mx)); auto with svg; ring.
Qed.

(** C7: A value drawn with the chart's scale and moved by the zoom transform
    lies where the scale of the new axis puts it: paths and axis agree. *)
Theorem zoomTransformY_axis height all minMax v :
  ~ height == 0 -> ~ min all == max all -> ~ min minMax == max minMax ->
  applyToPoint (zoomTransformY (chartScaleY height all) minMax)
               (scaleApply (chartScaleY height all) v)
  == scaleApply (zoomAxisY height minMax) v.
Proof. exact (zoomTransformY_scale height all minMax v). Qed.

(** Zoomed on the extremes the scale was made with, the transform is the
    identity. *)
Lemma zoomTransformY_whole height all :
  ~ height == 0 -> ~ min all == max all ->
  zoomTransformY (chartScaleY height all) all =~ mkAR1 (1, 0).
Proof.
  intros Hh Ha. destruct all as [mn mx]. zoom_crush.
  split; nfield;
    apply (neq0_of_factors _ height (mx - mn)); auto with svg; ring.
Qed.

(** Appended to the identity along Y, the transform is the matrix of the
    attribute [translate(0, ty) scale(1, sy)]. *)
Theorem zoomTransformY_matrix y minMax :
  applyToMatrixY (zoomTransformY y minMax) identityMatrix
  = scaleNonUniform
      (translate identityMatrix 0 (snd (m (zoomTransformY y minMax))))
      1 (fst (m (zoomTransformY y minMax))).
Proof. reflexivity. Qed.

End ZoomFacts.

(** ** Bounds *)

Section ZoomBounds.
Context {T : Type} {ops : NumOps T} {fld : NumField T} {ord : NumOrder T}.
Implicit Types (y : LinearScale T) (minMax all : IMinMax T) (height v : T).

(** A linear scale sends its domain into its range. *)
Lemma scaleApply_between y v :
  ~ fst (domain y) == snd (domain y) ->
  between (fst (domain y)) (snd (domain y)) v ->
  between (fst (range y)) (snd (range y)) (scaleApply y v).
Proof.
  intros H Hv. rewrite (scaleApply_betweenBasesAR1 y v H).
  destruct y as [[d0 d1] [r0 r1]]. now apply betweenBasesAR1_between.
Qed.

(** After a zoom every value between the visible minimum and maximum,
    drawn with the chart's scale and moved by the zoom transform, lies
    between the bottom ([height]) and the top (0) of the chart. *)
Theorem zoomTransformY_fits height all minMax v :
  ~ height == 0 -> ~ min all == max all -> ~ min minMax == max minMax ->
  between (min minMax) (max minMax) v ->
  between height 0
    (applyToPoint (zoomTransformY (chartScaleY height all) minMax)
                  (scaleApply (chartScaleY height all) v)).
Proof.
  intros Hh Ha Hm Hv. rewrite (zoomTransformY_scale height all minMax v Hh Ha Hm).
  now apply (scaleApply_between (zoomAxisY height minMax)).
Qed.

End ZoomBounds.

(* Decimal literals are rounded to the nearest binary64, as in JavaScript. *)
#[local] Set Warnings "-inexact-float".

(** ** Evaluation *)

(** A chart 300 pixels high over the values 0 to 10, zoomed on a window
    whose samples range from 2 to 7: the transform sends row 240 (value 2)
    to row 300 and row 90 (value 7) to row 0. *)
Example zoomTransformY_Q :
  let t := zoomTransformY (chartScaleY 300 (mkMinMax 0 10)) (mkMinMax 2 7) in
  t =~ mkAR1 (2, - (180))%Q /\
  applyToPoint t 240%Q == 300%Q /\ applyToPoint t 90%Q == 0%Q.
Proof. vm_compute. repeat split. Qed.

(** On floats a flat window (one visible sample, or equal samples) divides
    by zero: the scale is infinite and the translation is not finite
    either. *)
Theorem zoomTransformY_flat_float :
  m (zoomTransformY (chartScaleY 300 (mkMinMax 0 10)) (mkMinMax 4 4))%float
  = (infinity, neg_infinity).
Proof. vm_compute. reflexivity. Qed.

(** ** Witnesses *)

Lemma Q300 : ~ ((300 : Q) == 0)%num.
Proof. apply Qneq_by_eval. reflexivity. Defined.

Lemma Q0_10 : ~ ((0 : Q) == 10)%num.
Proof. apply Qneq_by_eval. reflexivity. Defined.

Lemma Q2_7 : ~ ((2 : Q) == 7)%num.
Proof. apply Qneq_by_eval. reflexivity. Defined.

Lemma zoomTransformY_betweenBasesAR1_witness :
  zoomTransformY (chartScaleY 300%Q (mkMinMax 0%Q 10%Q)) (mkMinMax 2%Q 7%Q)
  =~ betweenBasesAR1
       (scaleApply (chartScaleY 300%Q (mkMinMax 0%Q 10%Q)) 2%Q,
        scaleApply (chartScaleY 300%Q (mkMinMax 0%Q 10%Q)) 7%Q)
       (300%Q, 0%Q).
Proof.
  exact (zoomTransformY_betweenBasesAR1 300%Q (mkMinMax 0%Q 10%Q)
           (mkMinMax 2%Q 7%Q) Q300 Q0_10 Q2_7).
Defined.

Lemma zoomTransformY_axis_witness :
  applyToPoint (zoomTransformY (chartScaleY 300%Q (mkMinMax 0%Q 10%Q))
                               (mkMinMax 2%Q 7%Q))
               (scaleApply (chartScaleY 300%Q (mkMinMax 0%Q 10%Q)) 5%Q)
  == scaleApply (zoomAxisY 300%Q (mkMinMax 2%Q 7%Q)) 5%Q.
Proof.
  exact (zoomTransformY_axis 300%Q (mkMinMax 0%Q 10%Q) (mkMinMax 2%Q 7%Q) 5%Q
           Q300 Q0_10 Q2_7).
Defined.
