(* ===== verification/ZoomHandler.v ===== *)
(** * ZoomHandler: [TimeSeriesChart.zoom] and the chart it acts on

    The procedure wrapped by [zoom] in [src/draw.ts], whole: from the
    transform of the zoom event it rescales the horizontal scale
    ([rescaleX]), scans the buffer for the samples whose dates lie in the
    new domain ([getZoomIntervalY]), asks the tree for their minimum and
    maximum, computes the vertical transform ([Zoom]), and sets the
    transform of the view and the scales of the axes.

    [ChartView] is the chart with the fields of [IChartParameters] the
    procedure reads and writes: beside the state of [Chart] (the buffer,
    the tree, the domains of [x] and [rx]) the vertical scale [y], the
    scale of the vertical axis ([yAxis], set with [setScale]), the height, the transform
    attribute of the view, and the throttle of [zoom].  [width] is the
    range of [x], set by [drawChart].

    D3's zoom transform and [rescaleX], and the inverse of a time scale,
    are library code, modelled from their documentation: [invertX] undoes
    the transform on a pixel, [invert] maps a pixel back to a date by
    linear interpolation over the domain, [rescaleX] takes the domain to
    the dates of the transformed ends of the range.

    An exception leaves the state as it was when it was thrown:
    [zoomBody] returns the state with the reason.  The procedure throws
    when it is called without a transform ([param[0]] is [undefined]) and,
    in the model, when the tree does not answer the query (a range outside
    its contract).

    Events: a call of [zoom], a tick of its timer, a sample
    ([updateChartWithNewData]), a tick of the redraw timer; in any order.

    Theorems: the invariant of the view over every trace; a zoom with the
    identity transform on a fresh chart sets the identity and leaves the
    axes alone; on a hit the query is a valid range, the procedure
    succeeds and the new vertical transform carries the visible extremes
    onto the ends of the chart, so that every sample whose date lies in
    the new domain is drawn inside the chart; on a miss the query is [(length, 0)],
    outside the contract; of a burst of zoom events the first transform is
    shown; a call without a transform fails at the tick. *)

From Stdlib Require Import List ZArith QArith Qminmax Lia Bool.
From S2P Require Import Prelude Numeric Order SVGMatrix Affine Basis Throttle Chart.
From S2P Require Import SegmentTree Viewport Zoom.
Import ListNotations.

Local Open Scope num_scope.

Section Handler.
Context {T : Type} {ops : NumOps T} {dates : DateOps T} {query : RangeQuery T}.

(** ** D3: zoom transform and time scale *)

(** [ZoomTransform]: the scale [k] and the translation [(x, y)] of a zoom
    event. *)
Record ZoomTransform := mkZoomTransform {
  zoomK : T;
  zoomX : T;
  zoomY : T
}.

(** [d3.zoomIdentity]. *)
Definition zoomIdentity : ZoomTransform := mkZoomTransform 1 0 0.

(** [transform.invertX(px)]. *)
Definition invertX (transform : ZoomTransform) (px : T) : T :=
  (px - zoomX transform) / zoomK transform.

(** A time scale: a domain of two dates and a range of two pixels. *)
Record TimeScale := mkTimeScale {
  timeDomain : Z * Z;
  timeRange : T * T
}.

(** [scale.invert(px)]: the date at a pixel. *)
Definition timeInvert (s : TimeScale) (px : T) : Z :=
  let '(d0, d1) := timeDomain s in
  let '(r0, r1) := timeRange s in
  let t := (px - r0) / (r1 - r0) in
  toDate (ofDate d0 * (1 - t) + ofDate d1 * t).

(** [transform.rescaleX(s)]: a copy of [s] whose domain is the dates of
    the ends of the range seen through the transform. *)
Definition rescaleX (transform : ZoomTransform) (s : TimeScale) : TimeScale :=
  mkTimeScale
    (timeInvert s (invertX transform (fst (timeRange s))),
     timeInvert s (invertX transform (snd (timeRange s))))
    (timeRange s).

(** ** The chart *)

(** The attribute [translate(tx, ty) scale(sx, sy)] of the view. *)
Record ViewAttr := mkViewAttr {
  translateX : T;
  translateY : T;
  scaleX : T;
  scaleY : T
}.

Record ChartView := mkChartView {
  chart : TimeSeriesChart T;
  width : T;
  height : T;
  y : LinearScale T;
  yAxis : LinearScale T;
  view : option ViewAttr;
  zoom : DrawProc (list ZoomTransform)
}.

(** The scale [chart.x]: the domain kept by [Chart], the range
    [[0, width]]. *)
Definition chartX (this : ChartView) : TimeScale :=
  mkTimeScale (xDomain (chart this)) (0, width this).

(** The constructor with [drawChart]: the state of [Chart], the scale [y]
    over the extremes of the whole buffer
    ([tree.getMinMax(0, tree.size - 1)]) with the range [[height, 0]],
    which is also the scale the vertical axis is made with.  No transform
    is set on the view by [zoom] yet.  (On an empty buffer the code asks
    for the range [(0, -1)]; the model asks for [(0, 0)], as invalid.) *)
Definition newChartView (width0 height0 : T) (minX0 stepX0 : Z)
  (data0 : list (list T)) : option ChartView :=
  (minMax <- getMinMax data0 0 (length data0 - 1) ;;
   Some (mkChartView (newChart minX0 stepX0 data0) width0 height0
                     (chartScaleY height0 minMax) (chartScaleY height0 minMax)
                     None drawProc))%opt.

(** The transform [drawChart] gives the paths: the viewport is the size
    of the [svg], the window is the positions [0] to [data.length] across
    and the extremes of the buffer upwards.  The paths are drawn with the
    position of a sample as its abscissa. *)
Definition pathTransform (width0 height0 : T) (data0 : list (list T))
  (minMax : IMinMax T) : ViewWindowTransform T :=
  setViewWindow (setViewPort newViewWindowTransform width0 height0)
                0 (nofZ (Z.of_nat (length data0))) (min minMax) (max minMax).

(** Why the procedure wrapped by [zoom] throws. *)
Inductive ZoomError :=
| NoTransform
| QueryNotAnswered.

(** [chart.rx] replaced. *)
Definition setRx (c : TimeSeriesChart T) (domainX : Z * Z) : TimeSeriesChart T :=
  mkChart (minX c) (maxX c) (missedStepsCount c) (stepX c) (data c) (tree c)
          (xDomain c) domainX (pathData c) (drawNewData c).

(** The domain of [rx] after a zoom by [transform], and the positions
    the procedure then asks the tree about. *)
Definition zoomDomain (this : ChartView) (transform : ZoomTransform) : Z * Z :=
  timeDomain (rescaleX transform (chartX this)).

Definition zoomQuery (this : ChartView) (transform : ZoomTransform) : nat * nat :=
  getZoomIntervalY (chart this) (zoomDomain this transform)
                   (length (data (chart this))).

(** The state when the tree is asked: [rx] is already replaced. *)
Definition zoomAsked (this : ChartView) (z : ZoomTransform) : ChartView :=
  mkChartView (setRx (chart this) (zoomDomain this z)) (width this)
              (height this) (y this) (yAxis this) (view this) (zoom this).

(** The state when the procedure returns. *)
Definition zoomDone (this : ChartView) (z : ZoomTransform)
  (minMax : IMinMax T) : ChartView :=
  mkChartView (setRx (chart this) (zoomDomain this z)) (width this)
              (height this) (y this) (zoomAxisY (height this) minMax)
              (Some (mkViewAttr (zoomX z)
                                (snd (m (zoomTransformY (y this) minMax)))
                                (zoomK z)
                                (fst (m (zoomTransformY (y this) minMax)))))
              (zoom this).

(** The procedure wrapped by [zoom], called with the arguments [param] of
    the call that scheduled it. *)
Definition zoomBody (this : ChartView) (param : list ZoomTransform)
  : ChartView * option ZoomError :=
  match hd_error param with
  | None => (this, Some NoTransform)
  | Some zoomTransform =>
      let translateX := zoomX zoomTransform in
      let scaleX := zoomK zoomTransform in
      let rx := rescaleX zoomTransform (chartX this) in
      let domainX := timeDomain rx in
      let this1 :=
        mkChartView (setRx (chart this) domainX) (width this) (height this)
                    (y this) (yAxis this) (view this) (zoom this) in
      let ySubInterval :=
        getZoomIntervalY (chart this1) domainX (length (data (chart this1))) in
      match getMinMax (tree (chart this1)) (fst ySubInterval) (snd ySubInterval) with
      | None => (this1, Some QueryNotAnswered)
      | Some minMax =>
          let t := zoomTransformY (y this1) minMax in
          let scaleY := fst (m t) in
          let translateY := snd (m t) in
          let ry := zoomAxisY (height this1) minMax in
          (mkChartView (chart this1) (width this1) (height this1) (y this1) ry
                       (Some (mkViewAttr translateX translateY scaleX scaleY))
                       (zoom this1),
           None)
      end
  end.

(** A tick of the timer of [zoom]: its callback, if one is scheduled,
    lowers the flag and runs the procedure. *)
Definition tickZoom (this : ChartView) : ChartView * option ZoomError :=
  match timeout (zoom this) with
  | (proc, Some param) =>
      zoomBody (mkChartView (chart this) (width this) (height this) (y this)
                            (yAxis this) (view this) proc) param
  | (_, None) => (this, None)
  end.

(** Events of a chart with its view. *)
Inductive view_event :=
| ZoomCall (param : list ZoomTransform)
| ZoomTick
| DataUpdate (newData : list T)
| DrawTick.

Definition onChart (f : TimeSeriesChart T -> TimeSeriesChart T)
  (this : ChartView) : ChartView :=
  mkChartView (f (chart this)) (width this) (height this) (y this) (yAxis this)
              (view this) (zoom this).

Definition view_step (this : ChartView) (e : view_event) : ChartView :=
  match e with
  | ZoomCall param =>
      mkChartView (chart this) (width this) (height this) (y this) (yAxis this)
                  (view this) (invoke (zoom this) param)
  | ZoomTick => fst (tickZoom this)
  | DataUpdate newData => onChart (fun c => updateChartWithNewData c newData) this
  | DrawTick => onChart tickDrawNewData this
  end.

Definition view_run (trace : list view_event) (this : ChartView) : ChartView :=
  fold_left view_step trace this.

(** The invariant of a view: the chart's own, the throttle's, and the
    vertical scales keep the range [[height, 0]] over the domain the chart
    was made with. *)
Record view_inv (this : ChartView) : Prop := {
  vinv_chart : chart_inv (chart this);
  vinv_zoom : throttle_inv (zoom this);
  vinv_y : range (y this) = (height this, 0);
  vinv_ry : range (yAxis this) = (height this, 0)
}.

End Handler.

Arguments ZoomTransform T : clear implicits.
Arguments TimeScale T : clear implicits.
Arguments ViewAttr T : clear implicits.
Arguments ChartView T : clear implicits.
Arguments view_event T : clear implicits.

(** ** An example on rationals *)

(** A tree over rows of two rational columns: the reference query with the
    smaller and the larger column as the leaf tuple. *)
Definition tupleQ (row : list Q) : IMinMax Q :=
  mkMinMax (Qmin (nth 0 row 0%Q) (nth 1 row 0%Q))
           (Qmax (nth 0 row 0%Q) (nth 1 row 0%Q)).

#[export] Instance queryQ : RangeQuery Q := refRangeQuery tupleQ Qmin Qmax.

#[export] Instance queryQ_laws : RangeQueryLaws queryQ :=
  refRangeQuery_laws tupleQ Qmin Qmax.

#[export] Instance queryQ_bounds : RangeQueryBounds Qle tupleQ queryQ :=
  refRangeQuery_bounds tupleQ Qmin Qmax Qle Q.le_min_l Q.le_min_r
                       Q.le_max_l Q.le_max_r.

(** Five samples ten milliseconds apart from date 0, on a chart 800 pixels
    wide and 300 high. *)
Definition rows5 : list (list Q) :=
  [[1; 2]; [3; 4]; [5; 6]; [7; 8]; [9; 10]]%Q.

Definition view5 : ChartView Q :=
  mkChartView (newChart 0 10 rows5) 800%Q 300%Q
              (chartScaleY 300%Q (mkMinMax 1%Q 10%Q))
              (chartScaleY 300%Q (mkMinMax 1%Q 10%Q)) None drawProc.

(** A zoom by 2 whose domain is the dates 10 to 30, and a zoom whose domain,
    the dates 12 to 18, holds no sample. *)
Definition zoomIn : ZoomTransform Q := mkZoomTransform 2%Q (- (400))%Q 0%Q.

Definition zoomBetween : ZoomTransform Q :=
  mkZoomTransform (20 # 3)%Q (- (1600))%Q 0%Q.

(** [view_crush]: open a view and unfold the handler down to the chart
    and the scales. *)
Ltac view_crush :=
  unfold view_run, view_step, tickZoom, zoomBody, zoomQuery, zoomDomain,
    onChart, chartX, setRx in *;
  simpl in *.

Section HandlerFacts.
Context {T : Type} {ops : NumOps T} {fld : NumField T}.
Context {dates : DateOps T} {dlaws : DateLaws T}.
Context {query : RangeQuery T} {qlaws : RangeQueryLaws query}.
Add Field handler_field : nfield_th (setoid neq_equiv num_ring_ext).
Implicit Types (this : ChartView T) (z : ZoomTransform T)
  (e : view_event T) (trace : list (view_event T))
  (c : TimeSeriesChart T).

(** ** The procedure, case by case *)

Lemma chart_inv_setRx c domainX : chart_inv c -> chart_inv (setRx c domainX).
Proof. intros [? ? ? ? ? ? ? ?]. constructor; assumption. Qed.

Lemma zoomBody_nil this : zoomBody this [] = (this, Some NoTransform).
Proof. reflexivity. Qed.

Lemma zoomBody_answered this z rest minMax :
  getMinMax (tree (chart this)) (fst (zoomQuery this z)) (snd (zoomQuery this z))
  = Some minMax ->
  zoomBody this (z :: rest) = (zoomDone this z minMax, None).
Proof.
  intros E. unfold zoomBody, zoomDone. cbn [hd_error].
  cbn [chart tree setRx data] in *.
  change (getZoomIntervalY _ _ _) with (zoomQuery this z).
  now rewrite E.
Qed.

Lemma zoomBody_not_answered this z rest :
  getMinMax (tree (chart this)) (fst (zoomQuery this z)) (snd (zoomQuery this z))
  = None ->
  zoomBody this (z :: rest) = (zoomAsked this z, Some QueryNotAnswered).
Proof.
  intros E. unfold zoomBody, zoomAsked. cbn [hd_error].
  cbn [chart tree setRx data] in *.
  change (getZoomIntervalY _ _ _) with (zoomQuery this z).
  now rewrite E.
Qed.

(** In every case the state returned is one of the three. *)
Lemma zoomBody_cases this param :
  fst (zoomBody this param) = this \/
  (exists z, fst (zoomBody this param) = zoomAsked this z) \/
  (exists z minMax, fst (zoomBody this param) = zoomDone this z minMax).
Proof.
  destruct param as [| z rest]; [now left | right].
  destruct (getMinMax (tree (chart this)) (fst (zoomQuery this z))
                      (snd (zoomQuery this z))) as [minMax |] eqn:E.
  - right. exists z, minMax. now rewrite (zoomBody_answered _ _ _ _ E).
  - left. exists z. now rewrite (zoomBody_not_answered _ _ _ E).
Qed.

(** ** The invariant *)

Lemma view_inv_new width0 height0 minX0 stepX0 (data0 : list (list T)) this :
  newChartView width0 height0 minX0 stepX0 data0 = Some this ->
  view_inv this.
Proof.
  unfold newChartView.
  destruct (getMinMax data0 0 (length data0 - 1)) as [minMax |];
    simpl; intros E; inv E.
  constructor; simpl; auto using chart_inv_newChart, throttle_inv_init.
Qed.

Lemma view_inv_zoomBody this param :
  view_inv this -> view_inv (fst (zoomBody this param)).
Proof.
  intros H. destruct H as [Hc Hz Hy Ha].
  destruct (zoomBody_cases this param) as [-> | [[z ->] | (z & mm & ->)]];
    constructor; simpl; auto using chart_inv_setRx.
Qed.

Lemma view_inv_step this e : view_inv this -> view_inv (view_step this e).
Proof.
  intros H. destruct e as [param | | newData |]; simpl.
  - destruct H. constructor; simpl; auto with svg.
  - unfold tickZoom.
    destruct (timeout (zoom this)) as [proc [param |]] eqn:E; [| exact H].
    apply view_inv_zoomBody. destruct H as [Hc Hz Hy Ha].
    constructor; simpl; auto.
    change proc with (fst (proc, Some param)). rewrite <- E.
    now apply throttle_inv_timeout.
  - destruct H. constructor; simpl; auto using chart_inv_update.
  - destruct H. constructor; simpl; auto using chart_inv_tick.
Qed.

(** C12: Over every trace of zoom calls, zoom ticks, samples and redraw ticks,
    a constructed chart keeps the invariant of its state machine
    ([chart_inv]), at most one zoom callback is scheduled, and the
    vertical scales keep the range [[height, 0]]. *)
Theorem view_inv_run trace width0 height0 minX0 stepX0 (data0 : list (list T)) this :
  newChartView width0 height0 minX0 stepX0 data0 = Some this ->
  view_inv (view_run trace this).
Proof.
  intros E. unfold view_run.
  apply fold_left_invariant; [apply view_inv_step | now apply (view_inv_new _ _ _ _ _ _ E)].
Qed.

(** ** The positions asked of the tree *)

(** When a sample of the buffer has its date in the new domain, the
    positions the procedure asks the tree about are a valid range of the
    buffer: the tree is never zoomAsked outside its rows. *)
Theorem zoomQuery_hit this z j :
  view_inv this ->
  (j < length (data (chart this)))%nat ->
  inSubInterval (chart this) (zoomDomain this z) j = true ->
  validRange (length (tree (chart this)))
             (fst (zoomQuery this z)) (snd (zoomQuery this z)) = true.
Proof.
  intros H Hj Hin. rewrite (inv_tree _ (vinv_chart _ H)).
  apply validRange_spec. unfold zoomQuery.
  now apply (getZoomIntervalY_range _ _ _ j).
Qed.

(** C32: When no sample has its date in the new domain the procedure asks for
    the positions [(length, 0)], which is no range of the buffer. *)
Theorem zoomQuery_miss this z :
  (forall i, (i < length (data (chart this)))%nat ->
             inSubInterval (chart this) (zoomDomain this z) i = false) ->
  zoomQuery this z = (length (data (chart this)), 0%nat) /\
  validRange (length (data (chart this)))
             (fst (zoomQuery this z)) (snd (zoomQuery this z)) = false.
Proof.
  intros Hnone. unfold zoomQuery.
  destruct (getZoomIntervalY_inv (chart this) (zoomDomain this z)
              (length (data (chart this)))) as [_ [[E _] | (_ & Hlt & _ & Hto)]].
  - rewrite E. split; [reflexivity |]. simpl.
    apply not_true_is_false. rewrite validRange_spec. lia.
  - rewrite (Hnone _ Hlt) in Hto. discriminate.
Qed.

(** On a hit the tree answers and the procedure returns. *)
Lemma zoomBody_on_hit this z rest j :
  view_inv this ->
  (j < length (data (chart this)))%nat ->
  inSubInterval (chart this) (zoomDomain this z) j = true ->
  exists minMax,
    getMinMax (data (chart this)) (fst (zoomQuery this z)) (snd (zoomQuery this z))
    = Some minMax /\
    zoomBody this (z :: rest) = (zoomDone this z minMax, None).
Proof.
  intros H Hj Hin.
  pose proof (getMinMax_valid _ _ _ (zoomQuery_hit this z j H Hj Hin)) as Hs.
  rewrite (inv_tree _ (vinv_chart _ H)) in Hs.
  destruct (getMinMax _ _ _) as [minMax |] eqn:E; [| discriminate].
  exists minMax. split; [reflexivity |].
  apply zoomBody_answered. now rewrite (inv_tree _ (vinv_chart _ H)).
Qed.

(** C11: On a hit the procedure returns: the tree answers, [rx] has the new
    domain, the view gets the transform of the event along X and the
    transform computed from the answer along Y, and the vertical axis the
    scale over the answer. *)
Theorem zoomBody_hit this z rest j :
  view_inv this ->
  (j < length (data (chart this)))%nat ->
  inSubInterval (chart this) (zoomDomain this z) j = true ->
  exists minMax,
    getMinMax (data (chart this)) (fst (zoomQuery this z)) (snd (zoomQuery this z))
    = Some minMax /\
    zoomBody this (z :: rest) = (zoomDone this z minMax, None).
Proof. exact (zoomBody_on_hit this z rest j). Qed.

(** ** The identity zoom *)

Lemma timeInvert_ends (s : TimeScale T) :
  ~ fst (timeRange s) == snd (timeRange s) ->
  timeInvert s (fst (timeRange s)) = fst (timeDomain s) /\
  timeInvert s (snd (timeRange s)) = snd (timeDomain s).
Proof.
  destruct s as [[d0 d1] [r0 r1]]. unfold timeInvert. simpl. intros Hr.
  split; [rewrite <- (toDate_ofDate d0) at 2 | rewrite <- (toDate_ofDate d1) at 2];
    apply toDate_proper; nfield.
Qed.

Lemma invertX_identity (px : T) : invertX zoomIdentity px == px.
Proof. unfold invertX, zoomIdentity. simpl. nfield. Qed.

Lemma timeInvert_proper (s : TimeScale T) :
  ~ fst (timeRange s) == snd (timeRange s) ->
  forall p q, p == q -> timeInvert s p = timeInvert s q.
Proof.
  destruct s as [[d0 d1] [r0 r1]]. unfold timeInvert. simpl.
  intros Hr p q E. apply toDate_proper. now rewrite E.
Qed.

(** Rescaling by the identity leaves the domain alone. *)
Lemma rescaleX_identity (s : TimeScale T) :
  ~ fst (timeRange s) == snd (timeRange s) ->
  timeDomain (rescaleX zoomIdentity s) = timeDomain s.
Proof.
  intros Hr. destruct (timeInvert_ends s Hr) as [E0 E1].
  unfold rescaleX. simpl.
  rewrite (timeInvert_proper s Hr _ _ (invertX_identity _)), E0.
  rewrite (timeInvert_proper s Hr _ _ (invertX_identity _)), E1.
  now destruct (timeDomain s).
Qed.

(** On a chart with a non-negative step every sample of the buffer has its
    date in the domain of [x]. *)
Lemma newChart_all_in_domain minX0 stepX0 (data0 : list (list T)) i :
  (0 <= stepX0)%Z -> (i < length data0)%nat ->
  inSubInterval (newChart minX0 stepX0 data0)
                (xDomain (newChart minX0 stepX0 data0)) i = true.
Proof.
  intros Hs Hi. apply inSubInterval_spec. simpl. unfold calcDate. simpl.
  pose proof (Z.mul_nonneg_nonneg (Z.of_nat i) stepX0 ltac:(lia) Hs).
  pose proof (Z.mul_nonneg_nonneg (Z.of_nat (length data0) - 1 - Z.of_nat i)
                                  stepX0 ltac:(lia) Hs).
  lia.
Qed.

(** On a fresh chart the identity zoom asks the tree about the whole
    buffer. *)
Lemma zoomQuery_identity width0 height0 minX0 stepX0 (data0 : list (list T)) this :
  newChartView width0 height0 minX0 stepX0 data0 = Some this ->
  ~ width0 == 0 -> (0 <= stepX0)%Z -> data0 <> [] ->
  zoomDomain this zoomIdentity = xDomain (chart this) /\
  zoomQuery this zoomIdentity = (0%nat, (length data0 - 1)%nat).
Proof.
  unfold newChartView.
  destruct (getMinMax data0 0 (length data0 - 1)) as [all |];
    simpl; intros E Hw Hs Hd; inv E.
  assert (zoomDomain (mkChartView (newChart minX0 stepX0 data0) width0 height0
                        (chartScaleY height0 all) (chartScaleY height0 all)
                        None drawProc) zoomIdentity
          = xDomain (newChart minX0 stepX0 data0)) as Ed.
  { unfold zoomDomain, chartX. rewrite rescaleX_identity; [reflexivity |].
    simpl. intros E0. apply Hw. now symmetry. }
  split; [exact Ed |]. unfold zoomQuery. rewrite Ed.
  cbn [chart data newChart].
  apply getZoomIntervalY_all;
    [destruct data0; [congruence | simpl; lia] |].
  intros i Hi. now apply newChart_all_in_domain.
Qed.

(** The identity zoom on a fresh chart, for reuse. *)
Lemma zoomBody_identity width0 height0 minX0 stepX0 (data0 : list (list T)) this :
  newChartView width0 height0 minX0 stepX0 data0 = Some this ->
  ~ width0 == 0 -> ~ height0 == 0 -> (0 <= stepX0)%Z -> data0 <> [] ->
  ~ fst (domain (y this)) == snd (domain (y this)) ->
  exists attr,
    zoomBody this [zoomIdentity]
    = (mkChartView (chart this) (width this) (height this) (y this)
                   (yAxis this) (Some attr) (zoom this), None) /\
    translateX attr == 0 /\ translateY attr == 0 /\
    scaleX attr == 1 /\ scaleY attr == 1.
Proof.
  intros E Hw Hh Hs Hd Hy.
  destruct (zoomQuery_identity _ _ _ _ _ _ E Hw Hs Hd) as [Ed Eq].
  revert E Ed Eq Hy. unfold newChartView.
  destruct (getMinMax data0 0 (length data0 - 1)) as [all |] eqn:Eall;
    simpl; intros E; inv E. intros Ed Eq Hy.
  eexists. rewrite (zoomBody_answered _ _ _ all)
    by (rewrite Eq; exact Eall).
  unfold zoomDone. rewrite Ed. split; [reflexivity |]. simpl.
  destruct (zoomTransformY_whole height0 all Hh Hy) as [Ea Eb].
  repeat split; try reflexivity; [exact Eb | exact Ea].
Qed.

(** C20: A zoom with the identity transform on a fresh chart whose samples are
    not all equal changes nothing: the domain of [rx] is that of [x], the
    vertical axis keeps its scale, and the view gets the identity
    transform, [translate(0, 0) scale(1, 1)]. *)
Theorem zoom_identity width0 height0 minX0 stepX0 (data0 : list (list T)) this :
  newChartView width0 height0 minX0 stepX0 data0 = Some this ->
  ~ width0 == 0 -> ~ height0 == 0 -> (0 <= stepX0)%Z -> data0 <> [] ->
  ~ fst (domain (y this)) == snd (domain (y this)) ->
  exists attr,
    zoomBody this [zoomIdentity]
    = (mkChartView (chart this) (width this) (height this) (y this)
                   (yAxis this) (Some attr) (zoom this), None) /\
    translateX attr == 0 /\ translateY attr == 0 /\
    scaleX attr == 1 /\ scaleY attr == 1.
Proof. exact (zoomBody_identity width0 height0 minX0 stepX0 data0 this). Qed.

(** ** Bursts and calls without a transform *)

(** Of two zoom events before the tick the first is shown: the chart ends
    as if the second had never arrived. *)
Theorem zoom_burst_shows_first this z1 z2 :
  zoom this = drawProc ->
  view_run [ZoomCall [z1]; ZoomCall [z2]; ZoomTick] this
  = fst (zoomBody this [z1]).
Proof. destruct this. simpl. intros ->. reflexivity. Qed.

(** A call of [zoom] without a transform, as the demo makes it, fails when
    the timer fires: the procedure throws before it changes anything. *)
Theorem zoom_without_transform this :
  zoom this = drawProc ->
  tickZoom (view_step this (ZoomCall [])) = (this, Some NoTransform).
Proof. destruct this. simpl. intros ->. reflexivity. Qed.

(** ** Paths and axis at construction *)

(** The path transform puts the sample at position [i] at the pixel
    [width * i / data.length]. *)
Lemma pathTransform_toScreen width0 height0 (data0 : list (list T)) minMax (i : T) :
  ~ nofZ (Z.of_nat (length data0)) == 0 ->
  exists s,
    toScreen (axisX (pathTransform width0 height0 data0 minMax)) i = Some s /\
    s * nofZ (Z.of_nat (length data0)) == width0 * i.
Proof.
  intros Hn. eexists. split; [reflexivity |]. basis_crush. nfield.
Qed.

(** ** Samples and the vertical transform *)

(** A sample and its redraw leave the vertical scale, the scale of the
    vertical axis and the transform of the view as they were: the vertical
    window is recomputed by [zoom] only, whatever the new sample is. *)
Lemma update_keeps_vertical this (newData : list T) :
  y (view_run [DataUpdate newData; DrawTick] this) = y this /\
  yAxis (view_run [DataUpdate newData; DrawTick] this) = yAxis this /\
  view (view_run [DataUpdate newData; DrawTick] this) = view this.
Proof. repeat split. Qed.

(** A zoom leaves the buffer, the tree, the dates and the redraw throttle
    alone: of the state of [Chart] it changes the domain of [rx] only. *)
Lemma zoomBody_chart this param :
  chart (fst (zoomBody this param)) = chart this \/
  exists domainX, chart (fst (zoomBody this param)) = setRx (chart this) domainX.
Proof.
  destruct (zoomBody_cases this param) as [-> | [[z ->] | (z & mm & ->)]];
    [now left | right; eexists; reflexivity | right; eexists; reflexivity].
Qed.

End HandlerFacts.

(** ** Bounds: the visible samples fit the chart *)

Section HandlerBounds.
Context {T : Type} {ops : NumOps T} {fld : NumField T} {ord : NumOrder T}.
Context {dates : DateOps T} {dlaws : DateLaws T}.
Context {query : RangeQuery T} {qlaws : RangeQueryLaws query}.
Context (tupleOfRow : list T -> IMinMax T).
Context {qbounds : RangeQueryBounds nle tupleOfRow query}.
Implicit Types (this : ChartView T) (z : ZoomTransform T) (v : T).

(** The vertical part of the attribute set on the view, applied to a
    pixel row. *)
Lemma zoomDone_attr this z minMax :
  exists attr,
    view (zoomDone this z minMax) = Some attr /\
    forall p, scaleY attr * p + translateY attr
              = applyToPoint (zoomTransformY (y this) minMax) p.
Proof.
  unfold zoomDone. cbn [view].
  generalize (zoomTransformY (y this) minMax). intros [[a b]].
  eexists. split; reflexivity.
Qed.

(** The answer to the query of a zoom bounds every sample whose date is in
    the new domain. *)
Lemma zoomQuery_covers this z i minMax v :
  view_inv this ->
  (i < length (data (chart this)))%nat ->
  inSubInterval (chart this) (zoomDomain this z) i = true ->
  getMinMax (data (chart this)) (fst (zoomQuery this z)) (snd (zoomQuery this z))
  = Some minMax ->
  min (tupleOfRow (nth i (data (chart this)) [])) <= v
  <= max (tupleOfRow (nth i (data (chart this)) [])) ->
  between (min minMax) (max minMax) v.
Proof.
  intros H Hi Hin E [Hlo Hhi].
  pose proof (zoomQuery_hit this z i H Hi Hin) as Hv.
  rewrite (inv_tree _ (vinv_chart _ H)) in Hv.
  destruct (getMinMax_bounds _ _ _ _ i Hv E) as [H1 H2];
    [now apply getZoomIntervalY_brackets |].
  apply between_sorted; etransitivity; eassumption.
Qed.

(** C13: After a zoom every sample whose date is in the new domain is drawn
    inside the chart: the procedure returns, and a value between the
    minimum and the maximum of the row, drawn with the scale [y] and moved
    by the attribute set on the view, lies between the bottom
    ([height]) and the top (0), unless the visible window is flat. *)
Theorem zoom_fits this z rest i v :
  view_inv this -> ~ height this == 0 ->
  ~ fst (domain (y this)) == snd (domain (y this)) ->
  (i < length (data (chart this)))%nat ->
  inSubInterval (chart this) (zoomDomain this z) i = true ->
  min (tupleOfRow (nth i (data (chart this)) [])) <= v
  <= max (tupleOfRow (nth i (data (chart this)) [])) ->
  exists that attr minMax,
    zoomBody this (z :: rest) = (that, None) /\ view that = Some attr /\
    getMinMax (data (chart this)) (fst (zoomQuery this z)) (snd (zoomQuery this z))
    = Some minMax /\
    (~ min minMax == max minMax ->
     between (height this) 0 (scaleY attr * scaleApply (y this) v + translateY attr)).
Proof.
  intros H Hh Hy Hi Hin Hv.
  destruct (zoomBody_on_hit this z rest i H Hi Hin) as (minMax & E & Eb).
  destruct (zoomDone_attr this z minMax) as (attr & Ea & Ep).
  exists (zoomDone this z minMax), attr, minMax. repeat split; auto.
  intros Hm. rewrite Ep.
  pose proof (zoomQuery_covers this z i minMax v H Hi Hin E Hv) as Hb.
  pose proof (vinv_y _ H) as Hr.
  destruct (y this) as [[d0 d1] [r0 r1]]. simpl in Hr, Hy. inv Hr.
  now apply (zoomTransformY_fits (height this) (mkMinMax d0 d1) minMax v).
Qed.

End HandlerBounds.

(** ** Evaluation *)

(** The example chart is what the constructor makes, the zoom by 2 shows
    the dates 10 to 30 and asks the tree about the positions 1 to 3, whose
    samples range from 3 to 8. *)
Example view5_zoomIn :
  newChartView 800%Q 300%Q 0 10 rows5 = Some view5 /\
  zoomDomain view5 zoomIn = (10%Z, 30%Z) /\
  zoomQuery view5 zoomIn = (1%nat, 3%nat) /\
  getMinMax rows5 1 3 = Some (mkMinMax 3%Q 8%Q).
Proof. vm_compute. repeat split. Qed.

(** At construction the paths and the horizontal axis disagree: the last
    of the five samples, dated 40, is drawn at pixel 640 of 800, where the
    axis reads the date 32; the axis reads 40 at pixel 800. *)
Example path_axis_offset :
  opt_is (toScreen (axisX (pathTransform 800%Q 300%Q rows5 (mkMinMax 1%Q 10%Q)))
                   4%Q) 640 /\
  calcDate (chart view5) 4 (minX (chart view5)) = 40%Z /\
  timeInvert (chartX view5) 640%Q = 32%Z /\
  timeInvert (chartX view5) 800%Q = 40%Z.
Proof. vm_compute. repeat split. Qed.

(** A sample far above the extremes the chart was made with is drawn far
    above the chart after its redraw: the scale [y] still maps 1 to row 300
    and 10 to row 0, and the value 100 to row -3000. *)
Example sample_outside_scale :
  let this := view_run [DataUpdate [100; 100]%Q; DrawTick] view5 in
  In [100; 100]%Q (pathData (chart this)) /\
  (scaleApply (y this) 100 == - (3000))%Q /\ view this = None.
Proof. vm_compute. repeat split. right. right. right. right. now left. Qed.

(** ** Witnesses *)

Lemma view5_new : newChartView 800%Q 300%Q 0 10 rows5 = Some view5.
Proof. vm_compute. reflexivity. Defined.

Lemma view5_inv : view_inv view5.
Proof. exact (view_inv_new 800%Q 300%Q 0%Z 10%Z rows5 view5 view5_new). Defined.

Lemma view_inv_run_witness :
  view_inv (view_run [ZoomCall [zoomIn]; DataUpdate [11; 12]%Q; ZoomTick; DrawTick]
                     view5).
Proof.
  exact (view_inv_run [ZoomCall [zoomIn]; DataUpdate [11; 12]%Q; ZoomTick; DrawTick]
                      800%Q 300%Q 0%Z 10%Z rows5 view5 view5_new).
Defined.

Lemma zoomQuery_hit_witness :
  validRange (length (tree (chart view5)))
             (fst (zoomQuery view5 zoomIn)) (snd (zoomQuery view5 zoomIn)) = true.
Proof.
  apply (zoomQuery_hit view5 zoomIn 2);
    [exact view5_inv | simpl; lia | vm_compute; reflexivity].
Defined.

Lemma zoomQuery_miss_witness :
  zoomQuery view5 zoomBetween = (length (data (chart view5)), 0%nat) /\
  validRange (length (data (chart view5)))
             (fst (zoomQuery view5 zoomBetween))
             (snd (zoomQuery view5 zoomBetween)) = false.
Proof.
  apply (zoomQuery_miss view5 zoomBetween).
  intros i Hi. simpl in Hi.
  do 5 (destruct i as [| i]; [vm_compute; reflexivity |]). lia.
Defined.

Lemma zoomBody_hit_witness :
  exists minMax,
    getMinMax (data (chart view5)) (fst (zoomQuery view5 zoomIn))
              (snd (zoomQuery view5 zoomIn)) = Some minMax /\
    zoomBody view5 [zoomIn] = (zoomDone view5 zoomIn minMax, None).
Proof.
  apply (zoomBody_hit view5 zoomIn [] 2);
    [exact view5_inv | simpl; lia | vm_compute; reflexivity].
Defined.

Lemma zoom_identity_witness :
  exists attr,
    zoomBody view5 [zoomIdentity]
    = (mkChartView (chart view5) (width view5) (height view5) (y view5)
                   (yAxis view5) (Some attr) (zoom view5), None) /\
    (translateX attr == 0)%num /\ (translateY attr == 0)%num /\
    (scaleX attr == 1)%num /\ (scaleY attr == 1)%num.
Proof.
  apply (zoom_identity 800%Q 300%Q 0%Z 10%Z rows5 view5 view5_new);
    try (apply Qneq_by_eval; reflexivity); [lia | discriminate].
Defined.

Lemma zoom_burst_shows_first_witness :
  view_run [ZoomCall [zoomIn]; ZoomCall [zoomBetween]; ZoomTick] view5
  = fst (zoomBody view5 [zoomIn]).
Proof. apply (zoom_burst_shows_first view5 zoomIn zoomBetween). reflexivity. Defined.

Lemma zoom_without_transform_witness :
  tickZoom (view_step view5 (ZoomCall [])) = (view5, Some NoTransform).
Proof. apply (zoom_without_transform view5). reflexivity. Defined.

Lemma zoom_fits_witness :
  exists that attr minMax,
    zoomBody view5 [zoomIn] = (that, None) /\ view that = Some attr /\
    getMinMax (data (chart view5)) (fst (zoomQuery view5 zoomIn))
              (snd (zoomQuery view5 zoomIn)) = Some minMax /\
    (~ (min minMax == max minMax)%num ->
     between (height view5) 0%Q
             (scaleY attr * scaleApply (y view5) 5%Q + translateY attr)%num).
Proof.
  apply (zoom_fits (ord := Qord) (qlaws := queryQ_laws) tupleQ
           (qbounds := queryQ_bounds) view5 zoomIn [] 2 5%Q);
    [exact view5_inv | apply Qneq_by_eval; reflexivity
    | apply Qneq_by_eval; reflexivity | simpl; lia | vm_compute; reflexivity
    | split; vm_compute; discriminate].
Defined.
