(* ===== verification/D3Zoom.v ===== *)
(** * D3Zoom: the zoom behaviour that delivers the transforms

    [drawChart] of [src/draw.ts] puts D3's zoom behaviour on a rectangle
    over the chart, with [scaleExtent([1, 40])] and
    [translateExtent([[0, 0], [width, height]])]; the benchmark uses
    [scaleExtent([1, 1])] and no translate extent.  The behaviour is
    library code (d3-zoom), modelled from its source as far as the charts
    depend on it: the transform kept on the element ([__zoom]), the clamp
    of the scale ([scale]), the move of a point under the pointer
    ([translate]), the constraint of the translation ([constrain]), and
    the two gestures, wheel and drag, which both deliver
    [constrain(translate(scale(t, k), p0, p1))].

    The default translate extent is infinite; the model writes it [None],
    for which [constrain] changes nothing (every difference it computes is
    infinite and both [Math.min(0, +Infinity)] and
    [Math.max(0, -Infinity)] are 0).  JavaScript's [a || b] on numbers is
    [b] when [a] is 0 and [a] otherwise.

    Theorems: the clamp keeps the scale within the scale extent; a
    constrained transform shows nothing outside the translate extent when
    the view port, scaled down by [k], fits in it; over every trace of
    gestures the transform kept by the behaviour of a chart has
    [1 <= k <= 40] and shows pixels of the chart only; for such a
    transform the domain that [zoom] gives [rx] lies within the dates of
    the axis; the benchmark's behaviour never changes the scale; on dates
    that are not negative the domain a zoom gives [rx] moves with the
    domain of [x], so that a zoom before a sample and its redraw leaves
    the chart as the same zoom after them, while before 1970 the two can
    differ by a millisecond. *)

From Stdlib Require Import List ZArith QArith Lia Bool.
From S2P Require Import Prelude Numeric Order Throttle Chart SegmentTree Zoom.
From S2P Require Import ZoomHandler.
Import ListNotations.

Local Open Scope num_scope.

Section Behaviour.
Context {T : Type} {ops : NumOps T} {fld : NumField T} {ord : NumOrder T}.

(** ** Transforms *)

(** [transform.translate(x, y)]. *)
Definition transformTranslate (t : ZoomTransform T) (x y : T) : ZoomTransform T :=
  mkZoomTransform (zoomK t) (zoomX t + zoomK t * x) (zoomY t + zoomK t * y).

(** [transform.invertY(py)]. *)
Definition invertY (t : ZoomTransform T) (py : T) : T :=
  (py - zoomY t) / zoomK t.

(** [transform.invert([px, py])]. *)
Definition invert (t : ZoomTransform T) (p : T * T) : T * T :=
  (invertX t (fst p), invertY t (snd p)).

(** ** The behaviour *)

Record ZoomBehavior := mkZoomBehavior {
  scaleExtent : T * T;
  translateExtent : option ((T * T) * (T * T));
  extent : (T * T) * (T * T)
}.

(** [scale(transform, k)]: the scale is clamped to the scale extent. *)
Definition scaleTo (b : ZoomBehavior) (t : ZoomTransform T) (k : T)
  : ZoomTransform T :=
  let k' := nmax (fst (scaleExtent b)) (nmin (snd (scaleExtent b)) k) in
  mkZoomTransform k' (zoomX t) (zoomY t).

(** [translate(transform, p0, p1)]: the model point [p1] comes under the
    pixel [p0]. *)
Definition translateTo (t : ZoomTransform T) (p0 p1 : T * T) : ZoomTransform T :=
  mkZoomTransform (zoomK t) (fst p0 - fst p1 * zoomK t)
                  (snd p0 - snd p1 * zoomK t).

(** [a || b] on numbers. *)
Definition jsOr (a b : T) : T :=
  if nleb a 0 && nleb 0 a then b else a.

(** One axis of [constrain]: the shift, in model units, from the overhangs
    [d0] at the low end and [d1] at the high end:
    [d1 > d0 ? (d0 + d1) / 2 : Math.min(0, d0) || Math.max(0, d1)]. *)
Definition constrainShift (d0 d1 : T) : T :=
  if nltb d0 d1 then (d0 + d1) / (1 + 1)
  else jsOr (nmin 0 d0) (nmax 0 d1).

(** [constrain(transform, extent)]. *)
Definition constrain (b : ZoomBehavior) (t : ZoomTransform T) : ZoomTransform T :=
  match translateExtent b with
  | None => t
  | Some ((x0, y0), (x1, y1)) =>
      let dx0 := invertX t (fst (fst (extent b))) - x0 in
      let dx1 := invertX t (fst (snd (extent b))) - x1 in
      let dy0 := invertY t (snd (fst (extent b))) - y0 in
      let dy1 := invertY t (snd (snd (extent b))) - y1 in
      transformTranslate t (constrainShift dx0 dx1) (constrainShift dy0 dy1)
  end.

(** What a gesture delivers: the wheel scales by [factor] around the
    pointer [p]; a drag brings under the pointer [p] the model point [p1]
    that was under it when the button went down. *)
Inductive gesture :=
| Wheel (factor : T) (p : T * T)
| Drag (p : T * T) (p1 : T * T).

Definition gesture_step (b : ZoomBehavior) (t : ZoomTransform T) (g : gesture)
  : ZoomTransform T :=
  match g with
  | Wheel factor p =>
      constrain b (translateTo (scaleTo b t (zoomK t * factor)) p (invert t p))
  | Drag p p1 => constrain b (translateTo t p p1)
  end.

Definition gesture_run (b : ZoomBehavior) (gs : list gesture)
  (t : ZoomTransform T) : ZoomTransform T :=
  fold_left (gesture_step b) gs t.

(** ** The two behaviours of the sources *)

(** [d3zoom().scaleExtent([1, 40]).translateExtent([[0, 0], [width, height]])]
    on a rectangle of that size. *)
Definition chartBehavior (w h : T) : ZoomBehavior :=
  mkZoomBehavior (1, nofZ 40) (Some ((0, 0), (w, h))) ((0, 0), (w, h)).

(** [zoom().scaleExtent([1, 1])] of the benchmark. *)
Definition benchBehavior (w h : T) : ZoomBehavior :=
  mkZoomBehavior (1, 1) None ((0, 0), (w, h)).

(** ** What a chart relies on *)

(** A transform that shows pixels of the chart only, along X: the scale is
    between 1 and 40, and the ends of the view port, seen through the
    transform, lie in [[0, w]]. *)
Record shows_chart (w : T) (t : ZoomTransform T) : Prop := {
  shows_scale : 1 <= zoomK t <= nofZ 40;
  shows_low : 0 <= invertX t 0;
  shows_high : invertX t w <= w
}.

End Behaviour.

Arguments ZoomBehavior T : clear implicits.
Arguments gesture T : clear implicits.

Section BehaviourFacts.
Context {T : Type} {ops : NumOps T} {fld : NumField T} {ord : NumOrder T}.
Add Field d3zoom_field : nfield_th (setoid neq_equiv num_ring_ext).
Implicit Types (t : ZoomTransform T) (b : ZoomBehavior T) (g : gesture T)
  (k w h d p x a c : T).

(** ** The clamp *)

Lemma scaleTo_between b t k :
  fst (scaleExtent b) <= snd (scaleExtent b) ->
  fst (scaleExtent b) <= zoomK (scaleTo b t k) <= snd (scaleExtent b).
Proof.
  intros H. simpl. split; [apply nmax_le_l |].
  apply nmax_lub; [exact H | apply nmin_le_l].
Qed.

(** ** One axis of the constraint *)

Lemma nleb_refl_eq a c : a == c -> nleb a c = true /\ nleb c a = true.
Proof.
  intros E. split; apply nleb_spec; rewrite E; reflexivity.
Qed.

Lemma jsOr_cases a c : (a == 0 /\ jsOr a c = c) \/ (~ a == 0 /\ jsOr a c = a).
Proof.
  unfold jsOr. destruct (nleb a 0) eqn:E1, (nleb 0 a) eqn:E2; simpl;
    [left; split; [apply nle_antisym; now apply nleb_spec | reflexivity] | ..];
    right; (split; [| reflexivity]); intros E;
    destruct (nleb_refl_eq a 0 E); congruence.
Qed.

Lemma nmin_0_cases d : (0 <= d /\ nmin 0 d = 0) \/ (d <= 0 /\ nmin 0 d = d).
Proof.
  unfold nmin. destruct (nleb 0 d) eqn:E;
    [left; split; [now apply nleb_spec | reflexivity]
    | right; split; [now apply nleb_false | reflexivity]].
Qed.

Lemma nmax_0_cases d : (d <= 0 /\ nmax 0 d = 0) \/ (0 <= d /\ nmax 0 d = d).
Proof.
  unfold nmax. destruct (nleb 0 d) eqn:E;
    [right; split; [now apply nleb_spec | reflexivity]
    | left; split; [now apply nleb_false | reflexivity]].
Qed.

(** When the view port fits in the translate extent (the overhang at the
    high end is not above the one at the low end), the shift leaves no
    overhang: after it the low end is at or above the extent's and the
    high end at or below. *)
Lemma constrainShift_fits (d0 d1 : T) :
  d1 <= d0 ->
  0 <= d0 - constrainShift d0 d1 /\ d1 - constrainShift d0 d1 <= 0.
Proof.
  intros H. unfold constrainShift.
  destruct (nltb d0 d1) eqn:E;
    [apply nltb_spec in E; contradiction |].
  assert (forall a, a - a == 0) as Z by (intros; ring).
  assert (forall a, a - 0 == a) as Z0 by (intros; ring).
  destruct (jsOr_cases (nmin 0 d0) (nmax 0 d1)) as [[E0 ->] | [N0 ->]].
  - assert (0 <= d0) as Hd0 by (rewrite <- E0; apply nmin_le_r).
    destruct (nmax_0_cases d1) as [[Hd1 ->] | [Hd1 ->]].
    + rewrite !Z0. now split.
    + rewrite Z. split; [exact (proj1 (nle_sub d1 d0) H) | reflexivity].
  - destruct (nmin_0_cases d0) as [[_ Em] | [Hd0 ->]].
    + rewrite Em in N0. exfalso. apply N0. reflexivity.
    + rewrite Z. split; [reflexivity | exact (proj1 (nle_sub_nonpos d1 d0) H)].
Qed.

(** ** The constraint on a transform *)

Lemma invertX_translate t d dy p :
  ~ zoomK t == 0 -> invertX (transformTranslate t d dy) p == invertX t p - d.
Proof. intros Hk. unfold invertX. simpl. nfield. Qed.

Lemma constrain_zoomK b t : zoomK (constrain b t) = zoomK t.
Proof.
  unfold constrain. destruct (translateExtent b) as [[[x0 y0] [x1 y1]] |];
    reflexivity.
Qed.

(** Along X, when the view port seen through the transform is not wider
    than the translate extent, the constrained transform shows nothing
    outside the translate extent. *)
Lemma constrain_fits_X b t x0 y0 x1 y1 :
  translateExtent b = Some ((x0, y0), (x1, y1)) -> ~ zoomK t == 0 ->
  invertX t (fst (snd (extent b))) - x1 <= invertX t (fst (fst (extent b))) - x0 ->
  x0 <= invertX (constrain b t) (fst (fst (extent b))) /\
  invertX (constrain b t) (fst (snd (extent b))) <= x1.
Proof.
  intros E Hk H. unfold constrain. rewrite E.
  destruct (constrainShift_fits _ _ H) as [H0 H1].
  rewrite !invertX_translate by exact Hk. split.
  - apply nle_sub. now rewrite nsub_sub_swap.
  - apply nle_sub_nonpos. now rewrite nsub_sub_swap.
Qed.

(** ** Scales of one and more *)

(** Seen through a scale of one or more, a view port that starts at 0 is
    not wider than itself. *)
Lemma invertX_narrower t w :
  1 <= zoomK t -> 0 <= w -> invertX t w - w <= invertX t 0 - 0.
Proof.
  intros Hk Hw. pose proof (nge_1_neq0 _ Hk) as Hn.
  apply nle_sub.
  assert (invertX t 0 - 0 - (invertX t w - w) == w * ((zoomK t - 1) * (1 / zoomK t)))
    as -> by (unfold invertX; nfield).
  apply nmul_nonneg; [exact Hw |].
  apply nmul_nonneg;
    [exact (proj1 (nle_sub 1 (zoomK t)) Hk)
    | apply ninv_nonneg; auto using nge_1_nonneg].
Qed.

(** With a scale that is not negative, [invertX] keeps the order of
    pixels. *)
Lemma invertX_mono t p q :
  0 <= zoomK t -> ~ zoomK t == 0 -> p <= q -> invertX t p <= invertX t q.
Proof.
  intros Hk Hn H. unfold invertX. apply ndiv_le_mono_nonneg; auto.
  now apply nadd_le_mono_r_sub.
Qed.

(** ** The behaviour of a chart *)

Lemma shows_chart_identity w : shows_chart w zoomIdentity.
Proof.
  assert (forall p : T, invertX zoomIdentity p == p) as E
    by (intros p; unfold invertX; simpl; nfield).
  split; simpl.
  - split; [reflexivity | apply (nofpos_ge_1 40)].
  - rewrite E. reflexivity.
  - rewrite E. reflexivity.
Qed.

(** Whatever transform it is given, [constrain] of a chart's behaviour
    returns one that shows pixels of the chart only, if the scale is in
    the scale extent. *)
Lemma shows_chart_constrain w h t :
  0 <= w -> 1 <= zoomK t <= nofZ 40 ->
  shows_chart w (constrain (chartBehavior w h) t).
Proof.
  intros Hw Hk.
  destruct (constrain_fits_X (chartBehavior w h) t 0 0 w h eq_refl
              (nge_1_neq0 _ (proj1 Hk)) (invertX_narrower t w (proj1 Hk) Hw))
    as [H0 H1].
  split; [now rewrite constrain_zoomK | exact H0 | exact H1].
Qed.

Lemma shows_chart_step w h t g :
  0 <= w -> shows_chart w t -> shows_chart w (gesture_step (chartBehavior w h) t g).
Proof.
  intros Hw [Hk _ _]. destruct g as [factor p | p p1]; simpl;
    apply shows_chart_constrain; auto.
  apply (scaleTo_between (chartBehavior w h)). apply (nofpos_ge_1 40).
Qed.

(** C17: Over every sequence of gestures, the transform kept by the behaviour
    that [drawChart] configures has a scale between 1 and 40 and shows
    pixels of the chart only. *)
Theorem gesture_run_shows_chart w h (gs : list (gesture T)) :
  0 <= w -> shows_chart w (gesture_run (chartBehavior w h) gs zoomIdentity).
Proof.
  intros Hw. unfold gesture_run. apply fold_left_invariant;
    [intros t g; now apply shows_chart_step | apply shows_chart_identity].
Qed.

(** ** The behaviour of the benchmark *)

Lemma bench_step_scale w h t g :
  zoomK t == 1 -> zoomK (gesture_step (benchBehavior w h) t g) == 1.
Proof.
  intros E. destruct g as [factor p | p p1]; simpl; [| exact E].
  apply nle_antisym; [| apply nmax_le_l].
  apply nmax_lub; [reflexivity | apply nmin_le_l].
Qed.

(** With [scaleExtent([1, 1])] no gesture changes the scale: the benchmark
    pans only. *)
Theorem bench_never_scales w h (gs : list (gesture T)) :
  zoomK (gesture_run (benchBehavior w h) gs zoomIdentity) == 1.
Proof.
  unfold gesture_run.
  apply (fold_left_invariant (fun t => zoomK t == 1));
    [intros t g; apply bench_step_scale | reflexivity].
Qed.

End BehaviourFacts.

(** ** The zoomed domain *)

Section DomainBounds.
Context {T : Type} {ops : NumOps T} {fld : NumField T} {ord : NumOrder T}.
Context {dates : DateOps T} {dlaws : DateLaws T} {dord : DateOrder T}.
Context {query : RangeQuery T}.
Add Field d3zoom_domain_field : nfield_th (setoid neq_equiv num_ring_ext).
Implicit Types (t z : ZoomTransform T) (s : TimeScale T) (this : ChartView T).

(** The number interpolated at a pixel of the range lies between the
    numbers of the ends of the domain. *)
Lemma interpolate_between (d0 d1 : Z) (r0 r1 px : T) :
  ~ r0 == r1 -> between r0 r1 px ->
  between (ofDate d0) (ofDate d1)
          (ofDate d0 * (1 - (px - r0) / (r1 - r0))
           + ofDate d1 * ((px - r0) / (r1 - r0))).
Proof.
  intros Hr Hpx.
  pose proof (between_affine ((ofDate d1 - ofDate d0) / (r1 - r0))
                (ofDate d0 - (ofDate d1 - ofDate d0) / (r1 - r0) * r0)
                r0 r1 px Hpx) as H.
  revert H. apply between_proper; nfield.
Qed.

(** A pixel of the range of a time scale has its date in the domain. *)
Lemma timeInvert_between s px :
  ~ fst (timeRange s) == snd (timeRange s) ->
  between (fst (timeRange s)) (snd (timeRange s)) px ->
  betweenZ (fst (timeDomain s)) (snd (timeDomain s)) (timeInvert s px).
Proof.
  destruct s as [[d0 d1] [r0 r1]]. unfold timeInvert. simpl. intros Hr Hpx.
  apply toDate_between. now apply interpolate_between.
Qed.

(** A transform that shows pixels of the chart only has the ends of the
    view port, seen through it, between 0 and the width. *)
Lemma shows_chart_ends w z :
  0 <= w -> shows_chart w z ->
  between 0 w (invertX z 0) /\ between 0 w (invertX z w).
Proof.
  intros Hw [[Hk _] H0 H1].
  pose proof (invertX_mono z 0 w (nge_1_nonneg _ Hk) (nge_1_neq0 _ Hk) Hw) as Hm.
  split; apply between_sorted; auto; etransitivity; eassumption.
Qed.

(** C18: A zoom by a transform that the behaviour of the chart delivers gives
    [rx] a domain within the domain of [x]: the zoomed axis never shows a
    date outside the dates the axis was made with. *)
Theorem zoomDomain_within this z :
  0 <= width this -> ~ width this == 0 -> shows_chart (width this) z ->
  betweenZ (fst (xDomain (chart this))) (snd (xDomain (chart this)))
           (fst (zoomDomain this z)) /\
  betweenZ (fst (xDomain (chart this))) (snd (xDomain (chart this)))
           (snd (zoomDomain this z)).
Proof.
  intros Hw Hn Hz. destruct (shows_chart_ends _ z Hw Hz) as [H0 H1].
  assert (~ fst (timeRange (chartX this)) == snd (timeRange (chartX this)))
    as Hr by (simpl; intros E; apply Hn; now symmetry).
  unfold zoomDomain, rescaleX. simpl.
  split; apply (timeInvert_between (chartX this)); auto.
Qed.

End DomainBounds.

(** ** Zoom and redraw *)

Section DomainShift.
Context {T : Type} {ops : NumOps T} {fld : NumField T} {ord : NumOrder T}.
Context {dates : DateOps T} {dlaws : DateLaws T} {dord : DateOrder T}.
Context {dshift : DateShift T} {query : RangeQuery T}.
Add Field d3zoom_shift_field : nfield_th (setoid neq_equiv num_ring_ext).
Implicit Types (t z : ZoomTransform T) (s : TimeScale T) (this : ChartView T).

(** On a scale whose dates are not negative, moving the domain by [c]
    milliseconds moves the date of every pixel of the range by [c]. *)
Lemma timeInvert_shift (d0 d1 c : Z) (r0 r1 px : T) :
  ~ r0 == r1 -> between r0 r1 px ->
  (0 <= d0)%Z -> (0 <= d1)%Z -> (0 <= c)%Z ->
  timeInvert (mkTimeScale (d0 + c, d1 + c)%Z (r0, r1)) px
  = (timeInvert (mkTimeScale (d0, d1) (r0, r1)) px + c)%Z.
Proof.
  intros Hr Hpx H0 H1 Hc. unfold timeInvert. cbn [timeDomain timeRange].
  rewrite <- toDate_shift; [| | exact Hc].
  - apply toDate_proper. rewrite !ofDate_add. nfield.
  - apply (between_nonneg (ofDate d0) (ofDate d1));
      auto using ofDate_nonneg, interpolate_between.
Qed.

(** So does the domain a zoom gives [rx], when the domain of [x] moves. *)
Lemma zoomDomain_shift this that z (c : Z) :
  width that = width this ->
  xDomain (chart that)
  = (fst (xDomain (chart this)) + c, snd (xDomain (chart this)) + c)%Z ->
  0 <= width this -> ~ width this == 0 -> shows_chart (width this) z ->
  (0 <= fst (xDomain (chart this)))%Z -> (0 <= snd (xDomain (chart this)))%Z ->
  (0 <= c)%Z ->
  zoomDomain that z
  = (fst (zoomDomain this z) + c, snd (zoomDomain this z) + c)%Z.
Proof.
  intros Ew Ex Hw Hn Hz H0 H1 Hc.
  destruct (shows_chart_ends _ z Hw Hz) as [Hl Hh].
  assert (~ 0 == width this) as Hr by (intros E; apply Hn; now symmetry).
  unfold zoomDomain, rescaleX, chartX. rewrite Ew, Ex.
  destruct (xDomain (chart this)) as [d0 d1]. cbn [fst snd timeDomain timeRange] in *.
  f_equal; now apply timeInvert_shift.
Qed.

(** A call of [zoom] on a chart whose throttle is at rest, and the tick:
    [rx] has the domain of the transform. *)
Lemma zoom_call_tick this z :
  zoom this = drawProc ->
  chart (view_run [ZoomCall [z]; ZoomTick] this)
  = setRx (chart this) (zoomDomain this z).
Proof.
  intros Ez. unfold view_run. cbn [fold_left view_step]. unfold tickZoom.
  cbn [zoom chart width height y yAxis view]. rewrite Ez.
  change (timeout (invoke drawProc [z])) with (@drawProc (list (ZoomTransform T)), Some [z]).
  cbv beta iota.
  set (this0 := mkChartView _ _ _ _ _ _ _).
  change (zoomDomain this z) with (zoomDomain this0 z).
  change (chart this) with (chart this0).
  destruct (getMinMax (tree (chart this0)) (fst (zoomQuery this0 z))
                      (snd (zoomQuery this0 z))) as [mm |] eqn:E.
  - now rewrite (zoomBody_answered this0 z [] mm E).
  - now rewrite (zoomBody_not_answered this0 z [] E).
Qed.

(** The domain of [x] after a sample and its redraw: moved by the missed
    steps and one more. *)
Lemma xDomain_after_update (c : TimeSeriesChart T) newData :
  chart_inv c ->
  xDomain (tickDrawNewData (updateChartWithNewData c newData))
  = (fst (xDomain c) + (missedStepsCount c + 1) * stepX c,
     snd (xDomain c) + (missedStepsCount c + 1) * stepX c)%Z.
Proof.
  intros Hc. destruct (redraw_after_update c newData Hc) as (Em & Es & Ed & _).
  pose proof (chart_inv_tick _ (chart_inv_update c newData Hc)) as Hc'.
  rewrite (inv_xDomain _ Hc'), (inv_maxX _ Hc'), (inv_xDomain _ Hc), (inv_maxX _ Hc).
  rewrite Em, Ed. unfold calcDate. rewrite Es.
  pose proof (updateChartWithNewData_length c newData) as El. simpl in El.
  rewrite El. simpl. f_equal; lia.
Qed.

(** The dates of the axis of a chart whose first date and step are not
    negative are not negative. *)
Lemma xDomain_nonneg (c : TimeSeriesChart T) :
  chart_inv c -> (0 <= minX c)%Z -> (0 <= stepX c)%Z -> data c <> [] ->
  (0 <= fst (xDomain c))%Z /\ (0 <= snd (xDomain c))%Z.
Proof.
  intros Hc Hm Hs Hd. rewrite (inv_xDomain _ Hc), (inv_maxX _ Hc).
  unfold calcDate. simpl. split; [exact Hm |].
  destruct (data c) as [| row rest]; [contradiction |].
  simpl length. nia.
Qed.

(** Zoom and redraw commute: on a chart whose dates are not negative, a
    zoom before a sample and its redraw leaves the chart as the same zoom
    after them. *)
Lemma view_zoom_redraw_commute this z newData :
  view_inv this -> zoom this = drawProc ->
  0 <= width this -> ~ width this == 0 -> shows_chart (width this) z ->
  (0 <= minX (chart this))%Z -> (0 <= stepX (chart this))%Z ->
  data (chart this) <> [] ->
  chart (view_run [ZoomCall [z]; ZoomTick; DataUpdate newData; DrawTick] this)
  = chart (view_run [DataUpdate newData; DrawTick; ZoomCall [z]; ZoomTick] this).
Proof.
  intros Hv Ez Hw Hn Hz Hm Hs Hd. pose proof (vinv_chart _ Hv) as Hc.
  change (chart (view_run [ZoomCall [z]; ZoomTick; DataUpdate newData; DrawTick] this))
    with (tickDrawNewData
            (updateChartWithNewData (chart (view_run [ZoomCall [z]; ZoomTick] this))
                                    newData)).
  rewrite (zoom_call_tick this z Ez).
  set (that := view_run [DataUpdate newData; DrawTick] this).
  change (view_run [DataUpdate newData; DrawTick; ZoomCall [z]; ZoomTick] this)
    with (view_run [ZoomCall [z]; ZoomTick] that).
  rewrite (zoom_call_tick that z Ez).
  destruct (xDomain_nonneg _ Hc Hm Hs Hd) as [H0 H1].
  rewrite (zoomDomain_shift this that z
             ((missedStepsCount (chart this) + 1) * stepX (chart this))%Z
             eq_refl (xDomain_after_update _ newData Hc) Hw Hn Hz H0 H1)
    by (pose proof (inv_missed _ Hc); nia).
  change (chart that)
    with (tickDrawNewData (updateChartWithNewData (chart this) newData)).
  pose proof (chart_inv_setRx _ (zoomDomain this z) Hc) as Hc1.
  destruct (redraw_after_update _ newData Hc) as (Em & Es & Ed & Er).
  destruct (redraw_after_update _ newData Hc1) as (Em1 & Es1 & Ed1 & Er1).
  unfold calcDate in Em1, Es1, Ed1, Er1, Em.
  cbn [setRx stepX minX missedStepsCount data rxDomain] in Em1, Es1, Ed1, Er1.
  apply settled_chart_eq;
    cbn [setRx stepX minX missedStepsCount data rxDomain];
    auto using chart_inv_setRx, chart_inv_tick, chart_inv_update,
               tickDrawNewData_settles.
  - now rewrite Es1, <- Es.
  - now rewrite Em1, <- Em.
  - rewrite Er1. f_equal; lia.
  - now rewrite Ed1, <- Ed.
Qed.

End DomainShift.

(** ** Evaluation *)

(** On the chart of 800 by 300 pixels a turn of the wheel that doubles the
    scale with the pointer at the centre delivers the zoom by 2 around the
    centre: [k = 2], [x = -400], [y = -150]. *)
Example wheel_at_centre :
  let t := gesture_step (chartBehavior 800%Q 300%Q) zoomIdentity
                        (Wheel 2%Q (400%Q, 150%Q)) in
  (zoomK t == 2 /\ zoomX t == - (400) /\ zoomY t == - (150))%Q.
Proof. vm_compute. repeat split. Qed.

(** A drag that would show what lies left of the chart is brought back:
    the chart dragged 100 pixels to the right stays where it is. *)
Example drag_outside_constrained :
  let t := gesture_step (chartBehavior 800%Q 300%Q) zoomIdentity
                        (Drag (100%Q, 0%Q) (0%Q, 0%Q)) in
  (zoomK t == 1 /\ zoomX t == 0 /\ zoomY t == 0)%Q.
Proof. vm_compute. repeat split. Qed.

(** A transform the behaviour of a chart delivers can still miss every
    sample: on the five samples of [view5] a wheel turn that scales by
    20/3 with the pointer at pixel 300 shows the dates 12 to 18, between
    the second and the third sample, and [zoom] asks the tree about the
    positions [(5, 0)]. *)
Example wheel_between_samples :
  let t := gesture_step (chartBehavior 800%Q 300%Q) zoomIdentity
                        (Wheel (20 # 3)%Q (300%Q, 100%Q)) in
  zoomDomain view5 t = (12%Z, 18%Z) /\ zoomQuery view5 t = (5%nat, 0%nat).
Proof. vm_compute. repeat split. Qed.

(** Before 1970 the two orders can differ by a millisecond: [new Date]
    drops the fraction toward zero, so a date of -7.5 moved by 10 is 2
    when it is moved first and 3 when it is rounded first.  (Dates -35 to
    5, a zoom by 4 on the pixels 550 to 750.) *)
Example zoom_redraw_before_1970 :
  let this := mkChartView (newChart (-35) 10 rows5) 800%Q 300%Q
                          (chartScaleY 300%Q (mkMinMax 1%Q 10%Q))
                          (chartScaleY 300%Q (mkMinMax 1%Q 10%Q)) None drawProc in
  let z := mkZoomTransform 4%Q (- (2200))%Q 0%Q in
  rxDomain (chart (view_run [ZoomCall [z]; ZoomTick; DataUpdate [11; 12]%Q; DrawTick]
                            this)) = (3, 12)%Z /\
  rxDomain (chart (view_run [DataUpdate [11; 12]%Q; DrawTick; ZoomCall [z]; ZoomTick]
                            this)) = (2, 12)%Z.
Proof. vm_compute. split; reflexivity. Qed.

(** ** Witnesses *)

Lemma Q0_800 : (0 <= 800)%Q.
Proof. vm_compute. discriminate. Defined.

Lemma gesture_run_shows_chart_witness :
  shows_chart 800%Q
    (gesture_run (chartBehavior 800%Q 300%Q)
                 [Wheel 2%Q (400%Q, 150%Q); Drag (100%Q, 150%Q) (300%Q, 150%Q)]
                 zoomIdentity).
Proof.
  exact (gesture_run_shows_chart (T := Q) 800%Q 300%Q
           [Wheel 2%Q (400%Q, 150%Q); Drag (100%Q, 150%Q) (300%Q, 150%Q)]
           Q0_800).
Defined.

Lemma shows_chart_zoomIn : shows_chart 800%Q zoomIn.
Proof. split; [split |..]; vm_compute; discriminate. Defined.

Lemma zoomDomain_within_witness :
  betweenZ (fst (xDomain (chart view5))) (snd (xDomain (chart view5)))
           (fst (zoomDomain view5 zoomIn)) /\
  betweenZ (fst (xDomain (chart view5))) (snd (xDomain (chart view5)))
           (snd (zoomDomain view5 zoomIn)).
Proof.
  apply (zoomDomain_within (ord := Qord) (dord := Qdates_order) view5 zoomIn);
    [exact Q0_800 | apply Qneq_by_eval; reflexivity | exact shows_chart_zoomIn].
Defined.
