(* ===== verification/D3Line.v ===== *)
(** * D3Line: the line generator that writes the paths

    [drawChart] of [src/draw.ts] draws each series with D3's line
    generator, [line().defined(...).x(...).y(...)], called on the buffer.
    The generator is library code (d3-shape); it is modelled from its
    source: a loop over the positions 0 to [data.length] that keeps the
    flag [defined0] (is a line open), opens a line at the first defined
    sample of a run ([lineStart]), adds a point for every defined sample
    ([point]), and ends the line after the last sample of the run
    ([lineEnd]).  The linear curve writes [M] for the first point of a
    line, [L] for the others, and closes a line of one point with [Z].

    The path is the list of its commands, in order.

    Theorems: the points of the path are those of the defined samples, in
    the order of the buffer and with their positions (the reference
    [linePoints]); the path is well formed (it starts with a move, a line
    of one point is closed, no command draws without a current point);
    without a defined sample the path has no point; a sample between two
    gaps is drawn as a closed line of one point. *)

From Stdlib Require Import List Bool Arith Lia ZArith.
From S2P Require Import Prelude.
Import ListNotations.

Section Line.
Context {T A : Type}.

(** A command of a path: [M x,y], [L x,y], [Z]. *)
Inductive PathCommand :=
| MoveTo (x y : T)
| LineTo (x y : T)
| ClosePath.

(** The state of the generator and of its curve: the flag [defined0], the
    counter [_point] of the curve (0 before the first point of a line, 1
    after it, 2 from the second on), and the path written so far. *)
Record LineState := mkLineState {
  defined0 : bool;
  point_ : nat;
  output : list PathCommand
}.

(** The accessors given to the generator. *)
Context (defined : A -> nat -> bool) (x y : A -> nat -> T).

Definition lineStart (c : LineState) : LineState :=
  mkLineState (defined0 c) 0 (output c).

Definition lineEnd (c : LineState) : LineState :=
  if point_ c =? 1
  then mkLineState (defined0 c) (point_ c) (output c ++ [ClosePath])
  else c.

Definition linePoint (c : LineState) (px py : T) : LineState :=
  match point_ c with
  | 0 => mkLineState (defined0 c) 1 (output c ++ [MoveTo px py])
  | _ => mkLineState (defined0 c) 2 (output c ++ [LineTo px py])
  end.

(** One iteration of the loop, at position [i]; [d] is [data[i]], absent
    at [i = data.length]. *)
Definition lineIter (c : LineState) (i : nat) (d : option A) : LineState :=
  let isdef := match d with Some row => defined row i | None => false end in
  let c1 :=
    if eqb (negb isdef) (defined0 c)
    then let c' := mkLineState (negb (defined0 c)) (point_ c) (output c) in
         if defined0 c' then lineStart c' else lineEnd c'
    else c in
  match d with
  | Some row => if defined0 c1 then linePoint c1 (x row i) (y row i) else c1
  | None => c1
  end.

(** [for (i = 0; i <= n; ++i)] over the samples from position [i] on. *)
Fixpoint lineLoop (i : nat) (data : list A) (c : LineState) : LineState :=
  match data with
  | [] => lineIter c i None
  | d :: rest => lineLoop (S i) rest (lineIter c i (Some d))
  end.

(** [line(data)]. *)
Definition line (data : list A) : list PathCommand :=
  output (lineLoop 0 data (mkLineState false 0 [])).

(** ** What a path is expected to be *)

(** The points a path passes through. *)
Definition pathPoints (path : list PathCommand) : list (T * T) :=
  flat_map (fun cmd => match cmd with
                       | MoveTo px py | LineTo px py => [(px, py)]
                       | ClosePath => []
                       end) path.

(** The points of the defined samples from position [i] on. *)
Fixpoint linePoints (i : nat) (data : list A) : list (T * T) :=
  match data with
  | [] => []
  | d :: rest =>
      (if defined d i then [(x d i, y d i)] else []) ++ linePoints (S i) rest
  end.

(** The pen of a renderer that reads a path: up (no current point), down
    after a move, down after a line. *)
Inductive Pen := PenUp | PenMoved | PenDrawn.

(** A move is accepted after a line or with the pen up, a line with the
    pen down, a close after a move only (the generator closes lines of one
    point). *)
Definition pen_step (s : option Pen) (cmd : PathCommand) : option Pen :=
  match s, cmd with
  | Some PenUp, MoveTo _ _ => Some PenMoved
  | Some PenDrawn, MoveTo _ _ => Some PenMoved
  | Some PenMoved, LineTo _ _ => Some PenDrawn
  | Some PenDrawn, LineTo _ _ => Some PenDrawn
  | Some PenMoved, ClosePath => Some PenUp
  | _, _ => None
  end.

Definition pen_run (path : list PathCommand) : option Pen :=
  fold_left pen_step path (Some PenUp).

(** A well-formed path: every command is accepted and the last line, if it
    has one point, is closed. *)
Definition path_ok (path : list PathCommand) : bool :=
  match pen_run path with
  | Some PenUp | Some PenDrawn => true
  | _ => false
  end.

(** The state of the generator agrees with the pen after the path written
    so far. *)
Definition line_inv (c : LineState) : Prop :=
  if defined0 c
  then (point_ c = 1 /\ pen_run (output c) = Some PenMoved) \/
       (point_ c = 2 /\ pen_run (output c) = Some PenDrawn)
  else pen_run (output c) = Some PenUp \/ pen_run (output c) = Some PenDrawn.

End Line.

Arguments PathCommand T : clear implicits.
Arguments LineState T : clear implicits.

Section LineFacts.
Context {T A : Type}.
Context (defined : A -> nat -> bool) (x y : A -> nat -> T).
Implicit Types (c : LineState T) (data : list A) (path : list (PathCommand T)).

Local Notation "'iter'" := (lineIter defined x y).
Local Notation "'loop'" := (lineLoop defined x y).

Lemma pathPoints_snoc path cmd :
  pathPoints (path ++ [cmd]) = pathPoints path ++ pathPoints [cmd].
Proof. unfold pathPoints. now rewrite flat_map_app. Qed.

Lemma pen_run_snoc path cmd :
  pen_run (path ++ [cmd]) = pen_step (pen_run path) cmd.
Proof. unfold pen_run. apply fold_left_snoc. Qed.

(** ** One iteration *)

(** At a defined sample the iteration adds its point and leaves a line
    open. *)
Lemma lineIter_defined c i row :
  line_inv c -> defined row i = true ->
  line_inv (iter c i (Some row)) /\
  defined0 (iter c i (Some row)) = true /\
  pathPoints (output (iter c i (Some row)))
  = pathPoints (output c) ++ [(x row i, y row i)].
Proof.
  unfold line_inv, lineIter. intros H E. rewrite E.
  destruct c as [[|] p out]; simpl in *.
  - destruct H as [[-> H] | [-> H]]; simpl;
      rewrite pen_run_snoc, pathPoints_snoc, H; auto.
  - destruct H as [H | H]; simpl;
      rewrite pen_run_snoc, pathPoints_snoc, H; auto.
Qed.

(** At a sample that is not defined, and after the last one, the iteration
    ends the open line, if any, and adds no point. *)
Lemma lineIter_end c i (d : option A) :
  line_inv c ->
  match d with Some row => defined row i = false | None => True end ->
  line_inv (iter c i d) /\
  defined0 (iter c i d) = false /\
  pathPoints (output (iter c i d)) = pathPoints (output c).
Proof.
  unfold line_inv, lineIter. intros H E.
  assert (match d with Some row => defined row i | None => false end = false)
    as -> by (destruct d; auto).
  destruct c as [[|] p out]; simpl in *.
  - destruct H as [[-> H] | [-> H]]; unfold lineEnd; simpl;
      destruct d; simpl; rewrite ?pen_run_snoc, ?pathPoints_snoc, ?H; simpl;
      rewrite ?app_nil_r; auto.
  - destruct d; simpl; auto.
Qed.

(** ** The loop *)

Lemma lineLoop_spec data : forall i c,
  line_inv c ->
  line_inv (loop i data c) /\ defined0 (loop i data c) = false /\
  pathPoints (output (loop i data c))
  = pathPoints (output c) ++ linePoints defined x y i data.
Proof.
  induction data as [| d rest IH]; intros i c H; cbn [lineLoop linePoints].
  - rewrite app_nil_r. now apply lineIter_end.
  - destruct (defined d i) eqn:E.
    + destruct (lineIter_defined c i d H E) as (H1 & _ & H3).
      destruct (IH (S i) _ H1) as (H4 & H5 & H6).
      repeat split; auto. rewrite H6, H3, <- app_assoc. reflexivity.
    + destruct (lineIter_end c i (Some d) H E) as (H1 & _ & H3).
      destruct (IH (S i) _ H1) as (H4 & H5 & H6).
      repeat split; auto. rewrite H6, H3. reflexivity.
Qed.

Lemma line_inv_init : line_inv (mkLineState (T := T) false 0 []).
Proof. now left. Qed.

(** The points of the path are the points of the defined samples, in the
    order of the buffer, each with its position. *)
Theorem line_points data :
  pathPoints (line defined x y data) = linePoints defined x y 0 data.
Proof.
  unfold line.
  now destruct (lineLoop_spec data 0 _ line_inv_init) as (_ & _ & ->).
Qed.

(** The path is well formed. *)
Theorem line_path_ok data : path_ok (line defined x y data) = true.
Proof.
  unfold line, path_ok.
  destruct (lineLoop_spec data 0 _ line_inv_init) as (H & E & _).
  unfold line_inv in H. rewrite E in H. now destruct H as [-> | ->].
Qed.

(** Every point of the path is a defined sample at its position. *)
Lemma linePoints_In data : forall i p,
  In p (linePoints defined x y i data) ->
  exists k row, nth_error data k = Some row /\ defined row (i + k) = true /\
                p = (x row (i + k), y row (i + k)).
Proof.
  induction data as [| d rest IH]; intros i p Hin; simpl in Hin; [contradiction |].
  apply in_app_or in Hin. destruct Hin as [Hin | Hin].
  - destruct (defined d i) eqn:E; [| contradiction].
    destruct Hin as [<- | []]. exists 0, d. rewrite Nat.add_0_r. auto.
  - destruct (IH (S i) p Hin) as (k & row & Hk & Hd & ->).
    exists (S k), row. rewrite Nat.add_succ_r. auto.
Qed.

(** And every defined sample has its point. *)
Lemma linePoints_complete data : forall i k row,
  nth_error data k = Some row -> defined row (i + k) = true ->
  In (x row (i + k), y row (i + k)) (linePoints defined x y i data).
Proof.
  induction data as [| d rest IH]; intros i k row Hk Hd;
    [destruct k; discriminate |].
  simpl. apply in_or_app. destruct k as [| k]; simpl in Hk.
  - inv Hk. rewrite Nat.add_0_r in *. rewrite Hd. left. now left.
  - right. rewrite Nat.add_succ_r. apply (IH (S i) k row Hk).
    now rewrite Nat.add_succ_r in Hd.
Qed.

(** Without a defined sample the path has no point. *)
Lemma linePoints_none data : forall i,
  (forall k row, nth_error data k = Some row -> defined row (i + k) = false) ->
  linePoints defined x y i data = [].
Proof.
  induction data as [| d rest IH]; intros i H; simpl; [reflexivity |].
  rewrite <- (Nat.add_0_r i) at 1. rewrite (H 0 d eq_refl). simpl.
  apply IH. intros k row Hk. rewrite Nat.add_succ_comm. now apply (H (S k)).
Qed.

End LineFacts.

(** ** Evaluation *)

(** Four samples, the second missing: the first is a line of one point,
    closed; the last two are joined. *)
Example line_with_gap :
  line (fun d _ => is_some d) (fun _ i => Z.of_nat i)
       (fun d _ => match d with Some v => v | None => 0%Z end)
       [Some 1%Z; None; Some 3%Z; Some 4%Z]
  = [MoveTo 0%Z 1%Z; ClosePath; MoveTo 2%Z 3%Z; LineTo 3%Z 4%Z].
Proof. reflexivity. Qed.
