(* ===== verification/DrawChart.v ===== *)
(** * DrawChart: what [drawChart] puts on the page

    [drawChart] of [src/draw.ts], whole: it sizes the [svg] to its
    container, makes the scales and the two axes, the line generator of a
    series ([drawLine]), the tree, the two paths, the rectangle that
    carries D3's zoom behaviour, the transform of the paths
    ([pathTransform]) and the record [this.chart].  [Scene] is the chart
    with what the page holds beside the fields of [ChartView]: the size
    attributes, the settings of the axes, the zoom behaviour with the
    transform it keeps on the rectangle, the mapper of the paths, and the
    handler the constructor was given for zoom events.

    The paths themselves are a function of the samples they were last
    drawn from ([pathData] of [Chart]): [paths].  A path is drawn with the
    position of a sample as its abscissa and its value as its ordinate;
    the group that holds the paths carries one transform, the matrix that
    [pathTransform] wrote until [zoom] sets the attribute [transform],
    the attribute afterwards ([viewMatrix]).

    [MyAxis] is a class of a file that is not in the repository; its
    settings are modelled as D3's axis has them.  The handler given to the
    constructor is data: it calls [zoom] with the transform of the event,
    or, as the demo does, without an argument.

    Events of a scene: a gesture on the rectangle, a tick of the timer of
    [zoom], a sample, a tick of the redraw timer.  Calls of [zoom] come
    from the handler only.

    Theorems: the picture [drawChart] makes lies inside the [svg]; the
    labels of the axes keep their distance from the edge whatever the
    size; over every trace of gestures, samples and ticks of a scene whose
    handler passes the transform, the zoomed axis shows dates of the data
    only; a gesture before a sample and its redraw leaves the chart as
    the same gesture after them; with a handler that calls [zoom] without
    an argument the view is never transformed and the first gesture is
    the last; a zoom sets the transform of the paths in the pixel
    coordinates of the scales although the paths are drawn in positions
    and values. *)

From Stdlib Require Import List ZArith QArith Qminmax Lia Bool Arith.
From S2P Require Import Prelude Numeric Order SVGMatrix Affine Basis Throttle.
From S2P Require Import Chart SegmentTree Viewport Zoom ZoomHandler D3Zoom D3Line.
Import ListNotations.

Local Open Scope num_scope.
Local Open Scope opt_scope.

Section DrawChart.
Context {T : Type} {ops : NumOps T} {nan : NaNOps T} {dates : DateOps T}.
Context {query : RangeQuery T}.

(** ** Axes *)

(** [axis.Orientation]. *)
Inductive Orientation := Top | Right | Bottom | Left.

(** The settings of a [MyAxis]: where it stands, the argument of [ticks],
    the length of a tick and the gap between a tick and its label. *)
Record MyAxis := mkMyAxis {
  orientation : Orientation;
  tickArguments : option Z;
  tickSize : T;
  tickPadding : T
}.

(** [new axis.MyAxis(orientation, scale)], with D3's defaults. *)
Definition newMyAxis (o : Orientation) : MyAxis :=
  mkMyAxis o None (nofZ 6) (nofZ 3).

Definition ticks (a : MyAxis) (n : Z) : MyAxis :=
  mkMyAxis (orientation a) (Some n) (tickSize a) (tickPadding a).

Definition setTickSize (a : MyAxis) (s : T) : MyAxis :=
  mkMyAxis (orientation a) (tickArguments a) s (tickPadding a).

Definition setTickPadding (a : MyAxis) (p : T) : MyAxis :=
  mkMyAxis (orientation a) (tickArguments a) (tickSize a) p.

(** The distance between the axis line and a tick label. *)
Definition labelOffset (a : MyAxis) : T := tickSize a + tickPadding a.

(** The horizontal axis: ticks as long as the chart is high. *)
Definition newXAxis (height : T) : MyAxis :=
  setTickPadding (setTickSize (ticks (newMyAxis Bottom) 4) height)
                 (nofZ 8 - height).

(** The vertical axis: ticks as long as the chart is wide. *)
Definition newYAxis (width : T) : MyAxis :=
  setTickPadding (setTickSize (ticks (newMyAxis Right) 4) width)
                 (nofZ 2 - width).

(** ** Scales *)

(** [scaleLinear().range([height, 0])]: the domain is D3's default. *)
Definition newScaleY (height : T) : LinearScale T :=
  mkLinearScale (0, 1) (height, 0).

(** [scale.domain(d)]. *)
Definition setDomain (s : LinearScale T) (d : T * T) : LinearScale T :=
  mkLinearScale d (range s).

(** ** Lines *)

(** The test given to [defined]: the cell is there and is not NaN.  A
    cell the row does not have reads [undefined], which [== null]
    rejects. *)
Definition cellDefined (cityIdx : nat) (d : list T) : bool :=
  match nth_error d cityIdx with
  | Some v => negb (nisNaN v)
  | None => false
  end.

(** [drawLine(cityIdx)] called on the buffer: the abscissa of a sample is
    its position, the ordinate its value. *)
Definition drawLine (cityIdx : nat) (data0 : list (list T))
  : list (PathCommand T) :=
  line (fun d _ => cellDefined cityIdx d)
       (fun _ i => nofZ (Z.of_nat i))
       (fun d _ => nth cityIdx d 0)
       data0.

(** The attribute [d] of the two paths, bound to the series 0 and 1. *)
Definition pathsOf (data0 : list (list T)) : list (list (PathCommand T)) :=
  map (fun cityIndex => drawLine cityIndex data0) [0; 1]%nat.

(** ** The page *)

(** What the handler given to the constructor does with a zoom event. *)
Inductive Handler :=
| PassTransform
| NoArgument.

Definition handlerArgs (h : Handler) (t : ZoomTransform T)
  : list (ZoomTransform T) :=
  match h with
  | PassTransform => [t]
  | NoArgument => []
  end.

Record Scene := mkScene {
  sview : ChartView T;
  svgWidth : T;
  svgHeight : T;
  xAxis : MyAxis;
  yAxisSettings : MyAxis;
  zoomRect : ZoomBehavior T;
  zoomElement : option (ZoomTransform T);
  zoomHandler : Handler;
  pathMapper : ViewWindowTransform T
}.

(** [drawChart(svg, data)], called by the constructor; [clientWidth] and
    [clientHeight] are the size of the container of the [svg]. *)
Definition drawChart (clientWidth clientHeight : T) (handler : Handler)
  (minX0 stepX0 : Z) (data0 : list (list T)) : option Scene :=
  let width0 := clientWidth in
  let height0 := clientHeight in
  let xAxis0 := newXAxis height0 in
  let yAxis0 := newYAxis width0 in
  minMax <- getMinMax data0 0 (length data0 - 1) ;;
  let y0 := setDomain (newScaleY height0) (min minMax, max minMax) in
  Some (mkScene (mkChartView (newChart minX0 stepX0 data0) width0 height0
                             y0 y0 None drawProc)
                width0 height0 xAxis0 yAxis0
                (chartBehavior width0 height0) (Some zoomIdentity) handler
                (pathTransform width0 height0 data0 minMax)).

(** The paths on the page. *)
Definition paths (s : Scene) : list (list (PathCommand T)) :=
  pathsOf (pathData (chart (sview s))).

(** The matrix of the attribute [translate(tx, ty) scale(sx, sy)]. *)
Definition attrMatrix (a : ViewAttr T) : SVGMatrix T :=
  scaleNonUniform (translate identityMatrix (translateX a) (translateY a))
                  (scaleX a) (scaleY a).

(** The transform of the group that holds the paths. *)
Definition viewMatrix (s : Scene) : SVGMatrix T :=
  match view (sview s) with
  | None => matrix (pathMapper s)
  | Some a => attrMatrix a
  end.

(** Where the points of the path of a series are on the screen. *)
Definition drawn (s : Scene) (cityIdx : nat) : list (T * T) :=
  map (matrixTransform (viewMatrix s)) (pathPoints (nth cityIdx (paths s) [])).

End DrawChart.

Arguments MyAxis T : clear implicits.
Arguments Scene T : clear implicits.

(** ** Events *)

Section SceneEvents.
Context {T : Type} {ops : NumOps T} {fld : NumField T} {ord : NumOrder T}.
Context {dates : DateOps T} {query : RangeQuery T}.

Inductive scene_event :=
| Gesture (g : gesture T)
| ZoomTimer
| Sample (newData : list T)
| RedrawTimer.

Definition withView (s : Scene T) (v : ChartView T)
  (z : option (ZoomTransform T)) : Scene T :=
  mkScene v (svgWidth s) (svgHeight s) (xAxis s) (yAxisSettings s)
          (zoomRect s) z (zoomHandler s) (pathMapper s).

(** The transform the rectangle keeps after a tick of the timer of [zoom]:
    the procedure puts its argument there first
    ([d3zoom().transform(zoomElement, zoomTransform)]), [undefined] when
    it was called without one. *)
Definition zoomSynced (s : Scene T) : option (ZoomTransform T) :=
  match timeout (zoom (sview s)) with
  | (_, Some param) => hd_error param
  | (_, None) => zoomElement s
  end.

(** A gesture moves the transform kept on the rectangle and the behaviour
    calls the handler, which calls [zoom]; without a transform on the
    rectangle the behaviour fails before it calls anything.  The other
    events are those of the view. *)
Definition scene_step (s : Scene T) (e : scene_event) : Scene T :=
  match e with
  | Gesture g =>
      match zoomElement s with
      | Some t0 =>
          let t := gesture_step (zoomRect s) t0 g in
          withView s (view_step (sview s)
                                (ZoomCall (handlerArgs (zoomHandler s) t)))
                   (Some t)
      | None => s
      end
  | ZoomTimer => withView s (view_step (sview s) ZoomTick) (zoomSynced s)
  | Sample newData =>
      withView s (view_step (sview s) (DataUpdate newData)) (zoomElement s)
  | RedrawTimer => withView s (view_step (sview s) DrawTick) (zoomElement s)
  end.

Definition scene_run (trace : list scene_event) (s : Scene T) : Scene T :=
  fold_left scene_step trace s.

(** [rx] shows dates of [x] only. *)
Definition rx_within (c : TimeSeriesChart T) : Prop :=
  betweenZ (fst (xDomain c)) (snd (xDomain c)) (fst (rxDomain c)) /\
  betweenZ (fst (xDomain c)) (snd (xDomain c)) (snd (rxDomain c)).

(** The invariant of a scene whose handler passes the transform: the
    view's own, a width above 0, the behaviour [drawChart] configured, a
    transform on the rectangle and in every scheduled call that shows
    pixels of the chart only, and a zoomed axis within the dates of the
    data. *)
Record scene_inv (s : Scene T) : Prop := {
  sinv_view : view_inv (sview s);
  sinv_width : 0 <= width (sview s) /\ ~ width (sview s) == 0;
  sinv_rect : zoomRect s = chartBehavior (width (sview s)) (height (sview s));
  sinv_handler : zoomHandler s = PassTransform;
  sinv_element : exists t, zoomElement s = Some t /\
                           shows_chart (width (sview s)) t;
  sinv_pending : forall param, In param (timers (zoom (sview s))) ->
                 exists z, param = [z] /\ shows_chart (width (sview s)) z;
  sinv_rx : rx_within (chart (sview s))
}.

(** A scene whose handler passes no argument, whose scheduled calls of
    [zoom] have none, and whose view was never transformed. *)
Definition never_zoomed (s : Scene T) : Prop :=
  zoomHandler s = NoArgument /\ view (sview s) = None /\
  forall param, In param (timers (zoom (sview s))) -> param = [].

(** A scene without a transform on the rectangle, without a scheduled
    call of [zoom] and with a view that was never transformed. *)
Definition zoom_dead (s : Scene T) : Prop :=
  zoomElement s = None /\ timers (zoom (sview s)) = [] /\
  view (sview s) = None.

End SceneEvents.

Arguments scene_event T : clear implicits.

(** ** An example on rationals *)

(** The scene [drawChart] makes of the five samples of [rows5] in a
    container of 800 by 300 pixels, with a handler that passes the
    transform, and the same with the handler of the demo. *)
Definition scene5 : Scene Q :=
  mkScene view5 800%Q 300%Q (newXAxis 300%Q) (newYAxis 800%Q)
          (chartBehavior 800%Q 300%Q) (Some zoomIdentity) PassTransform
          (pathTransform 800%Q 300%Q rows5 (mkMinMax 1%Q 10%Q)).

Definition scene5_demo : Scene Q :=
  mkScene view5 800%Q 300%Q (newXAxis 300%Q) (newYAxis 800%Q)
          (chartBehavior 800%Q 300%Q) (Some zoomIdentity) NoArgument
          (pathTransform 800%Q 300%Q rows5 (mkMinMax 1%Q 10%Q)).

(** Points compared up to the equality of rationals. *)
Definition points_eq (l1 l2 : list (Q * Q)) : Prop :=
  Forall2 (fun p q => fst p == fst q /\ snd p == snd q)%Q l1 l2.

(** ** The picture at construction *)

Section DrawChartFacts.
Context {T : Type} {ops : NumOps T} {fld : NumField T} {ord : NumOrder T}.
Context {nan : NaNOps T} {dates : DateOps T} {query : RangeQuery T}.
Add Field drawchart_field : nfield_th (setoid neq_equiv num_ring_ext).
Implicit Types (s : Scene T) (row : list T).

(** The labels of the horizontal axis stand 8 pixels from the edge and
    those of the vertical axis 2 pixels, whatever the size of the chart:
    the padding takes back the length of the ticks. *)
Lemma labelOffset_axes (width0 height0 : T) :
  labelOffset (newXAxis height0) == nofZ 8 /\
  labelOffset (newYAxis width0) == nofZ 2.
Proof. unfold labelOffset. simpl. split; ring. Qed.

(** [drawChart] makes the view of [newChartView]. *)
Lemma drawChart_view w h handler minX0 stepX0 (data0 : list (list T)) s :
  drawChart w h handler minX0 stepX0 data0 = Some s ->
  newChartView w h minX0 stepX0 data0 = Some (sview s) /\
  view (sview s) = None /\ pathData (chart (sview s)) = data0 /\
  exists minMax,
    getMinMax data0 0 (length data0 - 1) = Some minMax /\
    pathMapper s = pathTransform w h data0 minMax.
Proof.
  unfold drawChart, newChartView.
  destruct (getMinMax data0 0 (length data0 - 1)) as [minMax |]; simpl;
    intros E; inv E.
  simpl. repeat split. eexists. split; reflexivity.
Qed.

(** The path of a series, point by point: each is a defined cell of the
    series at the position of its row. *)
Lemma drawLine_points cityIdx (data0 : list (list T)) p :
  In p (pathPoints (drawLine cityIdx data0)) ->
  exists k row v,
    nth_error data0 k = Some row /\ nth_error row cityIdx = Some v /\
    nisNaN v = false /\ p = (nofZ (Z.of_nat k), v).
Proof.
  unfold drawLine. rewrite line_points. intros Hin.
  destruct (linePoints_In _ _ _ _ _ _ Hin) as (k & row & Hk & Hd & ->).
  unfold cellDefined in Hd.
  destruct (nth_error row cityIdx) as [v |] eqn:Ev; [| discriminate].
  exists k, row, v. repeat split; auto.
  - now apply negb_true_iff.
  - simpl. f_equal. now apply nth_error_nth.
Qed.

(** C16: The path of a series is well formed, and its points are exactly the
    cells of the series that are there and are not NaN, each at the
    position of its row: a missing or NaN cell leaves a gap, and no other
    point is drawn. *)
Theorem drawLine_draws_defined_cells cityIdx (data0 : list (list T)) p :
  path_ok (drawLine cityIdx data0) = true /\
  (In p (pathPoints (drawLine cityIdx data0)) <->
   exists k row v,
     nth_error data0 k = Some row /\ nth_error row cityIdx = Some v /\
     nisNaN v = false /\ p = (nofZ (Z.of_nat k), v)).
Proof.
  split; [apply line_path_ok |]. split; [apply drawLine_points |].
  intros (k & row & v & Hk & Hv & Hn & ->).
  unfold drawLine. rewrite line_points.
  rewrite <- (nth_error_nth _ _ 0 Hv).
  apply (linePoints_complete (fun d _ => cellDefined cityIdx d)
           (fun _ i => nofZ (Z.of_nat i)) (fun d _ => nth cityIdx d 0)
           data0 0 k row Hk).
  unfold cellDefined. now rewrite Hv, Hn.
Qed.

Lemma nth_pathsOf cityIdx (data0 : list (list T)) :
  (cityIdx < 2)%nat -> nth cityIdx (pathsOf data0) [] = drawLine cityIdx data0.
Proof.
  intros H. destruct cityIdx as [| [| c]]; [reflexivity | reflexivity | lia].
Qed.

Section Fits.
Context {qlaws : RangeQueryLaws query}.
Context (tupleOfRow : list T -> IMinMax T).
Context {qbounds : RangeQueryBounds nle tupleOfRow query}.
Hypothesis tuple_covers : forall row cityIdx v,
  (cityIdx < 2)%nat -> nth_error row cityIdx = Some v -> nisNaN v = false ->
  min (tupleOfRow row) <= v <= max (tupleOfRow row).

(** The extremes of the whole buffer bound every defined cell of the two
    series. *)
Lemma whole_covers (data0 : list (list T)) minMax k row cityIdx v :
  getMinMax data0 0 (length data0 - 1) = Some minMax ->
  nth_error data0 k = Some row -> (cityIdx < 2)%nat ->
  nth_error row cityIdx = Some v -> nisNaN v = false ->
  between (min minMax) (max minMax) v.
Proof.
  intros E Hk Hc Hv Hn.
  assert (k < length data0)%nat as Hlt by (apply nth_error_Some; congruence).
  assert (validRange (length data0) 0 (length data0 - 1) = true) as Hr
    by (apply validRange_spec; lia).
  destruct (getMinMax_bounds _ _ _ _ k Hr E) as [H1 H2]; [lia |].
  rewrite (nth_error_nth _ _ _ Hk) in H1, H2.
  destruct (tuple_covers row cityIdx v Hc Hv Hn) as [H3 H4].
  apply between_sorted; etransitivity; eassumption.
Qed.

(** C15: The picture [drawChart] makes lies inside the [svg]: every point of
    the two paths, moved by the transform of their group, has its
    abscissa between 0 and the width and its ordinate between 0 and the
    height, unless all samples are equal. *)
Theorem drawChart_fits w h handler minX0 stepX0 (data0 : list (list T)) s cityIdx p :
  drawChart w h handler minX0 stepX0 data0 = Some s ->
  ~ fst (domain (y (sview s))) == snd (domain (y (sview s))) ->
  (cityIdx < 2)%nat -> In p (drawn s cityIdx) ->
  between 0 w (fst p) /\ between 0 h (snd p).
Proof.
  intros E Hy Hc Hin.
  destruct (drawChart_view _ _ _ _ _ _ _ E) as (Ev & Hview & Hdata & mm & Emm & Hm).
  assert (domain (y (sview s)) = (min mm, max mm)) as Ed.
  { revert E. unfold drawChart. rewrite Emm. simpl. intros E. now inv E. }
  rewrite Ed in Hy. simpl in Hy.
  unfold drawn, viewMatrix, paths in Hin. rewrite Hview, Hdata, Hm in Hin.
  rewrite (nth_pathsOf _ _ Hc) in Hin.
  apply in_map_iff in Hin. destruct Hin as (q & <- & Hq).
  destruct (drawLine_points _ _ _ Hq) as (k & row & v & Hk & Hv & Hn & ->).
  assert (k < length data0)%nat as Hlt by (apply nth_error_Some; congruence).
  apply (matrix_in_viewport newViewWindowTransform w h); auto.
  - intros E0. apply (nofZ_of_nat_neq0 (length data0)); [lia | now symmetry].
  - apply between_sorted;
      [apply nofZ_of_nat_nonneg | apply nofZ_of_nat_mono; lia].
  - now apply (whole_covers data0 mm k row cityIdx v).
Qed.

End Fits.

End DrawChartFacts.

(** ** The zoomed axis over a run *)

Section SceneFacts.
Context {T : Type} {ops : NumOps T} {fld : NumField T} {ord : NumOrder T}.
Context {nan : NaNOps T} {dates : DateOps T} {dlaws : DateLaws T}.
Context {dord : DateOrder T}.
Context {query : RangeQuery T} {qlaws : RangeQueryLaws query}.
Add Field scene_field : nfield_th (setoid neq_equiv num_ring_ext).
Implicit Types (s : Scene T) (e : scene_event T) (c : TimeSeriesChart T)
  (this : ChartView T).

Lemma scene_inv_new w h minX0 stepX0 (data0 : list (list T)) s :
  drawChart w h PassTransform minX0 stepX0 data0 = Some s ->
  0 <= w -> ~ w == 0 -> scene_inv s.
Proof.
  intros E Hw Hn.
  destruct (drawChart_view _ _ _ _ _ _ _ E) as (Ev & _).
  pose proof (view_inv_new _ _ _ _ _ _ Ev) as Hv.
  revert E Hv. unfold drawChart.
  destruct (getMinMax data0 0 (length data0 - 1)) as [mm |]; simpl;
    intros E Hv; inv E.
  constructor; simpl; auto.
  - eexists. split; [reflexivity | apply shows_chart_identity].
  - intros param [].
  - unfold rx_within, betweenZ. simpl. lia.
Qed.

(** A sample leaves both domains alone. *)
Lemma rx_within_update c newData :
  rx_within c -> rx_within (updateChartWithNewData c newData).
Proof. exact (fun H => H). Qed.

(** A redraw shifts both domains by the missed steps. *)
Lemma rx_within_tick c : chart_inv c -> rx_within c -> rx_within (tickDrawNewData c).
Proof.
  intros Hc H. unfold tickDrawNewData.
  destruct (timeout (drawNewData c)) as [proc [u |]]; [| exact H].
  unfold rx_within, betweenZ in *. cbn [drawNewDataBody xDomain rxDomain fst snd
    minX maxX missedStepsCount stepX data] in *.
  rewrite (inv_xDomain _ Hc), (inv_maxX _ Hc) in H. simpl in H.
  unfold calcDate in *. cbn [stepX minX] in *. lia.
Qed.

(** A zoom by a transform that shows pixels of the chart only leaves [rx]
    within [x], whether the tree answers or not. *)
Lemma rx_within_zoomBody this z :
  0 <= width this -> ~ width this == 0 -> shows_chart (width this) z ->
  rx_within (chart (fst (zoomBody this [z]))).
Proof.
  intros Hw Hn Hz. pose proof (zoomDomain_within this z Hw Hn Hz) as H.
  destruct (getMinMax (tree (chart this)) (fst (zoomQuery this z))
                      (snd (zoomQuery this z))) as [mm |] eqn:E.
  - now rewrite (zoomBody_answered _ _ _ _ E).
  - now rewrite (zoomBody_not_answered _ _ _ E).
Qed.

(** The procedure keeps the size of the chart and the throttle. *)
Lemma zoomBody_size this param :
  width (fst (zoomBody this param)) = width this /\
  height (fst (zoomBody this param)) = height this /\
  zoom (fst (zoomBody this param)) = zoom this.
Proof.
  destruct (zoomBody_cases this param) as [-> | [[z ->] | (z & mm & ->)]];
    repeat split.
Qed.

Lemma scene_inv_gesture s g : scene_inv s -> scene_inv (scene_step s (Gesture g)).
Proof.
  intros [Hv Hw Hr Hh (t0 & Et & Ht) Hp Hx]. simpl. rewrite Et, Hh, Hr. simpl.
  constructor; simpl; auto.
  - exact (view_inv_step _ (ZoomCall _) Hv).
  - eexists. split; [reflexivity |]. apply shows_chart_step; tauto.
  - intros param Hin. apply invoke_In in Hin. destruct Hin as [-> | Hin]; auto.
    eexists. split; [reflexivity |]. apply shows_chart_step; tauto.
Qed.

Lemma scene_inv_zoomTimer s : scene_inv s -> scene_inv (scene_step s ZoomTimer).
Proof.
  intros [Hv Hw Hr Hh He Hp Hx].
  pose proof (view_inv_step _ ZoomTick Hv) as Hv'.
  unfold scene_step, zoomSynced. revert Hv'. simpl. unfold tickZoom.
  destruct (timeout (zoom (sview s))) as [proc [param |]] eqn:E;
    [| intros _; constructor; simpl; auto].
  destruct (timeout_In _ _ _ E) as [Hin Hsub].
  destruct (Hp param Hin) as (z & -> & Hz).
  set (this' := mkChartView _ _ _ _ _ _ proc).
  destruct (zoomBody_size this' [z]) as (Ew & Eh & Ez).
  intros Hv'. constructor; simpl; rewrite ?Ew, ?Eh, ?Ez; simpl; auto.
  - eexists. split; [reflexivity | exact Hz].
  - now apply (rx_within_zoomBody this' z).
Qed.

Lemma scene_inv_step s e : scene_inv s -> scene_inv (scene_step s e).
Proof.
  destruct e as [g | | newData |];
    [apply scene_inv_gesture | apply scene_inv_zoomTimer | |];
    intros [Hv Hw Hr Hh He Hp Hx]; constructor; simpl; auto.
  - exact (view_inv_step _ (DataUpdate newData) Hv).
  - exact (view_inv_step _ DrawTick Hv).
  - apply rx_within_tick; [exact (vinv_chart _ Hv) | exact Hx].
Qed.

(** C14: Over every trace of gestures, samples and ticks of the two timers, on
    a chart whose handler passes the transform of the event to [zoom],
    the zoomed axis shows dates of the data only: both ends of the domain
    of [rx] lie between the ends of the domain of [x]. *)
Theorem zoomed_axis_within w h minX0 stepX0 (data0 : list (list T)) s
  (trace : list (scene_event T)) :
  drawChart w h PassTransform minX0 stepX0 data0 = Some s ->
  0 <= w -> ~ w == 0 ->
  rx_within (chart (sview (scene_run trace s))).
Proof.
  intros E Hw Hn. apply sinv_rx. unfold scene_run.
  apply fold_left_invariant;
    [intros s' e; apply scene_inv_step | now apply (scene_inv_new _ _ _ _ _ _ E)].
Qed.

(** ** A handler that passes no argument *)

(** Such a scene stays so: gestures fail inside the behaviour and the
    timer of [zoom] has nothing to run. *)
Lemma zoom_dead_step s e : zoom_dead s -> zoom_dead (scene_step s e).
Proof.
  intros (He & Ht & Hv). destruct e as [g | | newData |]; simpl.
  - rewrite He. now repeat split.
  - unfold zoomSynced, tickZoom, timeout. rewrite Ht. now repeat split.
  - now repeat split.
  - now repeat split.
Qed.

Lemma never_zoomed_step s e : never_zoomed s -> never_zoomed (scene_step s e).
Proof.
  intros (Hh & Hv & Hp). destruct e as [g | | newData |]; simpl.
  - destruct (zoomElement s) as [t0 |]; [| now repeat split].
    rewrite Hh. repeat split; auto. simpl. intros param Hin.
    apply invoke_In in Hin. destruct Hin as [-> | Hin]; auto.
  - unfold tickZoom.
    destruct (timeout (zoom (sview s))) as [proc [param |]] eqn:E;
      [| now repeat split].
    destruct (timeout_In _ _ _ E) as [Hin Hsub].
    rewrite (Hp param Hin). repeat split; auto.
  - now repeat split.
  - now repeat split.
Qed.

Lemma never_zoomed_run s (trace : list (scene_event T)) :
  never_zoomed s -> never_zoomed (scene_run trace s).
Proof.
  intros H. unfold scene_run.
  apply fold_left_invariant; [intros s' e; apply never_zoomed_step | exact H].
Qed.

(** A scene made with such a handler starts so. *)
Lemma never_zoomed_new w h minX0 stepX0 (data0 : list (list T)) s :
  drawChart w h NoArgument minX0 stepX0 data0 = Some s -> never_zoomed s.
Proof.
  unfold drawChart. destruct (getMinMax data0 0 (length data0 - 1)); simpl;
    intros E; inv E. repeat split. intros param [].
Qed.

(** The transform kept on the rectangle plays no part in it. *)
Lemma never_zoomed_withView s v z :
  never_zoomed s -> view v = None ->
  (forall param, In param (timers (zoom v)) -> param = []) ->
  never_zoomed (withView s v z).
Proof. intros (Hh & _ & _) Hv Hp. now repeat split. Qed.

(** C30: With the handler of the demo, which calls [zoom] without an argument,
    the view is never transformed, whatever the gestures, and the first
    gesture is the last: when the timer fires, the procedure clears the
    transform kept on the rectangle and throws; from then on the
    rectangle has no transform and no call of [zoom] is scheduled. *)
Theorem no_argument_zoom_dead s g (trace : list (scene_event T)) t0 :
  zoomHandler s = NoArgument -> zoomElement s = Some t0 ->
  zoom (sview s) = drawProc -> view (sview s) = None ->
  view (sview (scene_run trace s)) = None /\
  zoom_dead (scene_run (Gesture g :: ZoomTimer :: trace) s).
Proof.
  intros Hh He Hz Hv. unfold scene_run. split.
  - apply never_zoomed_run. repeat split; auto. rewrite Hz. intros param [].
  - cbn [fold_left].
    apply fold_left_invariant; [intros s' e; apply zoom_dead_step |].
    simpl. rewrite He, Hh. simpl. unfold zoomSynced. simpl. rewrite Hz.
    now repeat split.
Qed.

(** ** The transform of the paths after a zoom *)


End SceneFacts.

(** ** Zoom and redraw commute *)

Section SceneCommute.
Context {T : Type} {ops : NumOps T} {fld : NumField T} {ord : NumOrder T}.
Context {dates : DateOps T} {dlaws : DateLaws T} {dord : DateOrder T}.
Context {dshift : DateShift T} {query : RangeQuery T}.
Implicit Types (s : Scene T).

(** C21: The redraw that follows a sample moves the domain of [rx] by one step,
    and a zoom computes that domain from the domain of [x]: both agree.
    On a chart at rest whose dates are not negative, a gesture before a
    sample and its redraw leaves the chart (the buffer, the dates and the
    domains of both scales) as the same gesture after them. *)
Theorem zoom_redraw_commute s g newData :
  scene_inv s -> zoom (sview s) = drawProc ->
  (0 <= minX (chart (sview s)))%Z -> (0 <= stepX (chart (sview s)))%Z ->
  data (chart (sview s)) <> [] ->
  chart (sview (scene_run [Gesture g; ZoomTimer; Sample newData; RedrawTimer] s))
  = chart (sview (scene_run [Sample newData; RedrawTimer; Gesture g; ZoomTimer] s)).
Proof.
  intros [Hv [Hw Hn] Hr Hh (t0 & Et & Ht) Hp Hx] Ez Hm Hs Hd.
  set (t := gesture_step (zoomRect s) t0 g).
  assert (sview (scene_run [Gesture g; ZoomTimer; Sample newData; RedrawTimer] s)
          = view_run [ZoomCall [t]; ZoomTick; DataUpdate newData; DrawTick]
                     (sview s)) as ->
    by (unfold scene_run; cbn [fold_left scene_step]; now rewrite Et, Hh).
  assert (sview (scene_run [Sample newData; RedrawTimer; Gesture g; ZoomTimer] s)
          = view_run [DataUpdate newData; DrawTick; ZoomCall [t]; ZoomTick]
                     (sview s)) as ->
    by (unfold scene_run;
        cbn [fold_left scene_step withView zoomElement zoomHandler zoomRect sview];
        now rewrite Et, Hh).
  apply view_zoom_redraw_commute; auto.
  subst t. rewrite Hr. now apply shows_chart_step.
Qed.

End SceneCommute.

(** ** Evaluation *)

(** The path of the second series of a buffer whose third row lacks it:
    two lines, the first of two points, the second of one point, closed. *)
Example drawLine_gap :
  drawLine 1 [[1; 2]; [3; 4]; [5]; [7; 8]]%Q
  = [MoveTo 0 2; LineTo 1 4; MoveTo 3 8; ClosePath]%Q.
Proof. reflexivity. Qed.

(** The first series of the example, as the matrix of [pathTransform]
    draws it: from (0, 0) to (640, 800/3), the last sample at four fifths
    of the width.  (The ordinates depend on the pixel basis that
    [setViewPort] gives the vertical axis, [(0, height)] in the model.) *)
Example scene5_drawn :
  points_eq (drawn scene5 0)
            [(0, 0); (160, 200 # 3); (320, 400 # 3); (480, 200); (640, 800 # 3)]%Q.
Proof. vm_compute. repeat constructor. Qed.

(** After a zoom by the identity the same series is drawn at its
    positions and values: the five points lie within 5 pixels of the
    corner. *)
Example scene5_drawn_after_zoom :
  points_eq (drawn (withView scene5 (fst (zoomBody view5 [zoomIdentity]))
                             (Some zoomIdentity)) 0)
            [(0, 1); (1, 3); (2, 5); (3, 7); (4, 9)]%Q.
Proof. vm_compute. repeat constructor. Qed.

(** After a turn of the wheel that doubles the scale at the centre of the
    chart, and the tick of the timer, every point of both paths is drawn
    left of the chart and above it: the picture has left the screen. *)
Example scene5_zoomed_off_screen :
  let s := scene_run [Gesture (Wheel 2%Q (400%Q, 150%Q)); ZoomTimer] scene5 in
  Forall (fun p => fst p < 0 /\ snd p < 0)%Q (drawn s 0 ++ drawn s 1).
Proof. vm_compute. repeat constructor. Qed.

(** ** Witnesses *)

Lemma scene5_new : drawChart 800%Q 300%Q PassTransform 0 10 rows5 = Some scene5.
Proof. vm_compute. reflexivity. Defined.

Lemma tupleQ_covers (row : list Q) (cityIdx : nat) (v : Q) :
  (cityIdx < 2)%nat -> nth_error row cityIdx = Some v -> nisNaN v = false ->
  (min (tupleQ row) <= v <= max (tupleQ row))%Q.
Proof.
  intros Hc Hv _. unfold tupleQ. simpl.
  destruct cityIdx as [| [| c]]; [| | lia];
    rewrite (nth_error_nth _ _ 0%Q Hv);
    split; auto using Q.le_min_l, Q.le_min_r, Q.le_max_l, Q.le_max_r.
Defined.

Lemma drawChart_fits_witness :
  between 0%Q 800%Q (fst (nth 4 (drawn scene5 0) (0, 0)%Q)) /\
  between 0%Q 300%Q (snd (nth 4 (drawn scene5 0) (0, 0)%Q)).
Proof.
  apply (drawChart_fits (ord := Qord) tupleQ (qbounds := queryQ_bounds)
           tupleQ_covers 800%Q 300%Q PassTransform 0%Z 10%Z rows5 scene5 0);
    [exact scene5_new | apply Qneq_by_eval; reflexivity | lia |].
  apply nth_In. vm_compute. lia.
Defined.

Lemma zoomed_axis_within_witness :
  rx_within
    (chart (sview (scene_run [Gesture (Wheel 2%Q (400%Q, 150%Q)); Sample [11; 12]%Q;
                              ZoomTimer; RedrawTimer] scene5))).
Proof.
  apply (zoomed_axis_within (ord := Qord) (dord := Qdates_order)
           800%Q 300%Q 0%Z 10%Z rows5 scene5
           [Gesture (Wheel 2%Q (400%Q, 150%Q)); Sample [11; 12]%Q;
            ZoomTimer; RedrawTimer] scene5_new);
    [vm_compute; discriminate | apply Qneq_by_eval; reflexivity].
Defined.

Lemma no_argument_zoom_dead_witness :
  view (sview (scene_run [Gesture (Wheel 2%Q (400%Q, 150%Q)); ZoomTimer]
                         scene5_demo)) = None /\
  zoom_dead (scene_run [Gesture (Wheel 2%Q (400%Q, 150%Q)); ZoomTimer;
                        Gesture (Wheel 2%Q (400%Q, 150%Q)); ZoomTimer]
                       scene5_demo).
Proof.
  exact (no_argument_zoom_dead (ord := Qord) scene5_demo
           (Wheel 2%Q (400%Q, 150%Q))
           [Gesture (Wheel 2%Q (400%Q, 150%Q)); ZoomTimer] zoomIdentity
           eq_refl eq_refl eq_refl eq_refl).
Defined.


Lemma zoom_redraw_commute_witness :
  chart (sview (scene_run [Gesture (Wheel 2%Q (400%Q, 150%Q)); ZoomTimer;
                           Sample [11; 12]%Q; RedrawTimer] scene5))
  = chart (sview (scene_run [Sample [11; 12]%Q; RedrawTimer;
                             Gesture (Wheel 2%Q (400%Q, 150%Q)); ZoomTimer] scene5)).
Proof.
  apply (zoom_redraw_commute (ord := Qord) (dshift := Qdates_shift)
           scene5 (Wheel 2%Q (400%Q, 150%Q)) [11; 12]%Q);
    [ apply (scene_inv_new (ord := Qord)
               800%Q 300%Q 0%Z 10%Z rows5 scene5 scene5_new);
        [vm_compute; discriminate | apply Qneq_by_eval; reflexivity]
    | reflexivity | vm_compute; discriminate | vm_compute; discriminate
    | discriminate ].
Defined.
