(* ===== verification/Demo.v ===== *)
(** * Demo: the driver of [src/demos/common.ts]

    [buildSegmentTreeTuple] makes the leaf of the segment tree for a row of
    the buffer: the minimum and the maximum of its two columns, a column
    that is NaN standing for [Infinity] in the minimum and for [-Infinity]
    in the maximum.  [drawCharts] makes one chart per [svg] element over a
    copy of the data and starts a timer that feeds every chart the row
    [data[j % data.length]] and counts [j] up.

    Rows are lists of floats.  A column the row does not have reads
    [undefined] in JavaScript, for which [isNaN] is true: [column] returns
    NaN there, and the tuple is the same.  A row the buffer does not have
    makes the code throw: [buildSegmentTreeTuple] returns [None].

    The driver's state is the data, the charts and the counter.  On empty
    data the code feeds [undefined], which [updateChartWithNewData] pushes
    and shifts out at once; the model feeds an empty row, with the same
    buffer afterwards.

    Theorems: the tuple never holds NaN; with both columns missing it is
    [(Infinity, -Infinity)], the neutral element of the aggregation; with
    one column missing its ends are the other column; its minimum is not
    above its maximum when a column is a number.  The timer leaves every
    chart's buffer a rotation of the data, and the data itself after
    [data.length] ticks.  The tree of the demo, the reference range query
    over the leaf tuples, never answers NaN and answers
    [(Infinity, -Infinity)] over rows without a valid sample.  The zoom
    handler [onZoom] calls every chart's [zoom] without a transform, and
    the procedure fails in every chart. *)

From Stdlib Require Import List ZArith Lia Floats Bool Arith.
From S2P Require Import Prelude Numeric Throttle Chart JsMath SegmentTree.
From S2P Require Import ZoomHandler.
Import ListNotations.

(** ** The leaf tuple *)

(** [row[k]], NaN where the row has no such column. *)
Definition column (row : list float) (k : nat) : float := nth k row nan.

Definition buildSegmentTreeTuple (index : nat) (elements : list (list float))
  : option (IMinMax float) :=
  (row <- nth_error elements index ;;
   let nyMinValue := if isNaN (column row 0) then infinity else column row 0 in
   let nyMaxValue := if isNaN (column row 0) then neg_infinity else column row 0 in
   let sfMinValue := if isNaN (column row 1) then infinity else column row 1 in
   let sfMaxValue := if isNaN (column row 1) then neg_infinity else column row 1 in
   Some (mkMinMax (Math_min nyMinValue sfMinValue)
                  (Math_max nyMaxValue sfMaxValue)))%opt.

(** The tuple as a function of the row alone, as the tree sees it. *)
Definition tupleOfRow (row : list float) : IMinMax float :=
  mkMinMax
    (Math_min (if isNaN (column row 0) then infinity else column row 0)
              (if isNaN (column row 1) then infinity else column row 1))
    (Math_max (if isNaN (column row 0) then neg_infinity else column row 0)
              (if isNaN (column row 1) then neg_infinity else column row 1)).

(** The tree of the demo: the reference range query over the leaf tuples,
    combined with [Math.min] and [Math.max]. *)
#[export] Instance demoQuery : RangeQuery float :=
  refRangeQuery tupleOfRow Math_min Math_max.

(** A tuple without NaN. *)
Definition numeric (mm : IMinMax float) : Prop :=
  is_nan (min mm) = false /\ is_nan (max mm) = false.

(** A row with no valid sample. *)
Definition blank (row : list float) : bool :=
  is_nan (column row 0) && is_nan (column row 1).

(** ** The timer *)

Section Driver.
Context {T : Type}.

Record Demo := mkDemo {
  feed : list (list T);
  charts : list (TimeSeriesChart T);
  j : nat
}.

(** [drawCharts(data)]: one chart per selected [svg] element ([svgs] of
    them), each over its own copy of the data, starting at the date [now]
    with a step of one day; [j] starts at 0. *)
Definition drawCharts (now : Z) (svgs : nat) (data0 : list (list T)) : Demo :=
  mkDemo data0 (repeat (newChart now 86400000 data0) svgs) 0.

(** The callback of [setInterval]. *)
Definition onInterval (this : Demo) : Demo :=
  let newData := nth (j this mod length (feed this)) (feed this) [] in
  mkDemo (feed this)
         (map (fun c => updateChartWithNewData c newData) (charts this))
         (S (j this)).

(** The state after [k] ticks of the timer. *)
Definition intervals (k : nat) (this : Demo) : Demo :=
  Nat.iter k onInterval this.

(** [rotate r l]: [l] read from index [r mod length l] on, wrapping
    around. *)
Definition rotate (r : nat) (l : list (list T)) : list (list T) :=
  skipn (r mod length l) l ++ firstn (r mod length l) l.

End Driver.

Arguments Demo T : clear implicits.

(** ** The zoom handler of the demo *)

Section OnZoom.
Context {T : Type} {ops : NumOps T} {dates : DateOps T} {query : RangeQuery T}.

(** [onZoom]: every chart's [zoom] is called, with no argument. *)
Definition onZoom (views : list (ChartView T)) : list (ChartView T) :=
  map (fun c => view_step c (ZoomCall [])) views.

End OnZoom.

(** An example: three rows of one integer column. *)
Definition demo3 : list (list Z) := [[1%Z]; [2%Z]; [3%Z]].

Local Open Scope float_scope.

Section TupleFacts.
Implicit Types (row : list float) (elements : list (list float)).

(** The tuple of a row the buffer has, in terms of its columns. *)
Lemma buildSegmentTreeTuple_row index elements row :
  nth_error elements index = Some row ->
  buildSegmentTreeTuple index elements
  = Some (mkMinMax
            (Math_min (if is_nan (column row 0) then infinity else column row 0)
                      (if is_nan (column row 1) then infinity else column row 1))
            (Math_max (if is_nan (column row 0) then neg_infinity else column row 0)
                      (if is_nan (column row 1) then neg_infinity else column row 1))).
Proof. intros E. unfold buildSegmentTreeTuple. now rewrite E. Qed.

Lemma guarded_not_nan (x d : float) :
  is_nan d = false -> is_nan (if is_nan x then d else x) = false.
Proof. intros Hd. destruct (is_nan x) eqn:E; assumption. Qed.

(** C23: The tuple never holds NaN, whatever the row holds. *)
Theorem buildSegmentTreeTuple_not_nan index elements mm :
  buildSegmentTreeTuple index elements = Some mm ->
  is_nan (min mm) = false /\ is_nan (max mm) = false.
Proof.
  unfold buildSegmentTreeTuple. destruct (nth_error elements index) as [row |];
    [| discriminate].
  intros E. inv E. unfold isNaN. simpl.
  split; auto using guarded_not_nan with svg.
Qed.

(** It is defined exactly on the rows the buffer has. *)
Theorem buildSegmentTreeTuple_defined index elements :
  is_some (buildSegmentTreeTuple index elements)
  = (index <? length elements)%nat.
Proof.
  unfold buildSegmentTreeTuple.
  destruct (nth_error elements index) as [row |] eqn:E; simpl; symmetry.
  - apply Nat.ltb_lt, nth_error_Some. congruence.
  - apply Nat.ltb_ge, nth_error_None. exact E.
Qed.

(** With both columns NaN or missing the tuple is the neutral element of
    the aggregation: [(Infinity, -Infinity)]. *)
Theorem buildSegmentTreeTuple_no_column index elements row :
  nth_error elements index = Some row ->
  is_nan (column row 0) = true -> is_nan (column row 1) = true ->
  buildSegmentTreeTuple index elements = Some (mkMinMax infinity neg_infinity).
Proof.
  intros E H0 H1. rewrite (buildSegmentTreeTuple_row _ _ _ E), H0, H1.
  reflexivity.
Qed.

(** With one column NaN or missing both ends of the tuple are the other
    column. *)
Theorem buildSegmentTreeTuple_one_column index elements row :
  nth_error elements index = Some row ->
  xorb (is_nan (column row 0)) (is_nan (column row 1)) = true ->
  exists v, (v = column row 0 \/ v = column row 1) /\ is_nan v = false /\
            buildSegmentTreeTuple index elements = Some (mkMinMax v v).
Proof.
  intros E H. rewrite (buildSegmentTreeTuple_row _ _ _ E).
  destruct (is_nan (column row 0)) eqn:H0, (is_nan (column row 1)) eqn:H1;
    try discriminate H.
  - exists (column row 1). split; [now right |]. split; [exact H1 |].
    now rewrite Math_min_infinity_l, Math_max_neg_infinity_l.
  - exists (column row 0). split; [now left |]. split; [exact H0 |].
    now rewrite Math_min_infinity_r, Math_max_neg_infinity_r.
Qed.

(** With both columns numbers the tuple is their minimum and maximum, and
    the minimum is not above the maximum. *)
Theorem buildSegmentTreeTuple_ordered index elements row :
  nth_error elements index = Some row ->
  is_nan (column row 0) = false -> is_nan (column row 1) = false ->
  buildSegmentTreeTuple index elements
  = Some (mkMinMax (Math_min (column row 0) (column row 1))
                   (Math_max (column row 0) (column row 1))) /\
  (Math_min (column row 0) (column row 1)
   <=? Math_max (column row 0) (column row 1)) = true.
Proof.
  intros E H0 H1. rewrite (buildSegmentTreeTuple_row _ _ _ E), H0, H1.
  split; [reflexivity | now apply Math_min_le_max].
Qed.

(** ** The tree over the leaf tuples *)

Lemma buildSegmentTreeTuple_tupleOfRow index elements :
  buildSegmentTreeTuple index elements
  = option_map tupleOfRow (nth_error elements index).
Proof.
  unfold buildSegmentTreeTuple.
  destruct (nth_error elements index); reflexivity.
Qed.

Lemma tupleOfRow_numeric row : numeric (tupleOfRow row).
Proof. split; simpl; unfold isNaN; auto using guarded_not_nan with svg. Qed.

Lemma buildMinMax_numeric (a b : IMinMax float) :
  numeric a -> numeric b -> numeric (buildMinMax Math_min Math_max a b).
Proof. intros [Ha Ha'] [Hb Hb']. split; simpl; auto with svg. Qed.

Lemma tupleOfRow_blank row :
  blank row = true -> tupleOfRow row = mkMinMax infinity neg_infinity.
Proof.
  unfold blank, tupleOfRow, isNaN. rewrite andb_true_iff.
  intros [-> ->]. reflexivity.
Qed.

#[export] Instance demoQuery_laws : RangeQueryLaws demoQuery.
Proof. apply refRangeQuery_laws. Qed.

(** Whatever the rows hold, an answer of the tree has neither a NaN
    minimum nor a NaN maximum: NaN and missing samples are left out of the
    aggregation. *)
Theorem getMinMax_numeric elements fromPosition toPosition mm :
  getMinMax elements fromPosition toPosition = Some mm -> numeric mm.
Proof.
  simpl. unfold refGetMinMax.
  destruct (validRange _ _ _); [| discriminate].
  apply aggregate_invariant;
    auto using tupleOfRow_numeric, buildMinMax_numeric.
Qed.

(** Over a range whose rows hold no valid sample the answer is
    [(Infinity, -Infinity)]: no bound at all. *)
Theorem getMinMax_blank elements fromPosition toPosition :
  validRange (length elements) fromPosition toPosition = true ->
  forallb blank (slice elements fromPosition toPosition) = true ->
  getMinMax elements fromPosition toPosition
  = Some (mkMinMax infinity neg_infinity).
Proof.
  intros Hv Hb. simpl. rewrite (refGetMinMax_valid _ _ _ _ _ _ Hv).
  pose proof (slice_nonempty elements fromPosition toPosition
                (proj1 (validRange_spec _ _ _) Hv)) as Hne.
  destruct (slice elements fromPosition toPosition) as [| row rest];
    [congruence |].
  simpl in *. apply andb_true_iff in Hb. destruct Hb as [Hrow Hrest].
  rewrite (tupleOfRow_blank row Hrow). f_equal.
  induction rest as [| r rest IH]; simpl in *; [reflexivity |].
  apply andb_true_iff in Hrest. destruct Hrest as [Hr Hrest].
  rewrite (tupleOfRow_blank r Hr). now apply IH.
Qed.

End TupleFacts.

(* Decimal literals are rounded to the nearest binary64, as in JavaScript. *)
#[local] Set Warnings "-inexact-float".

(** A row of two temperatures, a row with a missing reading, an empty
    row. *)
Example buildSegmentTreeTuple_rows :
  buildSegmentTreeTuple 0 [[3.5; -1]; [nan; 7]; []] = Some (mkMinMax (-1) 3.5) /\
  buildSegmentTreeTuple 1 [[3.5; -1]; [nan; 7]; []] = Some (mkMinMax 7 7) /\
  buildSegmentTreeTuple 2 [[3.5; -1]; [nan; 7]; []]
  = Some (mkMinMax infinity neg_infinity) /\
  buildSegmentTreeTuple 3 [[3.5; -1]; [nan; 7]; []] = None.
Proof. vm_compute. repeat split. Qed.

(** ** The timer's feed *)

Section DriverFacts.
Context {T : Type}.
Implicit Types (this : Demo T) (l : list (list T)) (c : TimeSeriesChart T).

Lemma rotate_nil r : rotate r (@nil (list T)) = [].
Proof. unfold rotate. now rewrite skipn_nil, firstn_nil. Qed.

(** Pushing the row the timer reads and shifting the oldest out turns the
    rotation by [k] into the rotation by [k + 1]. *)
Lemma rotate_step k l :
  tl (rotate k l ++ [nth (k mod length l) l []]) = rotate (S k) l.
Proof.
  destruct l as [| a l']; [now rewrite !rotate_nil |].
  set (l := a :: l'). assert (0 < length l)%nat as Hn by (simpl; lia).
  pose proof (Nat.mod_upper_bound k (length l) ltac:(lia)) as Hr.
  unfold rotate. rewrite (mod_S k (length l) Hn).
  rewrite (skipn_nth_cons l _ [] Hr) at 1.
  rewrite <- !app_comm_cons. cbn [tl].
  rewrite <- app_assoc, (firstn_snoc_nth l _ [] Hr).
  destruct (Nat.eqb_spec (S (k mod length l)) (length l)) as [E | _];
    [| reflexivity].
  rewrite E, skipn_all, firstn_all. simpl. now rewrite app_nil_r.
Qed.

Lemma rotate_period k l : rotate (k + length l) l = rotate k l.
Proof.
  unfold rotate. destruct l as [| a l']; [now rewrite !skipn_nil, !firstn_nil |].
  replace (k + length (a :: l'))%nat with (k + 1 * length (a :: l'))%nat by lia.
  rewrite Nat.Div0.mod_add. reflexivity.
Qed.

Lemma rotate_0 l : rotate 0 l = l.
Proof.
  unfold rotate. rewrite Nat.Div0.mod_0_l. simpl. now rewrite app_nil_r.
Qed.

(** What a chart of the driver looks like after [k] ticks. *)
Definition fed (k : nat) (data0 : list (list T)) (c : TimeSeriesChart T) : Prop :=
  data c = rotate k data0 /\ tree c = rotate k data0 /\
  missedStepsCount c = Z.of_nat k /\
  requested (drawNewData c) = (0 <? k)%nat.

Lemma fed_update k data0 c :
  fed k data0 c ->
  fed (S k) data0
      (updateChartWithNewData c (nth (k mod length data0) data0 [])).
Proof.
  intros (Hd & Ht & Hm & Hr). unfold fed. simpl.
  rewrite Hd, rotate_step, Hm, invoke_requested.
  repeat split; lia.
Qed.

Lemma intervals_S k this :
  intervals (S k) this = onInterval (intervals k this).
Proof. reflexivity. Qed.

Lemma intervals_state k now svgs data0 :
  feed (intervals k (drawCharts now svgs data0)) = data0 /\
  j (intervals k (drawCharts now svgs data0)) = k /\
  length (charts (intervals k (drawCharts now svgs data0))) = svgs /\
  Forall (fed k data0) (charts (intervals k (drawCharts now svgs data0))).
Proof.
  induction k as [| k (Hf & Hj & Hl & Hc)].
  - simpl. rewrite repeat_length. repeat split.
    apply Forall_forall. intros c Hin. apply repeat_spec in Hin. subst c.
    unfold fed. simpl. now rewrite rotate_0.
  - rewrite intervals_S. unfold onInterval. simpl. rewrite Hf, Hj, length_map.
    repeat split; [exact Hl |].
    apply Forall_map. revert Hc. apply Forall_impl. intros c.
    apply fed_update.
Qed.


(** After as many ticks as the data has rows every chart holds the data it
    started with. *)
Theorem intervals_round_trip now svgs data0 c :
  In c (charts (intervals (length data0) (drawCharts now svgs data0))) ->
  data c = data0.
Proof.
  intros Hin. destruct (intervals_state (length data0) now svgs data0)
    as (_ & _ & _ & Hc).
  rewrite Forall_forall in Hc. destruct (Hc c Hin) as (Hd & _).
  rewrite Hd. change (length data0) with (0 + length data0)%nat at 1.
  now rewrite rotate_period, rotate_0.
Qed.

(** The charts stay in step: one state for all of them. *)
Theorem intervals_lockstep k now svgs data0 :
  exists c, charts (intervals k (drawCharts now svgs data0)) = repeat c svgs.
Proof.
  induction k as [| k [c IH]].
  - eexists. reflexivity.
  - rewrite intervals_S. unfold onInterval. rewrite IH.
    eexists. apply map_repeat.
Qed.

End DriverFacts.

Section OnZoomFacts.
Context {T : Type} {ops : NumOps T} {dates : DateOps T} {query : RangeQuery T}.

(** The zoom handler of the demo never zooms: it calls [zoom] with no
    transform, so when the timers fire the procedure fails in every chart
    and every chart is left as it was. *)
Theorem onZoom_fails (views : list (ChartView T)) :
  Forall (fun c => zoom c = drawProc) views ->
  map tickZoom (onZoom views) = map (fun c => (c, Some NoTransform)) views.
Proof.
  unfold onZoom. rewrite map_map. induction 1 as [| c views Hc _ IH];
    [reflexivity |].
  simpl. f_equal; [| exact IH].
  destruct c. simpl in Hc. subst. reflexivity.
Qed.

End OnZoomFacts.

(** ** Witnesses *)

Lemma buildSegmentTreeTuple_not_nan_witness :
  is_nan (min (mkMinMax 7 7)) = false /\ is_nan (max (mkMinMax 7 7)) = false.
Proof.
  apply (buildSegmentTreeTuple_not_nan 1 [[3.5; -1]; [nan; 7]] (mkMinMax 7 7)).
  vm_compute. reflexivity.
Defined.

Lemma buildSegmentTreeTuple_one_column_witness :
  exists v, (v = column [nan; 7] 0 \/ v = column [nan; 7] 1) /\
            is_nan v = false /\
            buildSegmentTreeTuple 1 [[3.5; -1]; [nan; 7]] = Some (mkMinMax v v).
Proof.
  apply (buildSegmentTreeTuple_one_column 1 [[3.5; -1]; [nan; 7]] [nan; 7]);
    reflexivity.
Defined.

Lemma buildSegmentTreeTuple_ordered_witness :
  buildSegmentTreeTuple 0 [[3.5; -1]; [nan; 7]]
  = Some (mkMinMax (Math_min (column [3.5; -1] 0) (column [3.5; -1] 1))
                   (Math_max (column [3.5; -1] 0) (column [3.5; -1] 1))) /\
  (Math_min (column [3.5; -1] 0) (column [3.5; -1] 1)
   <=? Math_max (column [3.5; -1] 0) (column [3.5; -1] 1)) = true.
Proof.
  apply (buildSegmentTreeTuple_ordered 0 [[3.5; -1]; [nan; 7]] [3.5; -1]);
    reflexivity.
Defined.

Lemma buildSegmentTreeTuple_no_column_witness :
  buildSegmentTreeTuple 1 [[3.5; -1]; [nan]]
  = Some (mkMinMax infinity neg_infinity).
Proof.
  apply (buildSegmentTreeTuple_no_column 1 [[3.5; -1]; [nan]] [nan]);
    reflexivity.
Defined.


Lemma intervals_round_trip_witness :
  data (chart_run [Update [1%Z]; Update [2%Z]; Update [3%Z]]
                  (newChart 0 86400000 demo3))
  = demo3.
Proof.
  apply (intervals_round_trip 0 1 demo3). left. reflexivity.
Defined.

Lemma onZoom_fails_witness :
  map tickZoom (onZoom [view5; view5])
  = map (fun c => (c, Some NoTransform)) [view5; view5].
Proof.
  apply (onZoom_fails [view5; view5]). repeat constructor.
Defined.

Lemma getMinMax_numeric_witness : numeric (mkMinMax (-1) 7).
Proof.
  apply (getMinMax_numeric [[3.5; -1]; [nan; 7]] 0 1 (mkMinMax (-1) 7)).
  vm_compute. reflexivity.
Defined.
