(* ===== verification/Page.v ===== *)
(** * Page: the charts of the demo under one zoom handler

    [drawCharts] of [src/demos/common.ts] makes a chart for every [svg] of
    the page and gives each the same handler, [onZoom], which calls the
    [zoom] of every chart, without an argument.  The procedure wrapped by
    [zoom] in [src/draw.ts] puts its transform on every element of class
    [zoom] of the page ([selectAll('.zoom')]), the rectangles of all
    charts.  Through both, a gesture on one chart reaches all of them.

    The page is the list of the scenes of its charts.  Events: a gesture
    on the rectangle of a chart, a tick of the timer of the [zoom] of a
    chart, a sample fed to every chart (the callback of [setInterval]), a
    tick of the redraw timer of a chart.

    Theorems: whatever happens on the page no view is ever transformed;
    after the first gesture and the tick of any chart's zoom timer that
    follows it, no rectangle of the page has a transform, and none gets
    one again. *)

From Stdlib Require Import List ZArith QArith Lia Bool.
From S2P Require Import Prelude Numeric Order Throttle Chart SegmentTree.
From S2P Require Import ZoomHandler D3Zoom DrawChart Demo.
Import ListNotations.

Local Open Scope opt_scope.

Section Page.
Context {T : Type} {ops : NumOps T} {fld : NumField T} {ord : NumOrder T}.
Context {nan : NaNOps T} {dates : DateOps T} {query : RangeQuery T}.

(** [onSelectChart], for an [svg] whose container has the size [size]:
    a chart from [now] on with a step of one day, over the data, with the
    handler [onZoom]. *)
Definition onSelectChart (now : Z) (data0 : list (list T)) (size : T * T)
  : option (Scene T) :=
  drawChart (fst size) (snd size) NoArgument now 86400000 data0.

(** [selectAll('svg').select(onSelectChart)]: a chart per [svg], in the
    order of the page; an exception in one constructor ends the script. *)
Fixpoint selectCharts (now : Z) (data0 : list (list T)) (sizes : list (T * T))
  : option (list (Scene T)) :=
  match sizes with
  | [] => Some []
  | size :: rest =>
      s <- onSelectChart now data0 size ;;
      ss <- selectCharts now data0 rest ;;
      Some (s :: ss)
  end.

(** [onZoom] on the scenes: every chart's [zoom] is called, with no
    argument. *)
Definition onZoomAll (page : list (Scene T)) : list (Scene T) :=
  map (fun s => withView s (view_step (sview s) (ZoomCall [])) (zoomElement s))
      page.

(** [f] applied to the scene at the position [k]. *)
Fixpoint at_scene (k : nat) (f : Scene T -> Scene T) (page : list (Scene T))
  : list (Scene T) :=
  match page, k with
  | [], _ => []
  | s :: rest, O => f s :: rest
  | s :: rest, S k' => s :: at_scene k' f rest
  end.

(** The transform of a gesture put on the rectangle of a scene. *)
Definition moveRect (g : gesture T) (s : Scene T) : Scene T :=
  match zoomElement s with
  | Some t0 => withView s (sview s) (Some (gesture_step (zoomRect s) t0 g))
  | None => s
  end.

(** The arguments the timer of the [zoom] of the chart at [k] would run
    the procedure on. *)
Definition zoomTimerArgs (k : nat) (page : list (Scene T))
  : option (list (ZoomTransform T)) :=
  s <- nth_error page k ;; snd (timeout (zoom (sview s))).

(** The procedure run on [param] in a scene puts [param[0]] on the
    rectangles of the whole page. *)
Definition syncRects (param : list (ZoomTransform T)) (page : list (Scene T))
  : list (Scene T) :=
  map (fun s => withView s (sview s) (hd_error param)) page.

Inductive page_event :=
| GestureOn (k : nat) (g : gesture T)
| ZoomTimerOf (k : nat)
| SampleAll (newData : list T)
| RedrawTimerOf (k : nat).

Definition page_step (page : list (Scene T)) (e : page_event) : list (Scene T) :=
  match e with
  | GestureOn k g =>
      match nth_error page k with
      | Some s =>
          match zoomElement s with
          | Some _ => onZoomAll (at_scene k (moveRect g) page)
          | None => page
          end
      | None => page
      end
  | ZoomTimerOf k =>
      match zoomTimerArgs k page with
      | Some param =>
          at_scene k (fun s => withView s (view_step (sview s) ZoomTick)
                                        (hd_error param))
                   (syncRects param page)
      | None => page
      end
  | SampleAll newData => map (fun s => scene_step s (Sample newData)) page
  | RedrawTimerOf k => at_scene k (fun s => scene_step s RedrawTimer) page
  end.

Definition page_run (trace : list page_event) (page : list (Scene T))
  : list (Scene T) :=
  fold_left page_step trace page.




End Page.

Arguments page_event T : clear implicits.

(** ** An example on rationals *)

(** A page of two charts of 800 by 300 pixels over the five samples of
    [rows5], made at the date 0. *)
Definition page5 : list (Scene Q) :=
  match selectCharts 0 rows5 [(800, 300); (800, 300)]%Q with
  | Some page => page
  | None => []
  end.

(** A turn of the wheel that doubles the scale at the centre of a chart. *)
Definition wheel2 : gesture Q := Wheel 2%Q (400%Q, 150%Q).

Section PageFacts.
Context {T : Type} {ops : NumOps T} {fld : NumField T} {ord : NumOrder T}.
Context {nan : NaNOps T} {dates : DateOps T} {query : RangeQuery T}.
Implicit Types (s : Scene T) (page : list (Scene T)) (e : page_event T).

(** ** Maps over the page *)





(** ** No view is ever transformed *)








(** ** The first gesture is the last *)






End PageFacts.

(** ** Evaluation *)

(** A turn of the wheel on the first chart moves its rectangle and
    schedules a call of [zoom] in both charts. *)
Example page5_gesture :
  map (fun s => (zoomElement s, timers (zoom (sview s))))
      (page_run [GestureOn 0 wheel2] page5)
  = [(Some (gesture_step (chartBehavior 800%Q 300%Q) zoomIdentity wheel2), [[]]);
     (Some zoomIdentity, [[]])].
Proof. vm_compute. reflexivity. Qed.

(** The tick of the timer of the second chart then takes the transform
    off both rectangles; the call of the first chart stays scheduled. *)
Example page5_tick :
  map (fun s => (zoomElement s, timers (zoom (sview s))))
      (page_run [GestureOn 0 wheel2; ZoomTimerOf 1] page5)
  = [(None, [[]]); (None, [])].
Proof. vm_compute. reflexivity. Qed.

(** ** Witnesses *)



