(* ===== verification/Bench.v ===== *)
(** * Bench: the pan benchmark

    [src/benchmarks/d3-pan-zoom-vwt/index.ts] beyond [vecToModel] and the
    body of [draw] (both in [Viewport]): the globals of the page, the zoom
    handler [zoomed] and the throttle that runs [draw] once per animation
    frame.

    The state is the viewport transform [t], the string of the last zoom
    transform seen ([newZoom], [null] at first), its abscissa
    ([newZoomX]), the count of zoom events, and the throttle of [draw].
    The handler compares the strings of transforms; the comparison is a
    parameter of the model ([same]).  The benchmark's own [drawProc] has
    the flag of the one in [src/draw.ts] and captures no arguments: it is
    a [DrawProc unit].  [draw] reads [newZoomX] when the frame runs.

    Events: a zoom event, an animation frame.  A frame whose [draw] fails
    (the mapper converts before it is ready) leaves [t] as it was.

    Theorems: the frame draws the latest pan, not the first of a burst; a
    repeated transform requests no frame; on the mapper of the
    specification the benchmark never gets a window, because the only call
    of [setViewWindow] comes after a conversion; on a mapper that starts
    from placeholder bases ([placeholderBench]) every frame draws, the
    window is [2 * rr] wide from the first frame on, and a pan is shown
    at the next frame. *)

From Stdlib Require Import List Arith QArith Bool.
From S2P Require Import Prelude Numeric SVGMatrix Affine Basis Throttle.
From S2P Require Import Viewport ZoomHandler.
Import ListNotations.

Local Open Scope num_scope.

Section Bench.
Context {T : Type} {ops : NumOps T}.
Context (same : ZoomTransform T -> ZoomTransform T -> bool).

Record Bench := mkBench {
  t : ViewWindowTransform T;
  newZoom : option (ZoomTransform T);
  newZoomX : T;
  zoomCount : nat;
  drawRequest : DrawProc unit
}.

(** The page once its script has run: the viewport is set to the width of
    the [svg] on both axes, no zoom was seen, and [draw()] has been called
    once. *)
Definition newBench (width : T) : Bench :=
  mkBench (setViewPort newViewWindowTransform width width) None 0 0%nat
          (invoke drawProc tt).

(** The same page on a mapper that starts from placeholder bases. *)
Definition placeholderBench (width : T) : Bench :=
  mkBench (setViewPort placeholderViewWindowTransform width width) None 0 0%nat
          (invoke drawProc tt).

(** [z != newZoom]. *)
Definition differs (transform : ZoomTransform T)
  (last : option (ZoomTransform T)) : bool :=
  match last with
  | Some z => negb (same transform z)
  | None => true
  end.

(** [zoomed()], on the transform of the event. *)
Definition zoomed (this : Bench) (transform : ZoomTransform T) : Bench :=
  let count := S (zoomCount this) in
  if differs transform (newZoom this)
  then mkBench (t this) (Some transform) (zoomX transform) count
               (invoke (drawRequest this) tt)
  else mkBench (t this) (newZoom this) (newZoomX this) count
               (drawRequest this).

(** An animation frame: the callback, if one was requested, lowers the
    flag and runs [draw]; [false] when [draw] throws. *)
Definition frame (this : Bench) : Bench * bool :=
  match timeout (drawRequest this) with
  | (proc, Some _) =>
      match draw (t this) (newZoomX this) with
      | Some t' =>
          (mkBench t' (newZoom this) (newZoomX this) (zoomCount this) proc, true)
      | None =>
          (mkBench (t this) (newZoom this) (newZoomX this) (zoomCount this) proc,
           false)
      end
  | (_, None) => (this, true)
  end.

Inductive bench_event :=
| Zoomed (transform : ZoomTransform T)
| Frame.

Definition bench_step (this : Bench) (e : bench_event) : Bench :=
  match e with
  | Zoomed transform => zoomed this transform
  | Frame => fst (frame this)
  end.

Definition bench_run (trace : list bench_event) (this : Bench) : Bench :=
  fold_left bench_step trace this.

(** The zoom events of a trace. *)
Definition zooms_of (trace : list bench_event) : nat :=
  length (filter (fun e => match e with Zoomed _ => true | Frame => false end)
                 trace).

End Bench.

Arguments Bench T : clear implicits.
Arguments bench_event T : clear implicits.

(** Transforms with rational coefficients have the same string when their
    coefficients are equal. *)
Definition sameQ (a b : ZoomTransform Q) : bool :=
  Qeq_bool (zoomK a) (zoomK b) && Qeq_bool (zoomX a) (zoomX b) &&
  Qeq_bool (zoomY a) (zoomY b).

(** A page whose window is set: 800 pixels wide, the window [(-500, 500)]
    on both axes, at rest. *)
Definition readyBench : Bench Q :=
  mkBench (setViewWindow (setViewPort newViewWindowTransform 800%Q 800%Q)
                         (- (500))%Q 500%Q (- (500))%Q 500%Q)
          None 0%Q 0%nat drawProc.

Definition pan80 : ZoomTransform Q := mkZoomTransform 1%Q 80%Q 0%Q.

Definition pan200 : ZoomTransform Q := mkZoomTransform 1%Q 200%Q 0%Q.

Section BenchFacts.
Context {T : Type} {ops : NumOps T}.
Context (same : ZoomTransform T -> ZoomTransform T -> bool).
Implicit Types (this : Bench T) (e : bench_event T)
  (trace : list (bench_event T)) (z : ZoomTransform T).

(** ** The throttle *)

Lemma bench_throttle_step this e :
  throttle_inv (drawRequest this) ->
  throttle_inv (drawRequest (bench_step same this e)).
Proof.
  intros H. destruct e as [z |]; simpl.
  - unfold zoomed. destruct (differs same z (newZoom this)); simpl;
      auto with svg.
  - unfold frame.
    destruct (timeout (drawRequest this)) as [proc [[] |]] eqn:E; [| exact H].
    assert (throttle_inv proc) as Hp.
    { change proc with (fst (proc, Some tt)). rewrite <- E.
      now apply throttle_inv_timeout. }
    destruct (draw (t this) (newZoomX this)); exact Hp.
Qed.

(** Every zoom event is counted, drawn or not. *)
Lemma bench_step_count this e :
  zoomCount (bench_step same this e)
  = (zoomCount this + zooms_of [e])%nat.
Proof.
  destruct e as [z |]; simpl.
  - unfold zoomed. destruct (differs same z (newZoom this)); simpl;
      now rewrite Nat.add_1_r.
  - unfold frame.
    destruct (timeout (drawRequest this)) as [proc [[] |]];
      [destruct (draw (t this) (newZoomX this)) |]; simpl;
      now rewrite Nat.add_0_r.
Qed.

(** ** The frame draws the latest pan *)

(** C33: Of two different zoom events before the frame, the frame draws the
    second: [draw] reads [newZoomX] when it runs. *)
Theorem frame_draws_latest this z1 z2 t' :
  drawRequest this = drawProc ->
  differs same z1 (newZoom this) = true ->
  same z2 z1 = false ->
  draw (t this) (zoomX z2) = Some t' ->
  bench_run same [Zoomed z1; Zoomed z2; Frame] this
  = mkBench t' (Some z2) (zoomX z2) (S (S (zoomCount this))) drawProc.
Proof.
  intros Hr H1 H2 Hd. destruct this as [t0 nz nzx n r]. simpl in *. subst r.
  unfold zoomed. simpl. rewrite H1. simpl. rewrite H2. simpl.
  unfold frame. simpl. now rewrite Hd.
Qed.

(** A zoom event with the transform seen last requests no frame. *)
Theorem zoomed_repeated this z :
  newZoom this = Some z -> same z z = true ->
  zoomed same this z
  = mkBench (t this) (newZoom this) (newZoomX this) (S (zoomCount this))
            (drawRequest this).
Proof.
  intros Hz Hs. unfold zoomed, differs. now rewrite Hz, Hs.
Qed.

(** ** The mapper of the specification is never ready *)

Lemma draw_unready (w x : T) :
  draw (setViewPort newViewWindowTransform w w) x = None.
Proof. reflexivity. Qed.

Lemma bench_step_t this e (w : T) :
  t this = setViewPort newViewWindowTransform w w ->
  t (bench_step same this e) = setViewPort newViewWindowTransform w w.
Proof.
  intros H. destruct e as [z |]; simpl.
  - unfold zoomed. now destruct (differs same z (newZoom this)).
  - unfold frame. destruct (timeout (drawRequest this)) as [proc [[] |]];
      [| exact H].
    rewrite H, draw_unready. reflexivity.
Qed.

(** C34: The only call of [setViewWindow] is in [draw], after the conversions
    of [vecToModel]; on a mapper that refuses to convert before a window
    is set, no window is ever set: after any zoom events and frames the
    transform is as [setViewPort] left it and [draw] still fails. *)
Theorem bench_never_ready trace (w : T) :
  t (bench_run same trace (newBench w))
  = setViewPort newViewWindowTransform w w /\
  draw (t (bench_run same trace (newBench w)))
       (newZoomX (bench_run same trace (newBench w))) = None.
Proof.
  assert (t (bench_run same trace (newBench w))
          = setViewPort newViewWindowTransform w w) as E.
  { unfold bench_run.
    apply (fold_left_invariant
             (fun b => t b = setViewPort newViewWindowTransform w w));
      [intros b e; apply bench_step_t | reflexivity]. }
  split; [exact E | rewrite E; apply draw_unready].
Qed.

End BenchFacts.

(** ** On placeholder bases the benchmark pans *)

Section PlaceholderFacts.
Context {T : Type} {ops : NumOps T} {fld : NumField T}.
Context (same : ZoomTransform T -> ZoomTransform T -> bool).
Context (w : T) (Hw : ~ w == 0) (Hr : ~ rr + rr == (0 : T)).
Implicit Types (this : Bench T) (e : bench_event T)
  (trace : list (bench_event T)) (z : ZoomTransform T).

(** With windows set every frame draws. *)
Lemma frame_windowed this :
  windowed w (t this) -> snd (frame this) = true.
Proof.
  intros H. unfold frame.
  destruct (timeout (drawRequest this)) as [proc [[] |]]; [| reflexivity].
  now destruct (draw_windowed (t this) w (newZoomX this) Hw Hr H) as (t' & -> & _).
Qed.

Lemma bench_step_windowed this e :
  windowed w (t this) -> windowed w (t (bench_step same this e)).
Proof.
  intros H. destruct e as [z |]; simpl.
  - unfold zoomed. now destruct (differs same z (newZoom this)).
  - unfold frame.
    destruct (timeout (drawRequest this)) as [proc [[] |]]; [| exact H].
    destruct (draw_windowed (t this) w (newZoomX this) Hw Hr H) as (t' & -> & H').
    now apply wide_windowed.
Qed.

Lemma bench_step_wide this e :
  wide w (t this) -> wide w (t (bench_step same this e)).
Proof.
  intros H. destruct e as [z |]; simpl.
  - unfold zoomed. now destruct (differs same z (newZoom this)).
  - unfold frame.
    destruct (timeout (drawRequest this)) as [proc [[] |]]; [| exact H].
    now destruct (draw_windowed (t this) w (newZoomX this) Hw Hr
                                (wide_windowed w _ Hr H)) as (t' & -> & H').
Qed.

(** On placeholder bases the benchmark always has windows: after any
    zoom events and frames the next frame draws. *)
Theorem placeholder_bench_draws trace :
  windowed w (t (bench_run same trace (placeholderBench w))) /\
  snd (frame (bench_run same trace (placeholderBench w))) = true.
Proof.
  assert (windowed w (t (bench_run same trace (placeholderBench w)))) as H.
  { unfold bench_run. apply fold_left_invariant;
      [intros b e; apply bench_step_windowed | apply windowed_placeholder]. }
  split; [exact H | now apply frame_windowed].
Qed.

(** After the first frame the window is [2 * rr] wide, for good. *)
Lemma placeholder_bench_wide trace :
  wide w (t (bench_run same (Frame :: trace) (placeholderBench w))).
Proof.
  unfold bench_run. cbn [fold_left].
  apply fold_left_invariant; [intros b e; apply bench_step_wide |].
  destruct (draw_windowed _ w 0 Hw Hr (windowed_placeholder w)) as (t' & Ed & H').
  cbn [bench_step]. unfold frame, placeholderBench.
  cbn [drawRequest t newZoomX].
  change (timeout (invoke drawProc tt)) with (@drawProc unit, Some tt).
  cbv beta iota. now rewrite Ed.
Qed.

Lemma bench_run_throttle trace :
  throttle_inv (drawRequest (bench_run same trace (placeholderBench w))).
Proof.
  unfold bench_run. apply fold_left_invariant;
    [intros b e; apply bench_throttle_step |].
  simpl. auto with svg.
Qed.

(** C35: On placeholder bases, once the first frame has run, a pan is drawn at
    the next frame: the model origin is [z.x] pixels from the centre of
    the view port. *)
Theorem placeholder_bench_pans trace z :
  differs same z (newZoom (bench_run same (Frame :: trace) (placeholderBench w)))
  = true ->
  exists s,
    toScreen (axisX (t (bench_run same (Frame :: trace ++ [Zoomed z; Frame])
                                  (placeholderBench w)))) 0 = Some s /\
    s + s == w + (zoomX z + zoomX z).
Proof.
  intros Hd.
  change (Frame :: trace ++ [Zoomed z; Frame])
    with ((Frame :: trace) ++ [Zoomed z; Frame]).
  unfold bench_run in *. rewrite fold_left_app.
  pose proof (placeholder_bench_wide trace) as Hwide.
  pose proof (bench_run_throttle (Frame :: trace)) as Hth.
  unfold bench_run in Hwide, Hth.
  set (b := fold_left (bench_step same) (Frame :: trace) (placeholderBench w)) in *.
  cbn [fold_left bench_step]. unfold zoomed. rewrite Hd.
  unfold frame. cbn [drawRequest t newZoomX].
  pose proof (invoke_schedules (drawRequest b) tt Hth) as Hl.
  unfold timeout. destruct (timers (invoke (drawRequest b) tt)) as [| [] rest];
    [discriminate |].
  destruct Hwide as (x1 & x2 & y1 & y2 & Ex & Hy & ->).
  destruct (draw_pans_wide newViewWindowTransform w w x1 x2 y1 y2 (zoomX z)
                           Hw Hw Hr Ex Hy) as (mx & my & s & -> & _ & Es & Hs).
  exists s. split; [exact Es | exact Hs].
Qed.

End PlaceholderFacts.

(** ** Evaluation *)

(** Pans by 80 and then 200 pixels before the frame: the window is moved
    by 250 model units, the pan of 200 pixels. *)
Example readyBench_pans :
  let b := bench_run sameQ [Zoomed pan80; Zoomed pan200; Frame] readyBench in
  opt_is (option_map (@p1 Q) (window (axisX (t b)))) (- (750)) /\
  opt_is (option_map (@p2 Q) (window (axisX (t b)))) 250 /\
  zoomCount b = 2%nat.
Proof. vm_compute. repeat split. Qed.

(** On placeholder bases: the first frame sets the window (-500, 500);
    after a pan of 80 pixels the next frame sets (-600, 400), and the
    model origin is drawn at pixel 480 of 800. *)
Example placeholderBench_pans :
  let b := bench_run sameQ [Frame; Zoomed pan80; Frame] (placeholderBench 800%Q) in
  opt_is (option_map (@p1 Q) (window (axisX (t b)))) (- (600)) /\
  opt_is (option_map (@p2 Q) (window (axisX (t b)))) 400 /\
  opt_is (toScreen (axisX (t b)) 0) 480.
Proof. vm_compute. repeat split. Qed.

(** ** Witnesses *)

Lemma frame_draws_latest_witness :
  exists t',
    draw (t readyBench) (zoomX pan200) = Some t' /\
    bench_run sameQ [Zoomed pan80; Zoomed pan200; Frame] readyBench
    = mkBench t' (Some pan200) (zoomX pan200) 2%nat drawProc.
Proof.
  eexists. split; [reflexivity |].
  apply (frame_draws_latest sameQ readyBench pan80 pan200); reflexivity.
Defined.

Lemma zoomed_repeated_witness :
  zoomed sameQ (zoomed sameQ readyBench pan80) pan80
  = mkBench (t (zoomed sameQ readyBench pan80))
            (newZoom (zoomed sameQ readyBench pan80))
            (newZoomX (zoomed sameQ readyBench pan80))
            (S (zoomCount (zoomed sameQ readyBench pan80)))
            (drawRequest (zoomed sameQ readyBench pan80)).
Proof.
  apply (zoomed_repeated sameQ (zoomed sameQ readyBench pan80) pan80);
    reflexivity.
Defined.

Lemma placeholder_bench_draws_witness :
  windowed 800%Q (t (bench_run sameQ [Zoomed pan80; Frame; Zoomed pan200]
                               (placeholderBench 800%Q))) /\
  snd (frame (bench_run sameQ [Zoomed pan80; Frame; Zoomed pan200]
                        (placeholderBench 800%Q))) = true.
Proof.
  exact (placeholder_bench_draws sameQ 800%Q Q800_0 Qrr
           [Zoomed pan80; Frame; Zoomed pan200]).
Defined.

Lemma placeholder_bench_pans_witness :
  exists s,
    toScreen (axisX (t (bench_run sameQ
                          (Frame :: [Zoomed pan80; Frame] ++ [Zoomed pan200; Frame])
                          (placeholderBench 800%Q)))) 0 = Some s /\
    (s + s == 800 + (200 + 200))%Q.
Proof.
  exact (placeholder_bench_pans sameQ 800%Q Q800_0 Qrr [Zoomed pan80; Frame] pan200
           eq_refl).
Defined.
